(** * nbox-cli: the entry import workflow of [nbox_cli/cli.py] and the
      entry client of [nbox_cli/client.py], embedded and verified.

    The commands are run on text ([str]) as the list of its code points,
    each an 8-bit [ascii]: text whose code points are below 256, on which
    the case mapping and the whitespace class below are those of Python 3
    ([str.lower], [str.strip], [str.isspace]).  The key transforms are
    given a second time on text of any code points (module [Unicode]),
    with the case mapping of the whole character database; the facts about
    keys are proved there, and the two agree on 8-bit text. *)

From Stdlib Require Import List Bool Ascii String ZArith NArith Lia DecimalString.

Set Warnings "-register-all".

Import ListNotations.

Set Implicit Arguments.

(* ================================================================= *)
(** ** Text *)

Module Text.

Definition str : Type := list ascii.

(** A Python literal. *)
Definition py (s : string) : str := list_ascii_of_string s.

(** [str.lower] on one code point: A-Z, and the Latin-1 capitals
    U+00C0..U+00DE except the multiplication sign U+00D7. *)
Definition lower_char (c : ascii) : ascii :=
  let n := N_of_ascii c in
  if ((65 <=? n) && (n <=? 90))%N
     || ((192 <=? n) && (n <=? 222) && negb (n =? 215))%N
  then ascii_of_N (n + 32) else c.

(** [str.isspace] on one code point: TAB, LF, VT, FF, CR, the separators
    U+001C..U+001F, space, U+0085 and U+00A0. *)
Definition is_space (c : ascii) : bool :=
  let n := N_of_ascii c in
  (((9 <=? n) && (n <=? 13)) || ((28 <=? n) && (n <=? 32))
   || (n =? 133) || (n =? 160))%N.

Definition lower (s : str) : str := map lower_char s.

(** [s.replace(a, b)] for one-character [a] and [b]. *)
Definition replace_char (a b c : ascii) : ascii :=
  if Ascii.eqb c a then b else c.

Definition replace (a b : ascii) (s : str) : str := map (replace_char a b) s.

(** [s.lstrip(chars)] and [s.rstrip(chars)], the character set given as a
    predicate. *)
Fixpoint lstrip_by (p : ascii -> bool) (s : str) : str :=
  match s with
  | [] => []
  | c :: t => if p c then lstrip_by p t else s
  end.

Definition rstrip_by (p : ascii -> bool) (s : str) : str :=
  rev (lstrip_by p (rev s)).

(** [s.strip()] *)
Definition strip (s : str) : str := rstrip_by is_space (lstrip_by is_space s).

(** [s.lstrip("/")] and [s.rstrip("/")] *)
Definition is_slash (c : ascii) : bool := Ascii.eqb c "/".
Definition lstrip_slash (s : str) : str := lstrip_by is_slash s.
Definition rstrip_slash (s : str) : str := rstrip_by is_slash s.

(** [s.split(sep)] for a one-character separator: never the empty list. *)
Fixpoint split (sep : ascii) (s : str) : list str :=
  match s with
  | [] => [[]]
  | c :: t =>
      if Ascii.eqb c sep then [] :: split sep t
      else match split sep t with
           | [] => [[c]]
           | h :: r => (c :: h) :: r
           end
  end.

(** [s.split(sep, 1)] when [sep in s]: the text before and after the first
    separator; [None] when [sep not in s]. *)
Fixpoint split_once (sep : ascii) (s : str) : option (str * str) :=
  match s with
  | [] => None
  | c :: t =>
      if Ascii.eqb c sep then Some ([], t)
      else match split_once sep t with
           | Some (a, b) => Some (c :: a, b)
           | None => None
           end
  end.

(** [sep.join(parts)] *)
Fixpoint join (sep : str) (parts : list str) : str :=
  match parts with
  | [] => []
  | x :: r => match r with
              | [] => x
              | _ :: _ => x ++ sep ++ join sep r
              end
  end.

(** [s.startswith(c)] and [s.endswith(c)] for a one-character [c]. *)
Definition startswith (c : ascii) (s : str) : bool :=
  match s with
  | [] => false
  | x :: _ => Ascii.eqb x c
  end.

Definition endswith (c : ascii) (s : str) : bool := startswith c (rev s).

(** [s[1:-1]]: from index 1 up to, not including, the last index. *)
Definition slice_1_m1 (s : str) : str := firstn (List.length s - 2) (skipn 1 s).

(** [sub in s] *)
Fixpoint prefix_of (sub s : str) : bool :=
  match sub, s with
  | [], _ => true
  | _ :: _, [] => false
  | a :: sub', b :: s' => Ascii.eqb a b && prefix_of sub' s'
  end.

Fixpoint contains (sub s : str) : bool :=
  prefix_of sub s ||
  match s with
  | [] => false
  | _ :: t => contains sub t
  end.

(** [s == t] *)
Fixpoint str_eqb (s t : str) : bool :=
  match s, t with
  | [], [] => true
  | a :: s', b :: t' => Ascii.eqb a b && str_eqb s' t'
  | _, _ => false
  end.

(** [str(n)] for an integer. *)
Definition str_of_Z (n : Z) : str := py (NilEmpty.string_of_int (Z.to_int n)).

End Text.
Import Text.

(* ================================================================= *)
(** ** Key normalisation (cli.py, lines 253 and 310-315) *)

(** Line 253: [key.strip().lower().replace("_", "-")]. *)
Definition env_key_normalize (k : str) : str :=
  replace "_" "-" (lower (strip k)).

(** Lines 310 and 315 on a string key: [key.lstrip("/")], then [.lower()]. *)
Definition nbox_key_normalize (k : str) : str :=
  lower (lstrip_slash k).

(* ================================================================= *)
(** ** Text of any code points *)

(** The key transforms on text as Python has it, a sequence of code points
    of any size, with [str.lower], [str.strip] and [str.isspace] as CPython
    3.11 computes them from the Unicode 14.0 character database.  On 8-bit
    text these are the operations of [Text] (shown below). *)
Module Unicode.

Local Open Scope N_scope.

Definition str : Type := list N.

(** The code points of an 8-bit text. *)
Definition of_text (s : Text.str) : str := map N_of_ascii s.

(** [str.isspace] on one code point. *)
Definition is_space (c : N) : bool :=
  ((9 <=? c) && (c <=? 13)) || ((28 <=? c) && (c <=? 32))
  || (c =? 133) || (c =? 160) || (c =? 5760)
  || ((8192 <=? c) && (c <=? 8202))
  || (c =? 8232) || (c =? 8233) || (c =? 8239) || (c =? 8287) || (c =? 12288).

(** The simple lowercase mapping, in runs [(first, last, step, target)]:
    the code points [first], [first + step], ..., [last] map to [target],
    [target + step], ... *)
Definition lower_runs : list (N * N * N * N) :=
  [
   (65, 90, 1, 97); (192, 214, 1, 224); (216, 222, 1, 248); (256, 302, 2, 257);
   (306, 310, 2, 307); (313, 327, 2, 314); (330, 374, 2, 331); (376, 376, 1, 255);
   (377, 381, 2, 378); (385, 385, 1, 595); (386, 388, 2, 387); (390, 390, 1, 596);
   (391, 391, 1, 392); (393, 394, 1, 598); (395, 395, 1, 396); (398, 398, 1, 477);
   (399, 399, 1, 601); (400, 400, 1, 603); (401, 401, 1, 402); (403, 403, 1, 608);
   (404, 404, 1, 611); (406, 406, 1, 617); (407, 407, 1, 616); (408, 408, 1, 409);
   (412, 412, 1, 623); (413, 413, 1, 626); (415, 415, 1, 629); (416, 420, 2, 417);
   (422, 422, 1, 640); (423, 423, 1, 424); (425, 425, 1, 643); (428, 428, 1, 429);
   (430, 430, 1, 648); (431, 431, 1, 432); (433, 434, 1, 650); (435, 437, 2, 436);
   (439, 439, 1, 658); (440, 440, 1, 441); (444, 444, 1, 445); (452, 452, 1, 454);
   (453, 453, 1, 454); (455, 455, 1, 457); (456, 456, 1, 457); (458, 458, 1, 460);
   (459, 475, 2, 460); (478, 494, 2, 479); (497, 497, 1, 499); (498, 500, 2, 499);
   (502, 502, 1, 405); (503, 503, 1, 447); (504, 542, 2, 505); (544, 544, 1, 414);
   (546, 562, 2, 547); (570, 570, 1, 11365); (571, 571, 1, 572); (573, 573, 1, 410);
   (574, 574, 1, 11366); (577, 577, 1, 578); (579, 579, 1, 384); (580, 580, 1, 649);
   (581, 581, 1, 652); (582, 590, 2, 583); (880, 882, 2, 881); (886, 886, 1, 887);
   (895, 895, 1, 1011); (902, 902, 1, 940); (904, 906, 1, 941); (908, 908, 1, 972);
   (910, 911, 1, 973); (913, 929, 1, 945); (931, 939, 1, 963); (975, 975, 1, 983);
   (984, 1006, 2, 985); (1012, 1012, 1, 952); (1015, 1015, 1, 1016); (1017, 1017, 1, 1010);
   (1018, 1018, 1, 1019); (1021, 1023, 1, 891); (1024, 1039, 1, 1104); (1040, 1071, 1, 1072);
   (1120, 1152, 2, 1121); (1162, 1214, 2, 1163); (1216, 1216, 1, 1231); (1217, 1229, 2, 1218);
   (1232, 1326, 2, 1233); (1329, 1366, 1, 1377); (4256, 4293, 1, 11520); (4295, 4295, 1, 11559);
   (4301, 4301, 1, 11565); (5024, 5103, 1, 43888); (5104, 5109, 1, 5112); (7312, 7354, 1, 4304);
   (7357, 7359, 1, 4349); (7680, 7828, 2, 7681); (7838, 7838, 1, 223); (7840, 7934, 2, 7841);
   (7944, 7951, 1, 7936); (7960, 7965, 1, 7952); (7976, 7983, 1, 7968); (7992, 7999, 1, 7984);
   (8008, 8013, 1, 8000); (8025, 8031, 2, 8017); (8040, 8047, 1, 8032); (8072, 8079, 1, 8064);
   (8088, 8095, 1, 8080); (8104, 8111, 1, 8096); (8120, 8121, 1, 8112); (8122, 8123, 1, 8048);
   (8124, 8124, 1, 8115); (8136, 8139, 1, 8050); (8140, 8140, 1, 8131); (8152, 8153, 1, 8144);
   (8154, 8155, 1, 8054); (8168, 8169, 1, 8160); (8170, 8171, 1, 8058); (8172, 8172, 1, 8165);
   (8184, 8185, 1, 8056); (8186, 8187, 1, 8060); (8188, 8188, 1, 8179); (8486, 8486, 1, 969);
   (8490, 8490, 1, 107); (8491, 8491, 1, 229); (8498, 8498, 1, 8526); (8544, 8559, 1, 8560);
   (8579, 8579, 1, 8580); (9398, 9423, 1, 9424); (11264, 11311, 1, 11312); (11360, 11360, 1, 11361);
   (11362, 11362, 1, 619); (11363, 11363, 1, 7549); (11364, 11364, 1, 637); (11367, 11371, 2, 11368);
   (11373, 11373, 1, 593); (11374, 11374, 1, 625); (11375, 11375, 1, 592); (11376, 11376, 1, 594);
   (11378, 11378, 1, 11379); (11381, 11381, 1, 11382); (11390, 11391, 1, 575); (11392, 11490, 2, 11393);
   (11499, 11501, 2, 11500); (11506, 11506, 1, 11507); (42560, 42604, 2, 42561); (42624, 42650, 2, 42625);
   (42786, 42798, 2, 42787); (42802, 42862, 2, 42803); (42873, 42875, 2, 42874); (42877, 42877, 1, 7545);
   (42878, 42886, 2, 42879); (42891, 42891, 1, 42892); (42893, 42893, 1, 613); (42896, 42898, 2, 42897);
   (42902, 42920, 2, 42903); (42922, 42922, 1, 614); (42923, 42923, 1, 604); (42924, 42924, 1, 609);
   (42925, 42925, 1, 620); (42926, 42926, 1, 618); (42928, 42928, 1, 670); (42929, 42929, 1, 647);
   (42930, 42930, 1, 669); (42931, 42931, 1, 43859); (42932, 42946, 2, 42933); (42948, 42948, 1, 42900);
   (42949, 42949, 1, 642); (42950, 42950, 1, 7566); (42951, 42953, 2, 42952); (42960, 42960, 1, 42961);
   (42966, 42968, 2, 42967); (42997, 42997, 1, 42998); (65313, 65338, 1, 65345); (66560, 66599, 1, 66600);
   (66736, 66771, 1, 66776); (66928, 66938, 1, 66967); (66940, 66954, 1, 66979); (66956, 66962, 1, 66995);
   (66964, 66965, 1, 67003); (68736, 68786, 1, 68800); (71840, 71871, 1, 71872); (93760, 93791, 1, 93792);
   (125184, 125217, 1, 125218)
  ].

Fixpoint run_pairs (n : nat) (c step t : N) : list (N * N) :=
  match n with
  | O => []
  | S n => (c, t) :: run_pairs n (c + step) step (t + step)
  end.

Definition lower_table : list (N * N) :=
  flat_map (fun r => match r with
                     | (first, last, step, target) =>
                         run_pairs (S (N.to_nat ((last - first) / step))) first step target
                     end) lower_runs.

Fixpoint assoc (c : N) (l : list (N * N)) : option N :=
  match l with
  | [] => None
  | (c', t) :: rest => if c' =? c then Some t else assoc c rest
  end.

Definition lower_simple (c : N) : N :=
  match assoc c lower_table with
  | Some t => t
  | None => c
  end.

(** The full lowercase mapping: U+0130 alone maps to two code points. *)
Definition lower_full (c : N) : list N :=
  if c =? 304 then [105; 775] else [lower_simple c].

(** The code points with the property Case_Ignorable, and those with the
    property Cased, as ranges [(first, last)]. *)
Definition case_ignorable_ranges : list (N * N) :=
  [
   (39, 39); (46, 46); (58, 58); (94, 94); (96, 96); (168, 168);
   (173, 173); (175, 175); (180, 180); (183, 184); (688, 879); (884, 885);
   (890, 890); (900, 901); (903, 903); (1155, 1161); (1369, 1369); (1375, 1375);
   (1425, 1469); (1471, 1471); (1473, 1474); (1476, 1477); (1479, 1479); (1524, 1524);
   (1536, 1541); (1552, 1562); (1564, 1564); (1600, 1600); (1611, 1631); (1648, 1648);
   (1750, 1757); (1759, 1768); (1770, 1773); (1807, 1807); (1809, 1809); (1840, 1866);
   (1958, 1968); (2027, 2037); (2042, 2042); (2045, 2045); (2070, 2093); (2137, 2139);
   (2184, 2184); (2192, 2193); (2200, 2207); (2249, 2306); (2362, 2362); (2364, 2364);
   (2369, 2376); (2381, 2381); (2385, 2391); (2402, 2403); (2417, 2417); (2433, 2433);
   (2492, 2492); (2497, 2500); (2509, 2509); (2530, 2531); (2558, 2558); (2561, 2562);
   (2620, 2620); (2625, 2626); (2631, 2632); (2635, 2637); (2641, 2641); (2672, 2673);
   (2677, 2677); (2689, 2690); (2748, 2748); (2753, 2757); (2759, 2760); (2765, 2765);
   (2786, 2787); (2810, 2815); (2817, 2817); (2876, 2876); (2879, 2879); (2881, 2884);
   (2893, 2893); (2901, 2902); (2914, 2915); (2946, 2946); (3008, 3008); (3021, 3021);
   (3072, 3072); (3076, 3076); (3132, 3132); (3134, 3136); (3142, 3144); (3146, 3149);
   (3157, 3158); (3170, 3171); (3201, 3201); (3260, 3260); (3263, 3263); (3270, 3270);
   (3276, 3277); (3298, 3299); (3328, 3329); (3387, 3388); (3393, 3396); (3405, 3405);
   (3426, 3427); (3457, 3457); (3530, 3530); (3538, 3540); (3542, 3542); (3633, 3633);
   (3636, 3642); (3654, 3662); (3761, 3761); (3764, 3772); (3782, 3782); (3784, 3789);
   (3864, 3865); (3893, 3893); (3895, 3895); (3897, 3897); (3953, 3966); (3968, 3972);
   (3974, 3975); (3981, 3991); (3993, 4028); (4038, 4038); (4141, 4144); (4146, 4151);
   (4153, 4154); (4157, 4158); (4184, 4185); (4190, 4192); (4209, 4212); (4226, 4226);
   (4229, 4230); (4237, 4237); (4253, 4253); (4348, 4348); (4957, 4959); (5906, 5908);
   (5938, 5939); (5970, 5971); (6002, 6003); (6068, 6069); (6071, 6077); (6086, 6086);
   (6089, 6099); (6103, 6103); (6109, 6109); (6155, 6159); (6211, 6211); (6277, 6278);
   (6313, 6313); (6432, 6434); (6439, 6440); (6450, 6450); (6457, 6459); (6679, 6680);
   (6683, 6683); (6742, 6742); (6744, 6750); (6752, 6752); (6754, 6754); (6757, 6764);
   (6771, 6780); (6783, 6783); (6823, 6823); (6832, 6862); (6912, 6915); (6964, 6964);
   (6966, 6970); (6972, 6972); (6978, 6978); (7019, 7027); (7040, 7041); (7074, 7077);
   (7080, 7081); (7083, 7085); (7142, 7142); (7144, 7145); (7149, 7149); (7151, 7153);
   (7212, 7219); (7222, 7223); (7288, 7293); (7376, 7378); (7380, 7392); (7394, 7400);
   (7405, 7405); (7412, 7412); (7416, 7417); (7468, 7530); (7544, 7544); (7579, 7679);
   (8125, 8125); (8127, 8129); (8141, 8143); (8157, 8159); (8173, 8175); (8189, 8190);
   (8203, 8207); (8216, 8217); (8228, 8228); (8231, 8231); (8234, 8238); (8288, 8292);
   (8294, 8303); (8305, 8305); (8319, 8319); (8336, 8348); (8400, 8432); (11388, 11389);
   (11503, 11505); (11631, 11631); (11647, 11647); (11744, 11775); (11823, 11823); (12293, 12293);
   (12330, 12333); (12337, 12341); (12347, 12347); (12441, 12446); (12540, 12542); (40981, 40981);
   (42232, 42237); (42508, 42508); (42607, 42610); (42612, 42621); (42623, 42623); (42652, 42655);
   (42736, 42737); (42752, 42785); (42864, 42864); (42888, 42890); (42994, 42996); (43000, 43001);
   (43010, 43010); (43014, 43014); (43019, 43019); (43045, 43046); (43052, 43052); (43204, 43205);
   (43232, 43249); (43263, 43263); (43302, 43309); (43335, 43345); (43392, 43394); (43443, 43443);
   (43446, 43449); (43452, 43453); (43471, 43471); (43493, 43494); (43561, 43566); (43569, 43570);
   (43573, 43574); (43587, 43587); (43596, 43596); (43632, 43632); (43644, 43644); (43696, 43696);
   (43698, 43700); (43703, 43704); (43710, 43711); (43713, 43713); (43741, 43741); (43756, 43757);
   (43763, 43764); (43766, 43766); (43867, 43871); (43881, 43883); (44005, 44005); (44008, 44008);
   (44013, 44013); (64286, 64286); (64434, 64450); (65024, 65039); (65043, 65043); (65056, 65071);
   (65106, 65106); (65109, 65109); (65279, 65279); (65287, 65287); (65294, 65294); (65306, 65306);
   (65342, 65342); (65344, 65344); (65392, 65392); (65438, 65439); (65507, 65507); (65529, 65531);
   (66045, 66045); (66272, 66272); (66422, 66426); (67456, 67461); (67463, 67504); (67506, 67514);
   (68097, 68099); (68101, 68102); (68108, 68111); (68152, 68154); (68159, 68159); (68325, 68326);
   (68900, 68903); (69291, 69292); (69446, 69456); (69506, 69509); (69633, 69633); (69688, 69702);
   (69744, 69744); (69747, 69748); (69759, 69761); (69811, 69814); (69817, 69818); (69821, 69821);
   (69826, 69826); (69837, 69837); (69888, 69890); (69927, 69931); (69933, 69940); (70003, 70003);
   (70016, 70017); (70070, 70078); (70089, 70092); (70095, 70095); (70191, 70193); (70196, 70196);
   (70198, 70199); (70206, 70206); (70367, 70367); (70371, 70378); (70400, 70401); (70459, 70460);
   (70464, 70464); (70502, 70508); (70512, 70516); (70712, 70719); (70722, 70724); (70726, 70726);
   (70750, 70750); (70835, 70840); (70842, 70842); (70847, 70848); (70850, 70851); (71090, 71093);
   (71100, 71101); (71103, 71104); (71132, 71133); (71219, 71226); (71229, 71229); (71231, 71232);
   (71339, 71339); (71341, 71341); (71344, 71349); (71351, 71351); (71453, 71455); (71458, 71461);
   (71463, 71467); (71727, 71735); (71737, 71738); (71995, 71996); (71998, 71998); (72003, 72003);
   (72148, 72151); (72154, 72155); (72160, 72160); (72193, 72202); (72243, 72248); (72251, 72254);
   (72263, 72263); (72273, 72278); (72281, 72283); (72330, 72342); (72344, 72345); (72752, 72758);
   (72760, 72765); (72767, 72767); (72850, 72871); (72874, 72880); (72882, 72883); (72885, 72886);
   (73009, 73014); (73018, 73018); (73020, 73021); (73023, 73029); (73031, 73031); (73104, 73105);
   (73109, 73109); (73111, 73111); (73459, 73460); (78896, 78904); (92912, 92916); (92976, 92982);
   (92992, 92995); (94031, 94031); (94095, 94111); (94176, 94177); (94179, 94180); (110576, 110579);
   (110581, 110587); (110589, 110590); (113821, 113822); (113824, 113827); (118528, 118573); (118576, 118598);
   (119143, 119145); (119155, 119170); (119173, 119179); (119210, 119213); (119362, 119364); (121344, 121398);
   (121403, 121452); (121461, 121461); (121476, 121476); (121499, 121503); (121505, 121519); (122880, 122886);
   (122888, 122904); (122907, 122913); (122915, 122916); (122918, 122922); (123184, 123197); (123566, 123566);
   (123628, 123631); (125136, 125142); (125252, 125259); (127995, 127999); (917505, 917505); (917536, 917631);
   (917760, 917999)
  ].

Definition cased_ranges : list (N * N) :=
  [
   (65, 90); (97, 122); (170, 170); (181, 181); (186, 186); (192, 214);
   (216, 246); (248, 442); (444, 447); (452, 659); (661, 696); (704, 705);
   (736, 740); (837, 837); (880, 883); (886, 887); (890, 893); (895, 895);
   (902, 902); (904, 906); (908, 908); (910, 929); (931, 1013); (1015, 1153);
   (1162, 1327); (1329, 1366); (1376, 1416); (4256, 4293); (4295, 4295); (4301, 4301);
   (4304, 4346); (4349, 4351); (5024, 5109); (5112, 5117); (7296, 7304); (7312, 7354);
   (7357, 7359); (7424, 7615); (7680, 7957); (7960, 7965); (7968, 8005); (8008, 8013);
   (8016, 8023); (8025, 8025); (8027, 8027); (8029, 8029); (8031, 8061); (8064, 8116);
   (8118, 8124); (8126, 8126); (8130, 8132); (8134, 8140); (8144, 8147); (8150, 8155);
   (8160, 8172); (8178, 8180); (8182, 8188); (8305, 8305); (8319, 8319); (8336, 8348);
   (8450, 8450); (8455, 8455); (8458, 8467); (8469, 8469); (8473, 8477); (8484, 8484);
   (8486, 8486); (8488, 8488); (8490, 8493); (8495, 8500); (8505, 8505); (8508, 8511);
   (8517, 8521); (8526, 8526); (8544, 8575); (8579, 8580); (9398, 9449); (11264, 11492);
   (11499, 11502); (11506, 11507); (11520, 11557); (11559, 11559); (11565, 11565); (42560, 42605);
   (42624, 42653); (42786, 42887); (42891, 42894); (42896, 42954); (42960, 42961); (42963, 42963);
   (42965, 42969); (42997, 42998); (43000, 43002); (43824, 43866); (43868, 43880); (43888, 43967);
   (64256, 64262); (64275, 64279); (65313, 65338); (65345, 65370); (66560, 66639); (66736, 66771);
   (66776, 66811); (66928, 66938); (66940, 66954); (66956, 66962); (66964, 66965); (66967, 66977);
   (66979, 66993); (66995, 67001); (67003, 67004); (67456, 67456); (67459, 67461); (67463, 67504);
   (67506, 67514); (68736, 68786); (68800, 68850); (71840, 71903); (93760, 93823); (119808, 119892);
   (119894, 119964); (119966, 119967); (119970, 119970); (119973, 119974); (119977, 119980); (119982, 119993);
   (119995, 119995); (119997, 120003); (120005, 120069); (120071, 120074); (120077, 120084); (120086, 120092);
   (120094, 120121); (120123, 120126); (120128, 120132); (120134, 120134); (120138, 120144); (120146, 120485);
   (120488, 120512); (120514, 120538); (120540, 120570); (120572, 120596); (120598, 120628); (120630, 120654);
   (120656, 120686); (120688, 120712); (120714, 120744); (120746, 120770); (120772, 120779); (122624, 122633);
   (122635, 122654); (125184, 125251); (127280, 127305); (127312, 127337); (127344, 127369)
  ].

Definition in_ranges (ranges : list (N * N)) (c : N) : bool :=
  existsb (fun r => (fst r <=? c) && (c <=? snd r)) ranges.

Definition case_ignorable (c : N) : bool := in_ranges case_ignorable_ranges c.
Definition cased (c : N) : bool := in_ranges cased_ranges c.

Fixpoint skip_ignorable (s : str) : str :=
  match s with
  | [] => []
  | c :: t => if case_ignorable c then skip_ignorable t else s
  end.

(** Past the case-ignorable code points, a cased one comes next. *)
Definition cased_next (s : str) : bool :=
  match skip_ignorable s with
  | [] => false
  | c :: _ => cased c
  end.

(** The context Final_Sigma of a capital sigma: [before] is the text
    before it, nearest code point first, [after] the text after it. *)
Definition final_sigma (before after : str) : bool :=
  cased_next before && negb (cased_next after).

(** What [str.lower] makes of the code point [c] between [before] and
    [after]: U+03A3 gives U+03C2 in the context Final_Sigma and U+03C3
    elsewhere, any other code point its full lowercase mapping. *)
Definition lower_code (before : str) (c : N) (after : str) : list N :=
  if c =? 931 then [if final_sigma before after then 962 else 963]
  else lower_full c.

Fixpoint lower_from (before s : str) : str :=
  match s with
  | [] => []
  | c :: rest => lower_code before c rest ++ lower_from (c :: before) rest
  end.

(** [str.lower] *)
Definition lower (s : str) : str := lower_from [] s.

(** [s.replace(a, b)] for one-character [a] and [b]. *)
Definition replace_char (a b c : N) : N := if c =? a then b else c.
Definition replace (a b : N) (s : str) : str := map (replace_char a b) s.

Fixpoint lstrip_by (p : N -> bool) (s : str) : str :=
  match s with
  | [] => []
  | c :: t => if p c then lstrip_by p t else s
  end.

Definition rstrip_by (p : N -> bool) (s : str) : str :=
  rev (lstrip_by p (rev s)).

(** [s.strip()] *)
Definition strip (s : str) : str := rstrip_by is_space (lstrip_by is_space s).

(** [s.lstrip("/")] *)
Definition is_slash (c : N) : bool := c =? 47.
Definition lstrip_slash (s : str) : str := lstrip_by is_slash s.

(** [s.split("/")] and ["/".join(parts)] *)
Fixpoint split (sep : N) (s : str) : list str :=
  match s with
  | [] => [[]]
  | c :: t =>
      if c =? sep then [] :: split sep t
      else match split sep t with
           | [] => [[c]]
           | h :: r => (c :: h) :: r
           end
  end.

Fixpoint join (sep : str) (parts : list str) : str :=
  match parts with
  | [] => []
  | x :: r => match r with
              | [] => x
              | _ :: _ => x ++ sep ++ join sep r
              end
  end.

(** Line 253: [key.strip().lower().replace("_", "-")]. *)
Definition env_key_normalize (k : str) : str :=
  replace 95 45 (lower (strip k)).

(** Lines 310 and 315 on a string key: [key.lstrip("/")], then [.lower()]. *)
Definition nbox_key_normalize (k : str) : str :=
  lower (lstrip_slash k).

(** Lines 370-375: the key the changeset looks up. *)
Definition lookup_key (draft_key : str) : str :=
  let k := lower draft_key in
  let path_parts := split 47 k in
  let key_name := replace 45 95 (last path_parts []) in
  join [47] (removelast path_parts ++ [key_name]).

(** Lines 371-375 on a lowercased key: '-' becomes '_' after the last '/'. *)
Definition last_replaced (s : str) : str :=
  join [47] (removelast (split 47 s) ++ [replace 45 95 (last (split 47 s) [])]).

(** The first code point is not one of [p], or there is none. *)
Definition first_kept (p : N -> bool) (s : str) : bool :=
  match s with
  | [] => true
  | c :: _ => negb (p c)
  end.

(** A code point [str.lower] leaves as it is, wherever it stands. *)
Definition fixed (c : N) : bool :=
  negb (c =? 931) && match lower_full c with
                     | [x] => x =? c
                     | _ => false
                     end.

End Unicode.

(* ================================================================= *)
(** ** Decoded JSON and Python values *)

(** What [json.loads] and [response.json()] return.  An object is the list
    of the dict's items, one per key; a float is the finite value
    [m * 2^e]. *)
Inductive json : Type :=
| JNull
| JBool (b : bool)
| JInt (n : Z)
| JFloat (m e : Z)
| JStr (s : str)
| JArr (items : list json)
| JObj (fields : list (str * json)).

(** Python truthiness: [if x], [not x], [x or y]. *)
Definition truthy (j : json) : bool :=
  match j with
  | JNull => false
  | JBool b => b
  | JInt n => negb (n =? 0)%Z
  | JFloat m _ => negb (m =? 0)%Z
  | JStr s => match s with [] => false | _ :: _ => true end
  | JArr items => match items with [] => false | _ :: _ => true end
  | JObj fields => match fields with [] => false | _ :: _ => true end
  end.

(** [type(x).__name__] *)
Definition type_name (j : json) : str :=
  match j with
  | JNull => py "NoneType"
  | JBool _ => py "bool"
  | JInt _ => py "int"
  | JFloat _ _ => py "float"
  | JStr _ => py "str"
  | JArr _ => py "list"
  | JObj _ => py "dict"
  end.

(** [d.get(k)] on a dict's items. *)
Fixpoint dict_get (fields : list (str * json)) (k : str) : option json :=
  match fields with
  | [] => None
  | (k', v) :: rest => if str_eqb k' k then Some v else dict_get rest k
  end.

(** [d.get(k, default)] *)
Definition dict_get_default (fields : list (str * json)) (k : str) (d : json) : json :=
  match dict_get fields k with
  | Some v => v
  | None => d
  end.

(** An Entry Draft: the dict [{'key': .., 'value': .., 'secure': ..}] that
    both parsers build and the batch write submits. *)
Record draft : Type := Draft {
  key : str;
  value : json;
  secure : json
}.

(** The outcome of [json.loads] / [response.json()]. *)
Inductive decoded : Type :=
| Decoded (j : json)
| Undecodable (msg : str).

(* ================================================================= *)
(** ** Exceptions, messages, tables, events *)

Inductive exn : Type :=
| Exit (code : Z)                        (* typer.Exit(code=..) *)
| Abort                                  (* click.Abort out of a prompt *)
| PyException (msg : str)                (* Exception(msg) *)
| AttributeError (obj_type attr : str)   (* '<type>' object has no attribute '<attr>' *)
| JSONDecodeError (msg : str)
| RequestsError (msg : str)              (* requests: the request itself failed *)
| NotRenderableError (obj_type : str)    (* rich: unable to render <type>; ... *)
| OSError (msg : str)                    (* open(): the file cannot be opened *)
| UnicodeDecodeError (msg : str).        (* read(): the file is not text *)

(** [str(e)] *)
Definition exn_text (e : exn) : str :=
  match e with
  | Exit code => str_of_Z code
  | Abort => []
  | PyException msg => msg
  | AttributeError ty attr =>
      py "'" ++ ty ++ py "' object has no attribute '" ++ attr ++ py "'"
  | JSONDecodeError msg => msg
  | RequestsError msg => msg
  | NotRenderableError ty =>
      py "unable to render " ++ ty
      ++ py "; a string or other renderable object is required"
  | OSError msg => msg
  | UnicodeDecodeError msg => msg
  end.

(** The lines the commands write with [typer.echo] / [typer.secho]. *)
Inductive message : Type :=
| MsgTokenExpired                 (* Your authentication token has expired... *)
| MsgError (text : str)           (* Error: {e} *)
| MsgFileMissing (path : str)     (* Error: File {file.absolute()} does not exist *)
| MsgNoPath                       (* Error: No nbox path provided... *)
| MsgNoValidInput                 (* No valid input option provided... *)
| MsgUnsupportedJson              (* Unsupported JSON format *)
| MsgMissingFields                (* Each entry must contain 'key' and 'value' fields *)
| MsgCancelled                    (* Operation cancelled *)
| MsgEntriesCreated (n : nat)     (* Entries created successfully: {len(data)} *)
| MsgEntryCreated (k : str)       (* Entry created successfully: {key} *)
| MsgEntryRemoved (k : str)       (* Entry removed successfully: {key} *)
| MsgNoEntryWithKey               (* Error: No entry with this key found *)
| MsgAboutToUpdate
| MsgAboutToCreate
| MsgAboutToRemove.

(** A cell as handed to [table.add_row]: text, or a decoded value passed on
    as it is. *)
Inductive cell : Type :=
| Text (s : str)
| Raw (j : json).

Record table : Type := Table {
  columns : list str;
  rows : list (list cell)
}.

Definition add_column (t : table) (c : str) : table :=
  Table (columns t ++ [c]) (rows t).

(** What [table.add_row] does to the table when it takes the row. *)
Definition add_row (t : table) (r : list cell) : table :=
  Table (columns t) (rows t ++ [r]).

(** The first cell of a row that rich's [add_row] does not take: a cell is
    taken when it is [None] or text ([is_renderable]). *)
Fixpoint not_renderable (r : list cell) : option json :=
  match r with
  | [] => None
  | Text _ :: rest => not_renderable rest
  | Raw JNull :: rest => not_renderable rest
  | Raw (JStr _) :: rest => not_renderable rest
  | Raw j :: _ => Some j
  end.

(** Requests of the entry client, relative to [BASE_URL]. *)
Inductive request : Type :=
| GET (endpoint v : str)          (* session.get(BASE_URL + endpoint, params={"v": v}) *)
| DELETE (endpoint v : str)       (* session.delete(BASE_URL + endpoint, params={"v": v}) *)
| POST (body : list draft).       (* session.post(BASE_URL.rstrip("/"), json=body) *)

Inductive http_result : Type :=
| Response (status_code : Z) (text : str) (body : decoded)
| ConnectionFailed (msg : str).

(** Calls into [NboxRequestClient] / [NboxEntryClient], with their arguments. *)
Inductive client_call : Type :=
| validate_token_call
| get_entry_by_key_call (k : str)
| delete_entry_by_key_call (k : str)
| create_entry_call (k v : str) (s : bool)
| create_entries_call (entries_json : list draft).

Inductive event : Type :=
| ECall (c : client_call)
| EHttp (rq : request) (rs : http_result)
| EEcho (m : message)
| EPrint (t : table)
| EConfirm (answer : option bool)
| ESelect (choices : list str) (answer : option (list str)).

(** How the process ends: the command returned, or an exception left it. *)
Definition exit_code {A : Type} (r : exn + A) : Z :=
  match r with
  | inr _ => 0
  | inl (Exit code) => code
  | inl _ => 1
  end.

(* ================================================================= *)
(** ** The outside world and the command monad *)

(** What the commands run against: the remote Entry Store behind the HTTP
    session, the user at the terminal, the file system, the saved
    configuration, and the two library functions [json.loads] and [str]. *)
(** What [pathlib.Path(path)] finds at a path (lines 346-351). *)
Inductive file_state : Type :=
| NoFile                          (* file.exists() is false *)
| CannotOpen (msg : str)          (* file.open("r") raises OSError *)
| NotText (msg : str)             (* .read() raises UnicodeDecodeError *)
| Content (text : str).           (* what file.open("r").read() returns *)

Record env (World : Type) : Type := Env {
  send : World -> request -> http_result * World;
  confirm_answer : World -> option bool * World;             (* typer.confirm; None: aborted *)
  select_answer : World -> list str -> option (list str) * World;  (* inquirer.prompt *)
  file_at : World -> str -> file_state;                      (* pathlib.Path(path) *)
  absolute : World -> str -> str;                            (* str(Path(path).absolute()) *)
  config_token : option str;                                 (* config.nbox_token *)
  json_loads : str -> decoded;
  py_str : json -> str
}.

(** A command: from the world to a result or an exception, the world
    after, and the events it caused, in order. *)
Definition M (World A : Type) : Type := World -> (exn + A) * World * list event.

Definition ret {World A} (a : A) : M World A := fun w => (inr a, w, []).

Definition raise {World A} (e : exn) : M World A := fun w => (inl e, w, []).

Definition bind {World A B} (m : M World A) (f : A -> M World B) : M World B :=
  fun w =>
    match m w with
    | (inl e, w1, t1) => (inl e, w1, t1)
    | (inr a, w1, t1) =>
        match f a w1 with
        | (r, w2, t2) => (r, w2, t1 ++ t2)
        end
    end.

(** [try: m except Exception as e: h e] *)
Definition try_except {World A} (m : M World A) (h : exn -> M World A) : M World A :=
  fun w =>
    match m w with
    | (inl e, w1, t1) =>
        match h e w1 with
        | (r, w2, t2) => (r, w2, t1 ++ t2)
        end
    | (inr a, w1, t1) => (inr a, w1, t1)
    end.

Definition emit {World} (ev : event) : M World unit := fun w => (inr tt, w, [ev]).

Declare Scope cmd_scope.
Delimit Scope cmd_scope with cmd.
Notation "x <- m ;; k" := (bind m (fun x => k))
  (at level 61, m at next level, right associativity) : cmd_scope.
Notation "m ;; k" := (bind m (fun _ => k))
  (at level 61, right associativity) : cmd_scope.
Open Scope cmd_scope.

Definition echo {World} (m : message) : M World unit := emit (EEcho m).

(** [table.add_row] of rich on the cells [r]: the row is added, or the
    first cell that is neither [None] nor text raises
    [NotRenderableError].  A row whose cells are all text is always taken;
    for those [add_row] is used as it is. *)
Definition table_add_row {World} (t : table) (r : list cell) : M World table :=
  match not_renderable r with
  | Some j => raise (NotRenderableError (type_name j))
  | None => ret (add_row t r)
  end.

Definition result {World A} (x : (exn + A) * World * list event) : exn + A :=
  fst (fst x).
Definition trace {World A} (x : (exn + A) * World * list event) : list event :=
  snd x.

Definition dquote : ascii := ascii_of_N 34.
Definition newline : ascii := ascii_of_N 10.

(* ================================================================= *)
(** ** client.py *)

Section Program.

Context {World : Type}.
Variable E : env World.

Definition C (A : Type) : Type := M World A.

(** One request on the HTTP session. *)
Definition http (rq : request) : C http_result :=
  fun w => match send E w rq with
           | (rs, w') => (inr rs, w', [EHttp rq rs])
           end.

Definition request_failed (status_code : Z) (text : str) : exn :=
  PyException (py "Request failed with status " ++ str_of_Z status_code
               ++ py ": " ++ text).

(** The tail every client method shares: [response.json()] on status 200,
    [raise Exception(..)] otherwise. *)
Definition json_or_raise (rs : http_result) : C json :=
  match rs with
  | ConnectionFailed msg => raise (RequestsError msg)
  | Response status_code text body =>
      if (status_code =? 200)%Z then
        match body with
        | Decoded j => ret j
        | Undecodable msg => raise (JSONDecodeError msg)
        end
      else raise (request_failed status_code text)
  end.

Definition token_present : bool :=
  match config_token E with
  | Some (_ :: _) => true
  | _ => false
  end.

(** [NboxRequestClient()] (lines 10-20) *)
Definition NboxRequestClient : C unit :=
  if token_present then ret tt
  else raise (PyException
                (py "No authentication token found. Please run 'nbox login' first.")).

(** [NboxRequestClient.validate_token] (lines 22-32) *)
Definition validate_token : C json :=
  emit (ECall validate_token_call) ;;
  rs <- http (GET (py "prefix") (py "login")) ;;
  json_or_raise rs.

(** The [entry] property with [NboxEntryClient.__init__] (lines 34-39, 65-69) *)
Definition entry_client : C unit :=
  if token_present then ret tt
  else raise (PyException (py "Cannot use clients without authentication")).

(** [NboxEntryClient.get_entry_by_key] (lines 94-105) *)
Definition get_entry_by_key (k : str) : C json :=
  emit (ECall (get_entry_by_key_call k)) ;;
  rs <- http (GET (py "key") (lstrip_slash k)) ;;
  json_or_raise rs.

(** [NboxEntryClient.delete_entry_by_key] (lines 107-118) *)
Definition delete_entry_by_key (k : str) : C json :=
  emit (ECall (delete_entry_by_key_call k)) ;;
  rs <- http (DELETE (py "key") (lstrip_slash k)) ;;
  json_or_raise rs.

(** [NboxEntryClient.create_entry] (lines 132-148) *)
Definition client_create_entry (k v : str) (s : bool) : C json :=
  emit (ECall (create_entry_call k v s)) ;;
  rs <- http (POST [Draft (lstrip_slash k) (JStr v) (JBool s)]) ;;
  json_or_raise rs.

(** [NboxEntryClient.create_entries] (lines 150-160) *)
Definition client_create_entries (entries_json : list draft) : C json :=
  emit (ECall (create_entries_call entries_json)) ;;
  rs <- http (POST entries_json) ;;
  json_or_raise rs.

(* ================================================================= *)
(** ** cli.py *)

(** [_get_client] (lines 21-34); its callers then take [.entry]. *)
Definition _get_client : C unit :=
  try_except
    (NboxRequestClient ;; validate_token ;; ret tt)
    (fun e =>
       let error_msg := exn_text e in
       if contains (py "401") error_msg && contains (py "expired") (lower error_msg)
       then echo MsgTokenExpired ;; raise (Exit 1)
       else echo (MsgError error_msg) ;; raise (Exit 1)).

(** [typer.confirm("Do you want to proceed?")] *)
Definition confirm : C bool :=
  fun w => match confirm_answer E w with
           | (Some b, w') => (inr b, w', [EConfirm (Some b)])
           | (None, w') => (inl Abort, w', [EConfirm None])
           end.

(** [inquirer.prompt(questions)] with the one checkbox question. *)
Definition prompt (choices : list str) : C (option (list str)) :=
  fun w => match select_answer E w choices with
           | (a, w') => (inr a, w', [ESelect choices a])
           end.

(** Lines 256-259. *)
Definition unquote (v : str) : str :=
  if startswith dquote v && endswith dquote v then slice_1_m1 v
  else if startswith "'" v && endswith "'" v then slice_1_m1 v
  else v.

(** Following the spec's words, for comparison: one layer of matching
    surrounding quotes, a double-quoted or single-quoted value, comes off
    where the value has one; any other value is kept. *)
Definition spec_unquote (v : str) : str :=
  match v with
  | [] => v
  | q :: rest =>
      if Ascii.eqb q dquote || Ascii.eqb q "'" then
        match rev rest with
        | [] => v
        | c :: inner => if Ascii.eqb c q then rev inner else v
        end
      else v
  end.

(** The body of the loop of lines 244-264 on one line: the
    [(env_key, value)] it appends, or [None] where it [continue]s. *)
Definition env_line (line : str) : option (str * str) :=
  let line := strip line in
  match line with
  | [] => None
  | _ :: _ =>
      if startswith "#" line then None
      else match split_once "=" line with
           | None => None
           | Some (k, v) => Some (env_key_normalize k, unquote (strip v))
           end
  end.

Fixpoint env_lines (lines : list str) : list (str * str) :=
  match lines with
  | [] => []
  | line :: rest =>
      match env_line line with
      | Some entry => entry :: env_lines rest
      | None => env_lines rest
      end
  end.

(** Lines 241-264: [entries]. *)
Definition env_entries (content : str) : list (str * str) :=
  env_lines (split newline (strip content)).

(** [k in secure_keys] *)
Definition in_set (k : str) (keys : list str) : bool := existsb (str_eqb k) keys.

(** Lines 280-289: one element of [data]. *)
Definition env_draft (nbox_path : str) (secure_keys : list str) (entry : str * str) : draft :=
  Draft (rstrip_slash nbox_path ++ py "/" ++ fst entry)
        (JStr (snd entry))
        (JBool (in_set (fst entry) secure_keys)).

(** [_parse_env_file] (lines 240-291) *)
Definition _parse_env_file (content nbox_path : str) : C (list draft) :=
  let entries := env_entries content in
  match entries with
  | [] => ret []
  | _ :: _ =>
      answers <- prompt (map fst entries) ;;
      let secure_keys := match answers with
                         | Some selected => selected
                         | None => []
                         end in
      ret (map (env_draft nbox_path secure_keys) entries)
  end.

(** The body of the loop of lines 301-318 on one element. *)
Definition nbox_item (entry : json) : C draft :=
  match entry with
  | JObj fields =>
      match dict_get fields (py "key"), dict_get fields (py "value") with
      | Some k, Some v =>
          let s := dict_get_default fields (py "secure") (JBool false) in
          match k with
          | JStr k => ret (Draft (nbox_key_normalize k) v s)
          | _ => raise (AttributeError (type_name k) (py "lower"))
          end
      | _, _ => echo MsgMissingFields ;; raise (Exit 1)
      end
  | _ => echo MsgUnsupportedJson ;; raise (Exit 1)
  end.

Fixpoint nbox_items (entries_json : list json) : C (list draft) :=
  match entries_json with
  | [] => ret []
  | entry :: rest =>
      d <- nbox_item entry ;;
      ds <- nbox_items rest ;;
      ret (d :: ds)
  end.

(** [_parse_nbox_json] (lines 294-320) *)
Definition _parse_nbox_json (content : str) : C (list draft) :=
  match json_loads E content with
  | Undecodable msg => raise (JSONDecodeError msg)
  | Decoded (JArr entries_json) => nbox_items entries_json
  | Decoded _ => echo MsgUnsupportedJson ;; raise (Exit 1)
  end.

(** Lines 370-375: the key the changeset looks up. *)
Definition lookup_key (draft_key : str) : str :=
  let k := lower draft_key in
  let path_parts := split "/" k in
  let key_name := replace "-" "_" (last path_parts []) in
  join (py "/") (removelast path_parts ++ [key_name]).

(** [old_entry.get("value", "")] for [old_entry = <found> or {}]
    (lines 377 and 381). *)
Definition old_value (found : json) : C json :=
  if truthy found then
    match found with
    | JObj fields => ret (dict_get_default fields (py "value") (JStr []))
    | _ => raise (AttributeError (type_name found) (py "get"))
    end
  else ret (JStr []).

(** The body of the loop of lines 369-384 on one draft, up to the call of
    [add_row]: its Changeset Row. *)
Definition changeset_row (entry : draft) : C (list cell) :=
  let k := lower (key entry) in
  found <- get_entry_by_key (lookup_key (key entry)) ;;
  old <- old_value found ;;
  ret [Text k; Raw old; Text (py_str E (value entry)); Text (py_str E (secure entry))].

Fixpoint changeset_rows (t : table) (data : list draft) : C table :=
  match data with
  | [] => ret t
  | entry :: rest =>
      r <- changeset_row entry ;;
      t <- table_add_row t r ;;
      changeset_rows t rest
  end.

(** The body of the loop of lines 386-392. *)
Definition plain_row (entry : draft) : list cell :=
  [Text (lower (key entry)); Text (py_str E (value entry)); Text (py_str E (secure entry))].

(** Lines 335-342. *)
Definition entries_table (no_changeset : bool) : table :=
  let t := add_column (Table [] []) (py "KEY") in
  let t := if negb no_changeset
           then add_column (add_column t (py "OLD VALUE")) (py "NEW VALUE")
           else add_column t (py "VALUE") in
  add_column t (py "SECURE").

(** Lines 346-364: read the file and parse it. *)
Definition parse_source (source_file : str) (nbox_path : option str) (input_type : str)
  : C (list draft) :=
  fun w =>
    match file_at E w source_file with
    | NoFile => (echo (MsgFileMissing (absolute E w source_file)) ;; raise (Exit 1)) w
    | CannotOpen msg => raise (OSError msg) w
    | NotText msg => raise (UnicodeDecodeError msg) w
    | Content content =>
        (if str_eqb input_type (py "nbox") then _parse_nbox_json content
         else if str_eqb input_type (py "dotenv") then
           match nbox_path with
           | Some (c :: p) => _parse_env_file content (c :: p)
           | _ => echo MsgNoPath ;; raise (Exit 1)
           end
         else echo MsgNoValidInput ;; raise (Exit 1)) w
    end.

(** Lines 366-392: fill the table. *)
Definition build_table (no_changeset : bool) (data : list draft) : C table :=
  if negb no_changeset then changeset_rows (entries_table no_changeset) data
  else ret (fold_left (fun t entry => add_row t (plain_row entry)) data
                      (entries_table no_changeset)).

(** Lines 401-406. *)
Definition apply_entries (data : list draft) : C unit :=
  try_except
    (echo (MsgEntriesCreated (List.length data)) ;;
     client_create_entries data ;;
     ret tt)
    (fun e => echo (MsgError (exn_text e)) ;; raise (Exit 1)).

(** [create_entries] (lines 323-406) *)
Definition create_entries (source_file : str) (nbox_path : option str)
           (input_type : str) (no_changeset : bool) : C unit :=
  _get_client ;;
  entry_client ;;
  data <- parse_source source_file nbox_path input_type ;;
  t <- build_table no_changeset data ;;
  emit (EPrint t) ;;
  proceed <- confirm ;;
  if negb proceed then echo MsgCancelled ;; raise (Exit 0)
  else apply_entries data.

(** [entry.get(k, "")] on the value a lookup returned. *)
Definition entry_get (entry : json) (k : str) : C json :=
  match entry with
  | JObj fields => ret (dict_get_default fields k (JStr []))
  | _ => raise (AttributeError (type_name entry) (py "get"))
  end.

(** [create_entry] (lines 187-237) *)
Definition create_entry (k v : str) (s : bool) : C unit :=
  _get_client ;;
  entry_client ;;
  entry <- try_except (get_entry_by_key k) (fun _ => ret JNull) ;;
  let t := add_column (Table [] []) (py "KEY") in
  let t := if truthy entry
           then add_column (add_column t (py "OLD VALUE")) (py "NEW VALUE")
           else add_column t (py "VALUE") in
  let t := add_column t (py "SECURE") in
  t <- (if truthy entry then
          echo MsgAboutToUpdate ;;
          ek <- entry_get entry (py "key") ;;
          ev <- entry_get entry (py "value") ;;
          table_add_row t [Raw ek; Text (py_str E ev); Text v; Text (py_str E (JBool s))]
        else
          echo MsgAboutToCreate ;;
          ret (add_row t [Text k; Text v; Text (py_str E (JBool s))])) ;;
  emit (EPrint t) ;;
  proceed <- confirm ;;
  if negb proceed then echo MsgCancelled ;; raise (Exit 0)
  else
    try_except
      (NboxRequestClient ;; entry_client ;; client_create_entry k v s ;; ret tt)
      (fun e => echo (MsgError (exn_text e)) ;; raise (Exit 1)) ;;
    echo (MsgEntryCreated k).

(** Lines 450-456 and 458-464. *)
Definition delete_and_report (k : str) : C unit :=
  try_except
    (delete_entry_by_key k ;; ret tt)
    (fun e => echo (MsgError (exn_text e)) ;; raise (Exit 1)) ;;
  echo (MsgEntryRemoved k).

(** [remove_entry] (lines 409-464) *)
Definition remove_entry (k : str) (delete_confirmation : bool) : C unit :=
  try_except
    (NboxRequestClient ;; entry_client)
    (fun e => echo (MsgError (exn_text e)) ;; raise (Exit 1)) ;;
  entry <- try_except
             (get_entry_by_key k)
             (fun e => echo (MsgError (exn_text e)) ;; raise (Exit 1)) ;;
  if negb (truthy entry) then echo MsgNoEntryWithKey ;; raise (Exit 1)
  else if delete_confirmation then
    echo MsgAboutToRemove ;;
    ek <- entry_get entry (py "key") ;;
    ev <- entry_get entry (py "value") ;;
    es <- entry_get entry (py "secure") ;;
    let t := Table [py "KEY"; py "VALUE"; py "SECURE"] [] in
    t <- table_add_row t [Raw ek; Text (py_str E ev); Text (py_str E es)] ;;
    emit (EPrint t) ;;
    proceed <- confirm ;;
    if negb proceed then echo MsgCancelled ;; raise (Exit 0)
    else delete_and_report k
  else delete_and_report k.

End Program.

(* ================================================================= *)
(** ** Reading a run *)

(** Lines 344-364 of [create_entries]: everything up to the parsed drafts. *)
Definition load_drafts {World} (E : env World) (source_file : str)
           (nbox_path : option str) (input_type : str) : M World (list draft) :=
  _get_client E ;; entry_client E ;; parse_source E source_file nbox_path input_type.

Fixpoint pick {A : Type} (f : event -> option A) (t : list event) : list A :=
  match t with
  | [] => []
  | ev :: rest =>
      match f ev with
      | Some a => a :: pick f rest
      | None => pick f rest
      end
  end.

(** The keys [get_entry_by_key] was called with, in order. *)
Definition lookups (t : list event) : list str :=
  pick (fun ev => match ev with
                  | ECall (get_entry_by_key_call k) => Some k
                  | _ => None
                  end) t.

(** The [v] parameters of the GET /entry/key requests sent, in order. *)
Definition key_requests (t : list event) : list str :=
  pick (fun ev => match ev with
                  | EHttp (GET ep v) _ => if str_eqb ep (py "key") then Some v else None
                  | _ => None
                  end) t.

(** The answers to those requests, in order. *)
Definition key_responses (t : list event) : list http_result :=
  pick (fun ev => match ev with
                  | EHttp (GET ep _) rs => if str_eqb ep (py "key") then Some rs else None
                  | _ => None
                  end) t.

(** The bodies of the POST requests sent, in order. *)
Definition posts (t : list event) : list (list draft) :=
  pick (fun ev => match ev with
                  | EHttp (POST body) _ => Some body
                  | _ => None
                  end) t.

(** The lines written with [typer.echo] / [typer.secho], in order. *)
Definition echoes (t : list event) : list message :=
  pick (fun ev => match ev with
                  | EEcho m => Some m
                  | _ => None
                  end) t.

(** The arguments of the calls to the client's batch [create_entries]. *)
Definition batch_calls (t : list event) : list (list draft) :=
  pick (fun ev => match ev with
                  | ECall (create_entries_call body) => Some body
                  | _ => None
                  end) t.

(** A write to the store: a create, batch-create or delete, as a client
    call or as the request it sends. *)
Definition is_write (ev : event) : bool :=
  match ev with
  | EHttp (POST _) _ => true
  | EHttp (DELETE _ _) _ => true
  | ECall (create_entry_call _ _ _) => true
  | ECall (create_entries_call _) => true
  | ECall (delete_entry_by_key_call _) => true
  | _ => false
  end.

Definition is_confirm (ev : event) : bool :=
  match ev with
  | EConfirm _ => true
  | _ => false
  end.

Definition is_select (ev : event) : bool :=
  match ev with
  | ESelect _ _ => true
  | _ => false
  end.

Definition is_lookup (ev : event) : bool :=
  match ev with
  | ECall (get_entry_by_key_call _) => true
  | EHttp (GET ep _) _ => str_eqb ep (py "key")
  | _ => false
  end.

(** The remote entry a GET /entry/key answer carries, if any: status 200
    with a non-empty decoded body. *)
Definition remote_entry (rs : http_result) : option json :=
  match rs with
  | Response status_code _ (Decoded j) =>
      if (status_code =? 200)%Z && truthy j then Some j else None
  | _ => None
  end.

(** A lookup the changeset loop survives: status 200 and a body that is
    empty, or an object whose value is text, null or absent. *)
Definition lookup_ok (rs : http_result) : bool :=
  match rs with
  | Response status_code _ (Decoded j) =>
      (status_code =? 200)%Z &&
      (negb (truthy j)
       || match j with
          | JObj fields =>
              match dict_get fields (py "value") with
              | None | Some JNull | Some (JStr _) => true
              | Some _ => false
              end
          | _ => false
          end)
  | _ => false
  end.

(** The [old_value] cell of a Changeset Row. *)
Definition row_old_value (r : list cell) : option json :=
  match nth_error r 1 with
  | Some (Raw j) => Some j
  | _ => None
  end.

(** The lines the dotenv parser passes over: blank, starting with '#', or
    without '='. *)
Definition blank_line (l : str) : Prop := forallb is_space l = true.
Definition comment_line (l : str) : Prop := startswith "#" l = true.
Definition no_separator (l : str) : Prop := ~ In "="%char l.
Definition ignorable (l : str) : Prop :=
  blank_line l \/ comment_line l \/ no_separator l.

Section RowOfAnswer.

Context {World : Type}.
Variable E : env World.

(** What one step of the changeset loop does, read off the store's answer. *)
Definition row_of (entry : draft) (old : json) : list cell :=
  [Text (lower (key entry)); Raw old;
   Text (py_str E (value entry)); Text (py_str E (secure entry))].

Definition row_result (entry : draft) (rs : http_result) : exn + list cell :=
  match rs with
  | ConnectionFailed msg => inl (RequestsError msg)
  | Response st tx body =>
      if (st =? 200)%Z then
        match body with
        | Undecodable msg => inl (JSONDecodeError msg)
        | Decoded j =>
            if truthy j then
              match j with
              | JObj fields =>
                  inr (row_of entry (dict_get_default fields (py "value") (JStr [])))
              | _ => inl (AttributeError (type_name j) (py "get"))
              end
            else inr (row_of entry (JStr []))
        end
      else inl (request_failed st tx)
  end.

(** The same step with the call of [add_row]: the row added, or the
    exception that ends the loop. *)
Definition row_added (entry : draft) (rs : http_result) : exn + list cell :=
  match row_result entry rs with
  | inl e => inl e
  | inr r =>
      match not_renderable r with
      | Some j => inl (NotRenderableError (type_name j))
      | None => inr r
      end
  end.

End RowOfAnswer.

(** How a run of [create_entries] can end once the table is built
    (RENDER, CONFIRM, then APPLY or CANCELLED), as the events it leaves. *)
Inductive gate_tail (data : list draft) : list event -> Prop :=
| tail_stopped :
    gate_tail data []
| tail_aborted tb :
    gate_tail data [EPrint tb; EConfirm None]
| tail_cancelled tb :
    gate_tail data [EPrint tb; EConfirm (Some false); EEcho MsgCancelled]
| tail_applied tb rs :
    gate_tail data [EPrint tb; EConfirm (Some true);
                    EEcho (MsgEntriesCreated (List.length data));
                    ECall (create_entries_call data); EHttp (POST data) rs]
| tail_failed tb rs text :
    gate_tail data [EPrint tb; EConfirm (Some true);
                    EEcho (MsgEntriesCreated (List.length data));
                    ECall (create_entries_call data); EHttp (POST data) rs;
                    EEcho (MsgError text)].

(** The commands that write to the store. *)
Inductive command : Type :=
| CreateEntries (source_file : str) (nbox_path : option str) (input_type : str)
                (no_changeset : bool)
| CreateEntry (k v : str) (s : bool)
| RemoveEntry (k : str) (delete_confirmation : bool).

Definition run_command {World} (E : env World) (c : command) : M World unit :=
  match c with
  | CreateEntries f p ty nc => create_entries E f p ty nc
  | CreateEntry k v s => create_entry E k v s
  | RemoveEntry k dc => remove_entry E k dc
  end.

(* ================================================================= *)
(** ** A small concrete world, for running the commands *)

Module Demo.

(** The remote store: key to stored entry. *)
Definition world : Type := list (str * json).

Record script : Type := Script {
  missing : http_result;            (* the store's answer for a key it does not hold *)
  post_status : Z;                  (* the status of POST /entry *)
  answer : option bool;             (* what the user answers at the confirmation *)
  selected : option (list str);     (* what the user ticks as secure *)
  files : list (str * str);
  documents : list (str * json);    (* what json.loads makes of a text *)
  token : option str
}.

Fixpoint assoc {A : Type} (k : str) (l : list (str * A)) : option A :=
  match l with
  | [] => None
  | (k', a) :: rest => if str_eqb k' k then Some a else assoc k rest
  end.

Definition entry_json (d : draft) : json :=
  JObj [(py "key", JStr (key d)); (py "value", value d); (py "secure", secure d)].

Definition demo_send (sc : script) (w : world) (rq : request) : http_result * world :=
  match rq with
  | GET ep v =>
      if str_eqb ep (py "key") then
        (match assoc v w with
         | Some j => Response 200 [] (Decoded j)
         | None => missing sc
         end, w)
      else (Response 200 [] (Decoded (JArr (map snd w))), w)
  | DELETE _ v =>
      (Response 200 [] (Decoded JNull),
       filter (fun kv => negb (str_eqb (fst kv) v)) w)
  | POST body =>
      if (post_status sc =? 200)%Z
      then (Response 200 [] (Decoded (JArr (map entry_json body))),
            map (fun d => (key d, entry_json d)) body ++ w)
      else (Response (post_status sc) (py "store unavailable") (Undecodable []), w)
  end.

(** [str] on the values the demo uses. *)
Definition demo_str (j : json) : str :=
  match j with
  | JStr s => s
  | JBool true => py "True"
  | JBool false => py "False"
  | JNull => py "None"
  | JInt n => str_of_Z n
  | _ => py "..."
  end.

Definition demo_env (sc : script) : env world :=
  Env (demo_send sc)
      (fun w => (answer sc, w))
      (fun w _ => (selected sc, w))
      (fun _ path => match assoc path (files sc) with
                     | Some text => Content text
                     | None => NoFile
                     end)
      (fun _ path => if startswith "/" path then path else py "/home/dev/" ++ path)
      (token sc)
      (fun text => match assoc text (documents sc) with
                   | Some j => Decoded j
                   | None => Undecodable (py "Expecting value")
                   end)
      demo_str.


Definition no_content : http_result :=
  Response 200 (py "null") (Decoded JNull).

(** A dotenv file with two variables. *)
Definition env_text : str :=
  py "# database" ++ [newline] ++ py "DB_HOST=" ++ [dquote] ++ py "db.local" ++ [dquote]
  ++ [newline] ++ [newline] ++ py "API_KEY = s3cr3t=" ++ [newline].

(** The same two entries as an nbox JSON document. *)
Definition nbox_text : str := py "[two entries]".
Definition nbox_doc : json :=
  JArr [JObj [(py "key", JStr (py "/App/db-host")); (py "value", JStr (py "db.local"))];
        JObj [(py "key", JStr (py "app/api_key")); (py "value", JStr (py "s3cr3t"));
              (py "secure", JBool true)]].

(** A document whose first element has a number for its key. *)
Definition bad_key_text : str := py "[number key]".
Definition bad_key_doc : json :=
  JArr [JObj [(py "key", JInt 5); (py "value", JStr (py "x"))]].

Definition sc0 : script :=
  Script no_content 200 (Some true) (Some [py "api-key"])
         [(py "app.env", env_text); (py "entries.json", nbox_text);
          (py "bad.json", bad_key_text)]
         [(nbox_text, nbox_doc); (bad_key_text, bad_key_doc)]
         (Some (py "token")).

Definition with_post (st : Z) (sc : script) : script :=
  Script (missing sc) st (answer sc) (selected sc) (files sc) (documents sc) (token sc).
Definition with_answer (a : option bool) (sc : script) : script :=
  Script (missing sc) (post_status sc) a (selected sc) (files sc) (documents sc) (token sc).

(** A store that already holds the host under its underscore name. *)
Definition w0 : world :=
  [(py "app/db_host",
    JObj [(py "key", JStr (py "app/db_host")); (py "value", JStr (py "old.local"));
          (py "secure", JBool false)])].

(** A store whose entry has the empty string for its value. *)
Definition w_empty_value : world :=
  [(py "app/db_host",
    JObj [(py "key", JStr (py "app/db_host")); (py "value", JStr []);
          (py "secure", JBool false)])].

(** The drafts the dotenv file gives under the path [app/]. *)
Definition d_host : draft := Draft (py "app/db-host") (JStr (py "db.local")) (JBool false).
Definition d_api : draft := Draft (py "app/api-key") (JStr (py "s3cr3t=")) (JBool true).

(** The second draft of the nbox document: its underscore is kept. *)
Definition d_api_nbox : draft := Draft (py "app/api_key") (JStr (py "s3cr3t")) (JBool true).

(** A file with nothing to import. *)
Definition idle_text : str :=
  py "# only a comment" ++ [newline] ++ [newline] ++ py "   " ++ [newline] ++ py "NO SEPARATOR".

(** The line [A=] followed by one double quote. *)
Definition lone_quote_text : str := py "A=" ++ [dquote].

(** The line [FOO_BAR="baz"]. *)
Definition foo_bar_text : str := py "FOO_BAR=" ++ [dquote] ++ py "baz" ++ [dquote].

End Demo.

(* ================================================================= *)
(** ** Properties of commands *)

(** Every event the command causes, in every world, satisfies [P]. *)
Definition emits {World A} (P : event -> bool) (m : M World A) : Prop :=
  forall w, forallb P (trace (m w)) = true.

(** No write, no confirmation, no lookup. *)
Definition quiet (ev : event) : bool :=
  negb (is_write ev) && negb (is_confirm ev) && negb (is_lookup ev).

(** No write and no confirmation. *)
Definition calm (ev : event) : bool := negb (is_write ev) && negb (is_confirm ev).

Definition not_write (ev : event) : bool := negb (is_write ev).
Definition not_confirm (ev : event) : bool := negb (is_confirm ev).

(** A command is cancel-safe when a run in which the user answered "no"
    at the confirmation made no write and ended by [typer.Exit(code=0)]. *)
Definition cancel_safe {World A} (m : M World A) : Prop :=
  forall w,
    In (EConfirm (Some false)) (trace (m w)) ->
    forallb not_write (trace (m w)) = true /\ result (m w) = inl (Exit 0).

(* ================================================================= *)
(** ** Further readings of a run *)

(** The requests sent, in order. *)
Definition sent (t : list event) : list request :=
  pick (fun ev => match ev with
                  | EHttp rq _ => Some rq
                  | _ => None
                  end) t.

(** The [v] parameters of the DELETE requests sent, in order. *)
Definition deletes (t : list event) : list str :=
  pick (fun ev => match ev with
                  | EHttp (DELETE _ v) _ => Some v
                  | _ => None
                  end) t.

(** The tables printed with [console.print], in order. *)
Definition printed (t : list event) : list table :=
  pick (fun ev => match ev with
                  | EPrint tb => Some tb
                  | _ => None
                  end) t.

(** The answers given at the confirmation, in order. *)
Definition confirmations (t : list event) : list (option bool) :=
  pick (fun ev => match ev with
                  | EConfirm a => Some a
                  | _ => None
                  end) t.

(** An answer a client method returns on: status 200 with a body that
    decodes. *)
Definition answered_ok (rs : http_result) : bool :=
  match rs with
  | Response status_code _ (Decoded _) => (status_code =? 200)%Z
  | _ => false
  end.

(** A property of the outcome and the events holds of every run. *)
Definition holds {World A} (Q : exn + A -> list event -> Prop) (m : M World A) : Prop :=
  forall w, Q (result (m w)) (trace (m w)).

(** An element of the nbox document and the draft the parser makes of it
    (lines 302-318): an object whose key is a string and that has a value. *)
Definition nbox_accepts (item : json) (d : draft) : Prop :=
  exists fields k,
    item = JObj fields
    /\ dict_get fields (py "key") = Some (JStr k)
    /\ dict_get fields (py "value") = Some (value d)
    /\ key d = nbox_key_normalize k
    /\ secure d = dict_get_default fields (py "secure") (JBool false).

(** An element the parser answers with a message and [typer.Exit(code=1)]
    (lines 302-308). *)
Inductive nbox_rejects : json -> message -> Prop :=
| rejects_non_object j :
    (forall fields, j <> JObj fields) -> nbox_rejects j MsgUnsupportedJson
| rejects_missing_field fields :
    dict_get fields (py "key") = None \/ dict_get fields (py "value") = None ->
    nbox_rejects (JObj fields) MsgMissingFields.

(** The elements of the demo's nbox document. *)
Definition nbox_doc_items : list json :=
  [JObj [(py "key", JStr (py "/App/db-host")); (py "value", JStr (py "db.local"))];
   JObj [(py "key", JStr (py "app/api_key")); (py "value", JStr (py "s3cr3t"));
         (py "secure", JBool true)]].

(** The text of the exception of client.py line 16. *)
Definition no_token_text : str :=
  py "No authentication token found. Please run 'nbox login' first.".

(** The events reading and parsing the source can cause (lines 344-364):
    lines written, the secure-field prompt, the validate call and its
    request. *)
Definition load_event (ev : event) : bool :=
  match ev with
  | EEcho _ => true
  | ESelect _ _ => true
  | ECall validate_token_call => true
  | EHttp (GET ep _) _ => negb (str_eqb ep (py "key"))
  | _ => false
  end.

(** The first cell of a row. *)
Definition first_cell (r : list cell) : cell := hd (Text []) r.

(* ================================================================= *)
(** ** get-entry (cli.py, lines 75-139; client.py, lines 120-130) *)

(** The lines only the read command writes. *)
Inductive read_line : Type :=
| LineFormatUnavailable        (* Error: Format unavailable, only table or json supported *)
| LineNoSecret (k : str)       (* Error: No secret found with key: {key} *)
| LineNoEntry (k : str)        (* Error: No entry found with key: {key} *)
| LineParsedSecret             (* Parsed secret *)
| LineParsedEntry              (* Parsed entry *)
| LineError (text : str).      (* Error: {e} *)

(** What a run of get-entry leaves: events of the kinds above, its own
    lines, the call of [get_secret_by_key], and the JSON it prints. *)
Inductive read_event : Type :=
| RBase (ev : event)
| RSaid (l : read_line)
| RSecretCall (k : str)        (* get_secret_by_key(k) *)
| RJson (j : json).            (* print_json(json.dumps(j)) *)

Definition R (World A : Type) : Type :=
  World -> (exn + A) * World * list read_event.

Definition rret {World A} (a : A) : R World A := fun w => (inr a, w, []).

Definition rraise {World A} (e : exn) : R World A := fun w => (inl e, w, []).

Definition rbind {World A B} (m : R World A) (f : A -> R World B) : R World B :=
  fun w =>
    match m w with
    | (inl e, w1, t1) => (inl e, w1, t1)
    | (inr a, w1, t1) =>
        match f a w1 with
        | (r, w2, t2) => (r, w2, t1 ++ t2)
        end
    end.

(** [try: m except Exception as e: h e] *)
Definition rtry {World A} (m : R World A) (h : exn -> R World A) : R World A :=
  fun w =>
    match m w with
    | (inl e, w1, t1) =>
        match h e w1 with
        | (r, w2, t2) => (r, w2, t1 ++ t2)
        end
    | (inr a, w1, t1) => (inr a, w1, t1)
    end.

Definition remit {World} (ev : read_event) : R World unit := fun w => (inr tt, w, [ev]).

(** A command of the kinds above, run inside the read command. *)
Definition lift {World A} (m : M World A) : R World A :=
  fun w =>
    match m w with
    | (r, w1, t1) => (r, w1, map RBase t1)
    end.

(** [str(e)] for the exception the handler of lines 137-139 catches:
    [typer.Exit(code=1)] is built from a keyword argument, so its [args]
    are empty and its text is the empty string. *)
Definition caught_text (e : exn) : str :=
  match e with
  | Exit _ => []
  | _ => exn_text e
  end.

Section ReadCommand.

Context {World : Type}.
Variable E : env World.

(** [NboxEntryClient.get_secret_by_key] (client.py, lines 120-130): the key
    goes out as it is. *)
Definition get_secret_by_key (k : str) : R World json :=
  rbind (remit (RSecretCall k)) (fun _ =>
  rbind (lift (http E (GET (py "secret-value") k))) (fun rs =>
  lift (json_or_raise rs))).

(** [_get_secret] (lines 75-91) *)
Definition _get_secret (k output_type : str) : R World unit :=
  rbind (get_secret_by_key k) (fun result =>
  if negb (truthy result) then
    rbind (remit (RSaid (LineNoSecret k))) (fun _ => rraise (Exit 1))
  else if str_eqb output_type (py "table") then
    rbind (remit (RSaid LineParsedSecret)) (fun _ =>
    rbind (lift (entry_get result (py "value"))) (fun v =>
    let t := Table [py "KEY"; py "VALUE"] [] in
    remit (RBase (EPrint (add_row t [Text k; Text (py_str E v)])))))
  else if str_eqb output_type (py "json") then remit (RJson result)
  else rret tt).

(** [_get_key] (lines 94-113) *)
Definition _get_key (k output_type : str) : R World unit :=
  rbind (lift (get_entry_by_key E k)) (fun entry =>
  if negb (truthy entry) then
    rbind (remit (RSaid (LineNoEntry k))) (fun _ => rraise (Exit 1))
  else if str_eqb output_type (py "table") then
    rbind (remit (RSaid LineParsedEntry)) (fun _ =>
    rbind (lift (entry_get entry (py "key"))) (fun ek =>
    rbind (lift (entry_get entry (py "value"))) (fun ev =>
    rbind (lift (entry_get entry (py "secure"))) (fun es =>
    let t := Table [py "KEY"; py "VALUE"; py "SECURE"] [] in
    rbind (lift (table_add_row t [Raw ek; Text (py_str E ev);
                                  Text (py_str E es)])) (fun t =>
    remit (RBase (EPrint t)))))))
  else if str_eqb output_type (py "json") then remit (RJson entry)
  else rret tt).

(** [get_entry] (lines 116-139) *)
Definition get_entry (k : str) (decrypt : bool) (output_type : str) : R World unit :=
  if negb (str_eqb output_type (py "table") || str_eqb output_type (py "json")) then
    rbind (remit (RSaid LineFormatUnavailable)) (fun _ => rraise (Exit 1))
  else
    rbind (lift (_get_client E)) (fun _ =>
    rbind (lift (entry_client E)) (fun _ =>
    rtry
      (if decrypt then _get_secret k output_type else _get_key k output_type)
      (fun e =>
         rbind (remit (RSaid (LineError (caught_text e)))) (fun _ =>
         rraise (Exit 1))))).

End ReadCommand.

(** The requests a run of the read command sent, in order. *)
Fixpoint read_sent (t : list read_event) : list request :=
  match t with
  | [] => []
  | RBase (EHttp rq _) :: rest => rq :: read_sent rest
  | _ :: rest => read_sent rest
  end.

(** The lines of its own the read command wrote, in order. *)
Fixpoint read_lines (t : list read_event) : list read_line :=
  match t with
  | [] => []
  | RSaid l :: rest => l :: read_lines rest
  | _ :: rest => read_lines rest
  end.

(** What the read command showed: the tables and the JSON it printed. *)
Fixpoint read_shown (t : list read_event) : list read_event :=
  match t with
  | [] => []
  | RBase (EPrint tb) :: rest => RBase (EPrint tb) :: read_shown rest
  | RJson j :: rest => RJson j :: read_shown rest
  | _ :: rest => read_shown rest
  end.

(** A request that changes nothing in the store. *)
Definition is_get (rq : request) : bool :=
  match rq with
  | GET _ _ => true
  | _ => false
  end.

(** Nothing asked of the user. *)
Definition no_question (ev : read_event) : bool :=
  match ev with
  | RBase (EConfirm _) => false
  | RBase (ESelect _ _) => false
  | _ => true
  end.

(** A line written to the terminal. *)
Definition is_line (ev : read_event) : bool :=
  match ev with
  | RSaid _ => true
  | RBase (EEcho _) => true
  | _ => false
  end.

(* ================================================================= *)
(** ** Facts about the text operations *)

Section TextFacts.

Ltac each_char c :=
  destruct c as [[] [] [] [] [] [] [] []]; reflexivity.

Lemma lower_char_idem c : lower_char (lower_char c) = lower_char c.
Proof. each_char c. Qed.

Lemma lower_char_space c : is_space (lower_char c) = is_space c.
Proof. each_char c. Qed.

Lemma lower_char_slash c : is_slash (lower_char c) = is_slash c.
Proof. each_char c. Qed.

Lemma env_char_idem c :
  replace_char "_" "-" (lower_char (replace_char "_" "-" (lower_char c)))
  = replace_char "_" "-" (lower_char c).
Proof. each_char c. Qed.

Lemma env_char_space c :
  is_space (replace_char "_" "-" (lower_char c)) = is_space c.
Proof. each_char c. Qed.

Variable p : ascii -> bool.

Lemma lstrip_by_idem s : lstrip_by p (lstrip_by p s) = lstrip_by p s.
Proof.
  induction s as [|c t IH]; simpl; [reflexivity|].
  destruct (p c) eqn:E; [exact IH|]. simpl. now rewrite E.
Qed.

Lemma lstrip_by_map (f : ascii -> ascii) s :
  (forall c, p (f c) = p c) ->
  lstrip_by p (map f s) = map f (lstrip_by p s).
Proof.
  intros Hf. induction s as [|c t IH]; simpl; [reflexivity|].
  rewrite Hf. destruct (p c); [exact IH|reflexivity].
Qed.

Lemma rstrip_by_map (f : ascii -> ascii) s :
  (forall c, p (f c) = p c) ->
  rstrip_by p (map f s) = map f (rstrip_by p s).
Proof.
  intros Hf. unfold rstrip_by.
  now rewrite <- map_rev, lstrip_by_map, map_rev.
Qed.

Lemma rstrip_by_idem s : rstrip_by p (rstrip_by p s) = rstrip_by p s.
Proof.
  unfold rstrip_by. now rewrite rev_involutive, lstrip_by_idem.
Qed.

(** What is left of [lstrip] is empty or starts with a kept character. *)
Lemma lstrip_by_head s :
  lstrip_by p s = [] \/
  exists c t, lstrip_by p s = c :: t /\ p c = false.
Proof.
  induction s as [|c t IH]; simpl; [now left|].
  destruct (p c) eqn:E; [exact IH|]. right. now exists c, t.
Qed.

Lemma lstrip_by_snoc_keep s c :
  p c = false -> lstrip_by p (s ++ [c]) = lstrip_by p s ++ [c].
Proof.
  intros Hc. induction s as [|a t IH]; simpl.
  - now rewrite Hc.
  - destruct (p a); [exact IH|reflexivity].
Qed.

Lemma rstrip_by_cons_keep c t :
  p c = false -> rstrip_by p (c :: t) = c :: rstrip_by p t.
Proof.
  intros Hc. unfold rstrip_by. simpl.
  rewrite lstrip_by_snoc_keep by exact Hc.
  now rewrite rev_app_distr.
Qed.

Lemma rstrip_by_nil : rstrip_by p [] = [].
Proof. reflexivity. Qed.

Lemma lstrip_rstrip_lstrip s :
  lstrip_by p (rstrip_by p (lstrip_by p s)) = rstrip_by p (lstrip_by p s).
Proof.
  destruct (lstrip_by_head s) as [E | (c & t & E & Hc)]; rewrite E.
  - reflexivity.
  - rewrite rstrip_by_cons_keep by exact Hc. simpl. now rewrite Hc.
Qed.

End TextFacts.

Lemma strip_idem s : strip (strip s) = strip s.
Proof.
  unfold strip. now rewrite lstrip_rstrip_lstrip, rstrip_by_idem.
Qed.

Lemma strip_map (f : ascii -> ascii) s :
  (forall c, is_space (f c) = is_space c) ->
  strip (map f s) = map f (strip s).
Proof.
  intros Hf. unfold strip.
  now rewrite lstrip_by_map, rstrip_by_map.
Qed.

Lemma env_key_normalize_map k :
  env_key_normalize k
  = map (fun c => replace_char "_" "-" (lower_char c)) (strip k).
Proof. unfold env_key_normalize, replace, lower. now rewrite map_map. Qed.

(* ================================================================= *)
(** ** Facts about text of any code points *)

Module UnicodeFacts.

Import Unicode.

Local Open Scope N_scope.

Lemma assoc_in c l t : assoc c l = Some t -> In (c, t) l.
Proof.
  induction l as [|[c' t'] l IH]; simpl; [discriminate|].
  destruct (c' =? c) eqn:E.
  - intros H. injection H as <-. apply N.eqb_eq in E. subst c'. now left.
  - intros H. right. now apply IH.
Qed.

(** A property of the code points the lowercase table knows and of their
    images, checked on the whole table. *)
Lemma lower_table_check (P : N * N -> bool) c t :
  forallb P lower_table = true -> assoc c lower_table = Some t -> P (c, t) = true.
Proof.
  intros H Ha. apply assoc_in in Ha.
  rewrite forallb_forall in H. now apply H.
Qed.

Lemma lower_table_fixed : forallb (fun p => fixed (snd p)) lower_table = true.
Proof. vm_compute. reflexivity. Qed.

Lemma lower_table_space :
  forallb (fun p => negb (is_space (fst p)) && negb (is_space (snd p))) lower_table = true.
Proof. vm_compute. reflexivity. Qed.

Lemma lower_table_slash :
  forallb (fun p => negb (is_slash (fst p)) && negb (is_slash (snd p))) lower_table = true.
Proof. vm_compute. reflexivity. Qed.

(** [str.lower] on one code point, case by case. *)
Lemma lower_code_cases before c after :
  (c = 931 /\ (lower_code before c after = [962] \/ lower_code before c after = [963]))
  \/ (c = 304 /\ lower_code before c after = [105; 775])
  \/ (c <> 931 /\ c <> 304 /\ exists t,
        assoc c lower_table = Some t /\ lower_code before c after = [t])
  \/ (c <> 931 /\ c <> 304
      /\ assoc c lower_table = None /\ lower_code before c after = [c]).
Proof.
  unfold lower_code.
  destruct (c =? 931) eqn:E1.
  { apply N.eqb_eq in E1. left. split; [exact E1|].
    destruct (final_sigma before after); [now left|now right]. }
  apply N.eqb_neq in E1. unfold lower_full.
  destruct (c =? 304) eqn:E2.
  { apply N.eqb_eq in E2. right. left. now split. }
  apply N.eqb_neq in E2. unfold lower_simple.
  destruct (assoc c lower_table) as [t|] eqn:Ea.
  - right. right. left. repeat split; try assumption. now exists t.
  - right. right. right. now repeat split.
Qed.

Lemma fixed_unknown c :
  c <> 931 -> c <> 304 -> assoc c lower_table = None -> fixed c = true.
Proof.
  intros H1 H2 Ha. unfold fixed, lower_full, lower_simple.
  apply N.eqb_neq in H1, H2. rewrite H1, H2, Ha. cbn [negb andb]. apply N.eqb_refl.
Qed.

(** What [str.lower] writes, it leaves as it is. *)
Lemma lower_code_fixed before c after :
  forallb fixed (lower_code before c after) = true.
Proof.
  destruct (lower_code_cases before c after)
    as [(_ & [-> | ->]) | [(_ & ->) | [(_ & _ & t & Ha & ->) | (H1 & H2 & Ha & ->)]]];
    try (vm_compute; reflexivity).
  - pose proof (@lower_table_check _ _ _ lower_table_fixed Ha) as H. cbn [snd] in H.
    cbn [forallb]. now rewrite H.
  - cbn [forallb]. now rewrite fixed_unknown.
Qed.

Lemma lower_code_of_fixed before c after :
  fixed c = true -> lower_code before c after = [c].
Proof.
  unfold fixed, lower_code. intros H. apply andb_prop in H as [H1 H2].
  apply negb_true_iff in H1. rewrite H1.
  destruct (lower_full c) as [|x [|y l]]; try discriminate.
  apply N.eqb_eq in H2. now subst x.
Qed.

Lemma lower_from_out s : forall before, forallb fixed (lower_from before s) = true.
Proof.
  induction s as [|c rest IH]; intros before; simpl; [reflexivity|].
  now rewrite forallb_app, lower_code_fixed, IH.
Qed.

Lemma lower_from_fixed s :
  forall before, forallb fixed s = true -> lower_from before s = s.
Proof.
  induction s as [|c rest IH]; intros before; simpl; [reflexivity|].
  intros H. apply andb_prop in H as [Hc Hr].
  now rewrite (@lower_code_of_fixed before c rest Hc), IH.
Qed.

Lemma lower_fixed s : forallb fixed (lower s) = true.
Proof. apply lower_from_out. Qed.

Lemma lower_of_fixed s : forallb fixed s = true -> lower s = s.
Proof. apply lower_from_fixed. Qed.

Lemma u_lower_idem s : lower (lower s) = lower s.
Proof. apply lower_of_fixed, lower_fixed. Qed.

(** [str.lower] writes at least one code point for each it reads, white
    space for white space and '/' for '/' only. *)
Lemma lower_code_not_nil before c after : lower_code before c after <> [].
Proof.
  destruct (lower_code_cases before c after)
    as [(_ & [-> | ->]) | [(_ & ->) | [(_ & _ & t & _ & ->) | (_ & _ & _ & ->)]]];
    discriminate.
Qed.

Lemma lower_code_space before c after x :
  In x (lower_code before c after) -> is_space x = is_space c.
Proof.
  destruct (lower_code_cases before c after)
    as [(-> & [-> | ->]) | [(-> & ->) | [(_ & _ & t & Ha & ->) | (_ & _ & _ & ->)]]];
    cbn [In]; intros Hx.
  - destruct Hx as [<-|[]]. reflexivity.
  - destruct Hx as [<-|[]]. reflexivity.
  - destruct Hx as [<-|[<-|[]]]; reflexivity.
  - destruct Hx as [<-|[]].
    pose proof (@lower_table_check _ _ _ lower_table_space Ha) as H. cbn [fst snd] in H.
    apply andb_prop in H as [H1 H2]. apply negb_true_iff in H1, H2. congruence.
  - destruct Hx as [<-|[]]. reflexivity.
Qed.

Lemma lower_code_slash before c after x :
  In x (lower_code before c after) -> is_slash c = false -> is_slash x = false.
Proof.
  destruct (lower_code_cases before c after)
    as [(-> & [-> | ->]) | [(-> & ->) | [(_ & _ & t & Ha & ->) | (_ & _ & _ & ->)]]];
    cbn [In]; intros Hx Hc.
  - destruct Hx as [<-|[]]. reflexivity.
  - destruct Hx as [<-|[]]. reflexivity.
  - destruct Hx as [<-|[<-|[]]]; reflexivity.
  - destruct Hx as [<-|[]].
    pose proof (@lower_table_check _ _ _ lower_table_slash Ha) as H. cbn [fst snd] in H.
    apply andb_prop in H as [_ H2]. now apply negb_true_iff in H2.
  - destruct Hx as [<-|[]]. exact Hc.
Qed.

Lemma lower_from_not_nil s before : s <> [] -> lower_from before s <> [].
Proof.
  destruct s as [|c rest]; [congruence|]. intros _. simpl.
  pose proof (lower_code_not_nil before c rest) as H.
  destruct (lower_code before c rest); [congruence|discriminate].
Qed.

Section Strips.

Variable p : N -> bool.

Lemma lstrip_by_kept s : first_kept p s = true -> lstrip_by p s = s.
Proof.
  destruct s as [|c t]; simpl; [reflexivity|].
  intros H. apply negb_true_iff in H. now rewrite H.
Qed.

Lemma lstrip_by_first s : first_kept p (lstrip_by p s) = true.
Proof.
  induction s as [|c t IH]; simpl; [reflexivity|].
  destruct (p c) eqn:E; [exact IH|]. simpl. now rewrite E.
Qed.

Lemma u_lstrip_by_snoc_keep s c :
  p c = false -> lstrip_by p (s ++ [c]) = lstrip_by p s ++ [c].
Proof.
  intros Hc. induction s as [|a t IH]; simpl.
  - now rewrite Hc.
  - destruct (p a); [exact IH|reflexivity].
Qed.

Lemma u_rstrip_by_cons_keep c t :
  p c = false -> rstrip_by p (c :: t) = c :: rstrip_by p t.
Proof.
  intros Hc. unfold rstrip_by. simpl.
  rewrite u_lstrip_by_snoc_keep by exact Hc.
  now rewrite rev_app_distr.
Qed.

Lemma rstrip_by_first s : first_kept p s = true -> first_kept p (rstrip_by p s) = true.
Proof.
  destruct s as [|c t]; [reflexivity|]. simpl. intros H.
  apply negb_true_iff in H. rewrite u_rstrip_by_cons_keep by exact H.
  simpl. now rewrite H.
Qed.

Lemma rstrip_by_last s : first_kept p (rev (rstrip_by p s)) = true.
Proof.
  unfold rstrip_by. rewrite rev_involutive. apply lstrip_by_first.
Qed.

Lemma rstrip_by_kept s : first_kept p (rev s) = true -> rstrip_by p s = s.
Proof.
  intros H. unfold rstrip_by. rewrite lstrip_by_kept by exact H.
  apply rev_involutive.
Qed.

Lemma u_lstrip_by_map (f : N -> N) s :
  (forall c, p (f c) = p c) -> lstrip_by p (map f s) = map f (lstrip_by p s).
Proof.
  intros Hf. induction s as [|c t IH]; simpl; [reflexivity|].
  rewrite Hf. destruct (p c); [exact IH|reflexivity].
Qed.

Lemma u_rstrip_by_map (f : N -> N) s :
  (forall c, p (f c) = p c) -> rstrip_by p (map f s) = map f (rstrip_by p s).
Proof.
  intros Hf. unfold rstrip_by.
  now rewrite <- map_rev, u_lstrip_by_map, map_rev.
Qed.

(** The last code point is kept when all of the last piece are. *)
Lemma first_kept_rev_app a x :
  x <> [] -> first_kept p (rev (a ++ x)) = first_kept p (rev x).
Proof.
  intros Hx. rewrite rev_app_distr.
  destruct (rev x) as [|c t] eqn:E; [|reflexivity].
  apply (f_equal (@rev N)) in E. rewrite rev_involutive in E. now subst x.
Qed.

Lemma first_kept_rev_all x :
  (forall c, In c x -> p c = false) -> first_kept p (rev x) = true.
Proof.
  intros H. destruct (rev x) as [|c t] eqn:E; [reflexivity|]. simpl.
  apply negb_true_iff, H, in_rev. rewrite E. now left.
Qed.

End Strips.

(** A text is stripped when neither end is white space. *)
Lemma strip_kept s :
  first_kept is_space s = true -> first_kept is_space (rev s) = true -> strip s = s.
Proof.
  intros H1 H2. unfold strip. rewrite lstrip_by_kept by exact H1.
  now apply rstrip_by_kept.
Qed.

Lemma strip_ends s :
  first_kept is_space (strip s) = true /\ first_kept is_space (rev (strip s)) = true.
Proof.
  unfold strip. split.
  - apply rstrip_by_first, lstrip_by_first.
  - apply rstrip_by_last.
Qed.

Lemma u_strip_idem s : strip (strip s) = strip s.
Proof. destruct (strip_ends s). now apply strip_kept. Qed.

Lemma u_strip_map (f : N -> N) s :
  (forall c, is_space (f c) = is_space c) -> strip (map f s) = map f (strip s).
Proof.
  intros Hf. unfold strip. now rewrite u_lstrip_by_map, u_rstrip_by_map.
Qed.

(** [str.lower] keeps the ends of a text free of the code points [p]
    leaves alone. *)
Lemma lower_from_first (p : N -> bool) s before :
  (forall b c a x, In x (lower_code b c a) -> p c = false -> p x = false) ->
  first_kept p s = true -> first_kept p (lower_from before s) = true.
Proof.
  intros Hp. destruct s as [|c rest]; [reflexivity|]. simpl. intros H.
  apply negb_true_iff in H.
  pose proof (lower_code_not_nil before c rest) as Hn.
  pose proof (fun x Hx => Hp before c rest x Hx H) as Hx.
  destruct (lower_code before c rest) as [|x l]; [congruence|].
  simpl. apply negb_true_iff, Hx. now left.
Qed.

Lemma lower_from_last (p : N -> bool) s :
  (forall b c a x, In x (lower_code b c a) -> p c = false -> p x = false) ->
  forall before,
    first_kept p (rev s) = true -> first_kept p (rev (lower_from before s)) = true.
Proof.
  intros Hp. induction s as [|c rest IH]; intros before; [reflexivity|].
  intros H. cbn [lower_from].
  destruct rest as [|d rest'].
  - cbn [lower_from]. rewrite app_nil_r. simpl in H. apply negb_true_iff in H.
    apply first_kept_rev_all. intros x Hx. now apply (Hp before c [] x).
  - rewrite first_kept_rev_app by (apply lower_from_not_nil; discriminate).
    apply IH.
    change (c :: d :: rest') with ([c] ++ d :: rest') in H.
    rewrite first_kept_rev_app in H by discriminate. exact H.
Qed.

Lemma lower_space_kept b c a x :
  In x (lower_code b c a) -> is_space c = false -> is_space x = false.
Proof. intros Hx Hc. now rewrite (@lower_code_space b c a x Hx). Qed.

Lemma strip_lower s : strip s = s -> strip (lower s) = lower s.
Proof.
  intros Hs. destruct (strip_ends s) as [H1 H2]. rewrite Hs in H1, H2.
  apply strip_kept.
  - apply lower_from_first; [exact lower_space_kept|exact H1].
  - apply lower_from_last; [exact lower_space_kept|exact H2].
Qed.

(** The dotenv key transform gives a text in normal form: no '_', and
    nothing for [lower], [strip] or the replacement to change. *)
Lemma replace_char_space c : is_space (replace_char 95 45 c) = is_space c.
Proof.
  unfold replace_char. destruct (c =? 95) eqn:E; [|reflexivity].
  apply N.eqb_eq in E. now subst c.
Qed.

Lemma replace_fixed a b s :
  fixed b = true -> forallb fixed s = true -> forallb fixed (replace a b s) = true.
Proof.
  intros Hb. induction s as [|c t IH]; simpl; [reflexivity|].
  intros H. apply andb_prop in H as [Hc Ht]. rewrite (IH Ht), andb_true_r.
  unfold replace_char. now destruct (c =? a).
Qed.

Lemma replace_gone a b s : a <> b -> ~ In a (replace a b s).
Proof.
  intros Hab Hin. apply in_map_iff in Hin as (c & Hc & _).
  unfold replace_char in Hc. destruct (c =? a) eqn:E; [congruence|].
  apply N.eqb_neq in E. congruence.
Qed.

Lemma replace_absent a b s : ~ In a s -> replace a b s = s.
Proof.
  induction s as [|c t IH]; simpl; [reflexivity|]. intros H.
  unfold replace_char at 1. destruct (c =? a) eqn:E.
  - apply N.eqb_eq in E. subst c. tauto.
  - f_equal. apply IH. tauto.
Qed.

Lemma env_key_normal k :
  let n := env_key_normalize k in
  ~ In 95 n /\ lower n = n /\ strip n = n /\ replace 95 45 n = n.
Proof.
  cbv zeta. unfold env_key_normalize.
  assert (Hu : ~ In 95 (replace 95 45 (lower (strip k)))) by now apply replace_gone.
  split; [exact Hu|]. split; [|split].
  - apply lower_of_fixed, replace_fixed; [reflexivity|apply lower_fixed].
  - unfold replace. rewrite u_strip_map by apply replace_char_space.
    f_equal. apply strip_lower, u_strip_idem.
  - now apply replace_absent.
Qed.

Lemma env_key_normalize_idem k :
  env_key_normalize (env_key_normalize k) = env_key_normalize k.
Proof.
  destruct (env_key_normal k) as (_ & Hl & Hs & Hr). cbv zeta in *.
  unfold env_key_normalize at 1. now rewrite Hs, Hl, Hr.
Qed.

Lemma u_nbox_key_normal k :
  let n := nbox_key_normalize k in
  lower n = n /\ lstrip_slash n = n.
Proof.
  cbv zeta. unfold nbox_key_normalize. split; [apply u_lower_idem|].
  apply lstrip_by_kept, lower_from_first; [|apply lstrip_by_first].
  intros b c a x. apply lower_code_slash.
Qed.

Lemma nbox_key_normalize_idem k :
  nbox_key_normalize (nbox_key_normalize k) = nbox_key_normalize k.
Proof.
  destruct (u_nbox_key_normal k) as (Hl & Hs). cbv zeta in *.
  unfold nbox_key_normalize at 1. now rewrite Hs, Hl.
Qed.


(** [split] and [join], and the lookup key. *)
Lemma u_split_not_nil sep s : split sep s <> [].
Proof.
  destruct s as [|c t]; simpl; [discriminate|].
  destruct (c =? sep); [discriminate|].
  destruct (split sep t); discriminate.
Qed.

Lemma u_split_no_sep sep s : ~ In sep s -> split sep s = [s].
Proof.
  induction s as [|c t IH]; simpl; [reflexivity|].
  intros H. destruct (c =? sep) eqn:E.
  - apply N.eqb_eq in E. subst c. tauto.
  - rewrite IH by tauto. reflexivity.
Qed.

Lemma u_split_app_sep sep a b :
  split sep (a ++ sep :: b) = split sep a ++ split sep b.
Proof.
  induction a as [|c t IH]; simpl.
  - now rewrite N.eqb_refl.
  - destruct (c =? sep); rewrite IH; [reflexivity|].
    destruct (split sep t) eqn:E; [now apply u_split_not_nil in E|reflexivity].
Qed.

Lemma u_join_cons sep x l :
  l <> [] -> join sep (x :: l) = x ++ sep ++ join sep l.
Proof. destruct l; [congruence|reflexivity]. Qed.

Lemma u_join_app sep l1 l2 :
  l1 <> [] -> l2 <> [] ->
  join sep (l1 ++ l2) = join sep l1 ++ sep ++ join sep l2.
Proof.
  intros H1 H2. induction l1 as [|x l1 IH]; [congruence|].
  destruct l1 as [|y l1].
  - simpl app. now rewrite u_join_cons.
  - change ((x :: y :: l1) ++ l2) with (x :: ((y :: l1) ++ l2)).
    rewrite u_join_cons by discriminate.
    rewrite IH by discriminate.
    rewrite (@u_join_cons sep x (y :: l1)) by discriminate.
    now rewrite <- !app_assoc.
Qed.

Lemma u_join_split sep s : join [sep] (split sep s) = s.
Proof.
  induction s as [|c t IH]; simpl; [reflexivity|].
  destruct (c =? sep) eqn:E.
  - apply N.eqb_eq in E. subst c.
    pose proof (@u_split_not_nil sep t) as Hn.
    destruct (split sep t) eqn:Es; [congruence|].
    simpl in *. now rewrite IH.
  - pose proof (@u_split_not_nil sep t) as Hn.
    destruct (split sep t) as [|h r] eqn:Es; [congruence|].
    destruct r; simpl in *; now rewrite <- IH.
Qed.


Lemma last_replaced_leaf s : ~ In 47 s -> last_replaced s = replace 45 95 s.
Proof.
  intros H. unfold last_replaced. now rewrite u_split_no_sep.
Qed.

Lemma last_replaced_path prefix leaf :
  ~ In 47 leaf ->
  last_replaced (prefix ++ 47 :: leaf) = prefix ++ 47 :: replace 45 95 leaf.
Proof.
  intros H. unfold last_replaced.
  rewrite u_split_app_sep, (@u_split_no_sep 47 leaf) by exact H.
  rewrite last_last, removelast_last.
  rewrite u_join_app; [|apply u_split_not_nil|discriminate].
  now rewrite u_join_split.
Qed.







(** '/' is neither cased nor case-ignorable, so [str.lower] works on each
    side of a '/' as if the other side were not there. *)
Lemma slash_not_ignorable : case_ignorable 47 = false.
Proof. vm_compute. reflexivity. Qed.

Lemma slash_not_cased : cased 47 = false.
Proof. vm_compute. reflexivity. Qed.

Lemma lower_code_of_slash before after : lower_code before 47 after = [47].
Proof. vm_compute. reflexivity. Qed.

Lemma cased_next_slash x y : cased_next (x ++ 47 :: y) = cased_next x.
Proof.
  unfold cased_next. induction x as [|c x IH]; cbn [app skip_ignorable].
  - rewrite slash_not_ignorable. exact slash_not_cased.
  - destruct (case_ignorable c); [exact IH|reflexivity].
Qed.

Lemma lower_code_after before c x y :
  lower_code before c (x ++ 47 :: y) = lower_code before c x.
Proof. unfold lower_code, final_sigma. now rewrite cased_next_slash. Qed.

Lemma lower_code_before x y c after :
  lower_code (x ++ 47 :: y) c after = lower_code x c after.
Proof. unfold lower_code, final_sigma. now rewrite cased_next_slash. Qed.

Lemma lower_from_before l : forall x y, lower_from (x ++ 47 :: y) l = lower_from x l.
Proof.
  induction l as [|c l IH]; intros x y; cbn [lower_from]; [reflexivity|].
  rewrite lower_code_before. f_equal. exact (IH (c :: x) y).
Qed.

Lemma lower_from_slash p : forall before l,
  lower_from before (p ++ 47 :: l) = lower_from before p ++ 47 :: lower_from [] l.
Proof.
  induction p as [|c p IH]; intros before l; cbn [app lower_from].
  - rewrite lower_code_of_slash. cbn [app]. f_equal.
    exact (lower_from_before l [] before).
  - rewrite lower_code_after, IH. now rewrite <- app_assoc.
Qed.

Lemma lower_slash p l : lower (p ++ 47 :: l) = lower p ++ 47 :: lower l.
Proof. apply lower_from_slash. Qed.

Lemma lower_from_in l : forall before x,
  In x (lower_from before l) ->
  exists b c a, In c l /\ In x (lower_code b c a).
Proof.
  induction l as [|c l IH]; intros before x; cbn [lower_from]; [intros []|].
  intros H. apply in_app_or in H as [H|H].
  - exists before, c, l. split; [now left|exact H].
  - destruct (IH _ _ H) as (b & c' & a & Hc & Hx).
    exists b, c', a. split; [now right|exact Hx].
Qed.

Lemma lower_keeps_no_slash l : ~ In 47 l -> ~ In 47 (lower l).
Proof.
  intros H Hin. apply lower_from_in in Hin as (b & c & a & Hc & Hx).
  assert (Hs : is_slash c = false).
  { unfold is_slash. apply N.eqb_neq. intros ->. contradiction. }
  pose proof (@lower_code_slash b c a 47 Hx Hs) as H47. discriminate.
Qed.

(** The lookup key of a key without '/', and of [prefix/leaf]. *)
Lemma lookup_key_of_leaf leaf :
  ~ In 47 leaf -> lookup_key leaf = replace 45 95 (lower leaf).
Proof.
  intros H. change (lookup_key leaf) with (last_replaced (lower leaf)).
  apply last_replaced_leaf. now apply lower_keeps_no_slash.
Qed.

Lemma lookup_key_of_path prefix leaf :
  ~ In 47 leaf ->
  lookup_key (prefix ++ 47 :: leaf) = lower prefix ++ 47 :: replace 45 95 (lower leaf).
Proof.
  intros H. change (lookup_key (prefix ++ 47 :: leaf))
    with (last_replaced (lower (prefix ++ 47 :: leaf))).
  rewrite lower_slash. apply last_replaced_path. now apply lower_keeps_no_slash.
Qed.

End UnicodeFacts.

(** On 8-bit text the operations are those of [Text]. *)
Lemma of_text_space c : Unicode.is_space (N_of_ascii c) = is_space c.
Proof. destruct c as [[] [] [] [] [] [] [] []]; vm_compute; reflexivity. Qed.

Lemma of_text_lower_code before c after :
  Unicode.lower_code before (N_of_ascii c) after = [N_of_ascii (lower_char c)].
Proof. destruct c as [[] [] [] [] [] [] [] []]; vm_compute; reflexivity. Qed.

Lemma of_text_eqb a c : N.eqb (N_of_ascii c) (N_of_ascii a) = Ascii.eqb c a.
Proof.
  destruct (Ascii.eqb c a) eqn:E.
  - apply Ascii.eqb_eq in E. subst c. apply N.eqb_refl.
  - apply N.eqb_neq. intros H. apply Ascii.eqb_neq in E. apply E.
    apply (f_equal ascii_of_N) in H. now rewrite !ascii_N_embedding in H.
Qed.

Lemma of_text_lower s : Unicode.lower (Unicode.of_text s) = Unicode.of_text (lower s).
Proof.
  unfold Unicode.lower. generalize (@nil N).
  induction s as [|c t IH]; intros before; simpl; [reflexivity|].
  now rewrite of_text_lower_code, IH.
Qed.

Lemma of_text_lstrip (p : N -> bool) (q : ascii -> bool) s :
  (forall c, p (N_of_ascii c) = q c) ->
  Unicode.lstrip_by p (Unicode.of_text s) = Unicode.of_text (lstrip_by q s).
Proof.
  intros H. induction s as [|c t IH]; simpl; [reflexivity|].
  rewrite H. destruct (q c); [exact IH|reflexivity].
Qed.

Lemma of_text_rstrip (p : N -> bool) (q : ascii -> bool) s :
  (forall c, p (N_of_ascii c) = q c) ->
  Unicode.rstrip_by p (Unicode.of_text s) = Unicode.of_text (rstrip_by q s).
Proof.
  intros H. unfold Unicode.rstrip_by, rstrip_by, Unicode.of_text.
  now rewrite <- map_rev, (@of_text_lstrip p q _ H), map_rev.
Qed.

Lemma of_text_strip s : Unicode.strip (Unicode.of_text s) = Unicode.of_text (strip s).
Proof.
  unfold Unicode.strip, strip.
  now rewrite (@of_text_lstrip _ _ _ of_text_space), (@of_text_rstrip _ _ _ of_text_space).
Qed.

Lemma of_text_replace a b s :
  Unicode.replace (N_of_ascii a) (N_of_ascii b) (Unicode.of_text s)
  = Unicode.of_text (replace a b s).
Proof.
  unfold Unicode.replace, replace, Unicode.of_text. rewrite !map_map. apply map_ext.
  intros c. unfold Unicode.replace_char, replace_char. rewrite of_text_eqb.
  now destruct (Ascii.eqb c a).
Qed.

Lemma of_text_env_key k :
  Unicode.env_key_normalize (Unicode.of_text k) = Unicode.of_text (env_key_normalize k).
Proof.
  unfold Unicode.env_key_normalize, env_key_normalize.
  rewrite of_text_strip, of_text_lower.
  exact (of_text_replace "_" "-" _).
Qed.

Lemma of_text_nbox_key k :
  Unicode.nbox_key_normalize (Unicode.of_text k) = Unicode.of_text (nbox_key_normalize k).
Proof.
  unfold Unicode.nbox_key_normalize, nbox_key_normalize, Unicode.lstrip_slash, lstrip_slash.
  rewrite (@of_text_lstrip Unicode.is_slash is_slash).
  - apply of_text_lower.
  - intros c. exact (of_text_eqb "/" c).
Qed.

(** C3. Key normalisation is idempotent for both parsers, on every key
    whatever its code points: the dotenv transform (strip, lowercase, '_'
    to '-') applied twice equals it applied once, and so does the
    structured-list transform (strip leading '/', lowercase).  On 8-bit
    keys the transforms are those the parsers of this file use, and these
    are idempotent as well. *)
Theorem C3_key_normalization_idempotent :
  (forall k : Unicode.str,
     Unicode.env_key_normalize (Unicode.env_key_normalize k)
     = Unicode.env_key_normalize k)
  /\ (forall k : Unicode.str,
        Unicode.nbox_key_normalize (Unicode.nbox_key_normalize k)
        = Unicode.nbox_key_normalize k)
  /\ (forall k : str,
        Unicode.env_key_normalize (Unicode.of_text k)
        = Unicode.of_text (env_key_normalize k)
        /\ Unicode.nbox_key_normalize (Unicode.of_text k)
           = Unicode.of_text (nbox_key_normalize k))
  /\ (forall k : str, env_key_normalize (env_key_normalize k) = env_key_normalize k)
  /\ (forall k : str, nbox_key_normalize (nbox_key_normalize k) = nbox_key_normalize k).
Proof.
  split; [exact UnicodeFacts.env_key_normalize_idem|].
  split; [exact UnicodeFacts.nbox_key_normalize_idem|].
  split.
  { intros k. split;
      [apply of_text_env_key|apply of_text_nbox_key]. }
  split; intros k.
  - rewrite !env_key_normalize_map.
    rewrite strip_map by apply env_char_space.
    rewrite strip_idem, map_map.
    apply map_ext. intros c. apply env_char_idem.
  - unfold nbox_key_normalize, lower, lstrip_slash.
    rewrite lstrip_by_map by apply lower_char_slash.
    rewrite lstrip_by_idem, map_map.
    apply map_ext. intros c. apply lower_char_idem.
Qed.

(* ================================================================= *)
(** ** Whitespace and [strip] *)

Section StripFacts.

Variable p : ascii -> bool.

Lemma forallb_rev (s : str) : forallb p (rev s) = forallb p s.
Proof.
  induction s as [|c t IH]; simpl; [reflexivity|].
  rewrite forallb_app, IH. simpl. rewrite andb_true_r. apply andb_comm.
Qed.

Lemma lstrip_by_all s : forallb p s = true -> lstrip_by p s = [].
Proof.
  induction s as [|c t IH]; simpl; [reflexivity|].
  intros H. apply andb_prop in H as [Hc Ht]. rewrite Hc. auto.
Qed.

Lemma lstrip_by_app_all w x :
  forallb p w = true -> lstrip_by p (w ++ x) = lstrip_by p x.
Proof.
  induction w as [|c t IH]; simpl; [reflexivity|].
  intros H. apply andb_prop in H as [Hc Ht]. rewrite Hc. auto.
Qed.

Lemma rstrip_by_app_all x w :
  forallb p w = true -> rstrip_by p (x ++ w) = rstrip_by p x.
Proof.
  intros H. unfold rstrip_by. rewrite rev_app_distr.
  rewrite lstrip_by_app_all; [reflexivity|]. now rewrite forallb_rev.
Qed.

Lemma rstrip_by_all s : forallb p s = true -> rstrip_by p s = [].
Proof.
  intros H. unfold rstrip_by. rewrite lstrip_by_all; [reflexivity|].
  now rewrite forallb_rev.
Qed.

Lemma lstrip_by_app_keep x c t u :
  lstrip_by p x = c :: t -> lstrip_by p (x ++ u) = (c :: t) ++ u.
Proof.
  induction x as [|a x IH]; simpl; [discriminate|].
  destruct (p a); [exact IH|]. intros H. inversion H. reflexivity.
Qed.

Lemma lstrip_by_incl s x : In x (lstrip_by p s) -> In x s.
Proof.
  induction s as [|c t IH]; simpl; [tauto|].
  destruct (p c); [auto|]. simpl. tauto.
Qed.

Lemma rstrip_by_incl s x : In x (rstrip_by p s) -> In x s.
Proof.
  unfold rstrip_by. intros H. apply in_rev in H.
  apply lstrip_by_incl in H. now apply in_rev.
Qed.

End StripFacts.

Lemma strip_all l : forallb is_space l = true -> strip l = [].
Proof.
  intros H. unfold strip. now rewrite lstrip_by_all.
Qed.

Lemma strip_cons_space a l : is_space a = true -> strip (a :: l) = strip l.
Proof. intros H. unfold strip. simpl. now rewrite H. Qed.

Lemma strip_app_space l u : forallb is_space u = true -> strip (l ++ u) = strip l.
Proof.
  intros Hu. unfold strip.
  destruct (lstrip_by_head is_space l) as [E | (c & t & E & _)].
  - rewrite E. destruct (lstrip_by is_space (l ++ u)) eqn:E2; [reflexivity|].
    exfalso.
    assert (Hin : In a (lstrip_by is_space (l ++ u))) by (rewrite E2; now left).
    clear E2.
    revert E Hin. induction l as [|x l IH]; simpl.
    + intros _. rewrite lstrip_by_all by exact Hu. tauto.
    + destruct (is_space x); [exact IH|discriminate].
  - rewrite (lstrip_by_app_keep _ _ _ E), E. now apply rstrip_by_app_all.
Qed.

Lemma strip_incl l x : In x (strip l) -> In x l.
Proof.
  unfold strip. intros H. apply rstrip_by_incl in H. now apply lstrip_by_incl in H.
Qed.

Lemma strip_keeps_first c t :
  is_space c = false -> exists t', strip (c :: t) = c :: t'.
Proof.
  intros Hc. unfold strip. simpl. rewrite Hc.
  rewrite rstrip_by_cons_keep by exact Hc. eauto.
Qed.

(* ================================================================= *)
(** ** [split], [split_once], [join] *)

Lemma eqb_ascii_false (a b : ascii) : a <> b -> Ascii.eqb a b = false.
Proof. intros H. now apply Ascii.eqb_neq. Qed.

Lemma split_not_nil sep s : split sep s <> [].
Proof.
  destruct s as [|c t]; simpl; [discriminate|].
  destruct (Ascii.eqb c sep); [discriminate|].
  destruct (split sep t); discriminate.
Qed.

Lemma split_no_sep sep s : ~ In sep s -> split sep s = [s].
Proof.
  induction s as [|c t IH]; simpl; [reflexivity|].
  intros H. rewrite eqb_ascii_false by (intros ->; apply H; now left).
  rewrite IH by tauto. reflexivity.
Qed.

Lemma split_app_sep sep a b :
  split sep (a ++ sep :: b) = split sep a ++ split sep b.
Proof.
  induction a as [|c t IH]; simpl.
  - now rewrite Ascii.eqb_refl.
  - destruct (Ascii.eqb c sep); rewrite IH; [reflexivity|].
    destruct (split sep t) eqn:E; [now apply split_not_nil in E|reflexivity].
Qed.

Lemma join_cons sep x l :
  l <> [] -> join sep (x :: l) = x ++ sep ++ join sep l.
Proof. destruct l; [congruence|reflexivity]. Qed.

Lemma join_app sep l1 l2 :
  l1 <> [] -> l2 <> [] ->
  join sep (l1 ++ l2) = join sep l1 ++ sep ++ join sep l2.
Proof.
  intros H1 H2. induction l1 as [|x l1 IH]; [congruence|].
  destruct l1 as [|y l1].
  - simpl app. now rewrite join_cons.
  - change ((x :: y :: l1) ++ l2) with (x :: ((y :: l1) ++ l2)).
    rewrite join_cons by discriminate.
    rewrite IH by discriminate.
    rewrite (@join_cons sep x (y :: l1)) by discriminate.
    now rewrite <- !app_assoc.
Qed.

Lemma join_split sep s : join [sep] (split sep s) = s.
Proof.
  induction s as [|c t IH]; simpl; [reflexivity|].
  destruct (Ascii.eqb c sep) eqn:E.
  - apply Ascii.eqb_eq in E. subst c.
    pose proof (@split_not_nil sep t) as Hn.
    destruct (split sep t) eqn:Es; [congruence|].
    simpl in *. now rewrite IH.
  - pose proof (@split_not_nil sep t) as Hn.
    destruct (split sep t) as [|h r] eqn:Es; [congruence|].
    destruct r; simpl in *; now rewrite <- IH.
Qed.

Lemma split_once_none sep s : ~ In sep s -> split_once sep s = None.
Proof.
  induction s as [|c t IH]; simpl; [reflexivity|].
  intros H. rewrite eqb_ascii_false by (intros ->; apply H; now left).
  rewrite IH by tauto. reflexivity.
Qed.

Lemma split_once_first sep a b :
  ~ In sep a -> split_once sep (a ++ sep :: b) = Some (a, b).
Proof.
  induction a as [|c t IH]; simpl.
  - now rewrite Ascii.eqb_refl.
  - intros H. rewrite eqb_ascii_false by (intros ->; apply H; now left).
    rewrite IH by tauto. reflexivity.
Qed.

Lemma lower_app a b : lower (a ++ b) = lower a ++ lower b.
Proof. apply map_app. Qed.

Lemma lower_no_slash s : ~ In "/"%char s -> ~ In "/"%char (lower s).
Proof.
  intros H Hin. apply in_map_iff in Hin as (c & Hc & Hin).
  pose proof (lower_char_slash c) as Hs. unfold is_slash in Hs.
  rewrite Hc, Ascii.eqb_refl in Hs. symmetry in Hs.
  apply Ascii.eqb_eq in Hs. subst c. contradiction.
Qed.

(** The lookup key of a key without '/': the whole key is the last segment. *)
Lemma lookup_key_leaf s :
  ~ In "/"%char s -> lookup_key s = replace "-" "_" (lower s).
Proof.
  intros H. unfold lookup_key.
  rewrite split_no_sep by now apply lower_no_slash.
  reflexivity.
Qed.

(** The lookup key of [prefix/leaf]: the prefix lowercased and otherwise
    unchanged, the leaf lowercased with '-' replaced by '_'. *)
Lemma lookup_key_path prefix leaf :
  ~ In "/"%char leaf ->
  lookup_key (prefix ++ py "/" ++ leaf)
  = lower prefix ++ py "/" ++ replace "-" "_" (lower leaf).
Proof.
  intros H. unfold lookup_key.
  rewrite !lower_app. change (lower (py "/")) with (py "/").
  change (py "/" ++ lower leaf) with ("/"%char :: lower leaf).
  rewrite split_app_sep.
  rewrite (@split_no_sep "/" (lower leaf)) by now apply lower_no_slash.
  rewrite last_last, removelast_last.
  rewrite join_app; [|apply split_not_nil|discriminate].
  change (py "/") with ["/"%char].
  now rewrite join_split.
Qed.

(* ================================================================= *)
(** ** The dotenv parser, line by line *)

Section StripDecomposition.

Variable p : ascii -> bool.

Lemma lstrip_by_decomp s :
  exists w, s = w ++ lstrip_by p s /\ forallb p w = true.
Proof.
  induction s as [|c t (w & Hw & Hp)]; simpl.
  - now exists [].
  - destruct (p c) eqn:E.
    + exists (c :: w). simpl. rewrite E, Hp. split; [now f_equal|reflexivity].
    + now exists [].
Qed.

Lemma rstrip_by_decomp s :
  exists w, s = rstrip_by p s ++ w /\ forallb p w = true.
Proof.
  destruct (lstrip_by_decomp (rev s)) as (w & Hw & Hp).
  exists (rev w). split.
  - unfold rstrip_by. rewrite <- rev_app_distr, <- Hw. now rewrite rev_involutive.
  - now rewrite forallb_rev.
Qed.

Lemma lstrip_by_app_stop a c b :
  p c = false -> lstrip_by p (a ++ c :: b) = lstrip_by p a ++ c :: b.
Proof.
  intros Hc. induction a as [|x a IH]; simpl.
  - now rewrite Hc.
  - destruct (p x); [exact IH|reflexivity].
Qed.

Lemma rstrip_by_app_stop a c b :
  p c = false -> rstrip_by p (a ++ c :: b) = a ++ c :: rstrip_by p b.
Proof.
  intros Hc. unfold rstrip_by.
  rewrite rev_app_distr. simpl rev. rewrite <- app_assoc. simpl app.
  rewrite lstrip_by_app_stop by exact Hc.
  rewrite rev_app_distr. simpl rev. rewrite rev_involutive, <- app_assoc.
  reflexivity.
Qed.

End StripDecomposition.

Lemma env_line_strip l l' : strip l = strip l' -> env_line l = env_line l'.
Proof. unfold env_line. now intros ->. Qed.

Lemma env_line_blank l : forallb is_space l = true -> env_line l = None.
Proof. intros H. unfold env_line. now rewrite strip_all. Qed.

Lemma newline_is_space : is_space newline = true.
Proof. reflexivity. Qed.

(** Splitting whitespace into lines gives blank lines only. *)
Lemma split_blank w :
  forallb is_space w = true ->
  exists h r, split newline w = h :: r
              /\ forallb is_space h = true /\ env_lines r = [].
Proof.
  induction w as [|a w IH]; simpl.
  - intros _. now exists [], [].
  - intros H. apply andb_prop in H as [Ha Hw].
    destruct (IH Hw) as (h & r & Es & Hh & Hr). rewrite Es.
    destruct (Ascii.eqb a newline).
    + exists [], (h :: r). repeat split. simpl.
      now rewrite env_line_blank.
    + exists (a :: h), r. repeat split; [|exact Hr]. simpl. now rewrite Ha, Hh.
Qed.

(** Whitespace appended to a text only pads its last line and adds blank
    lines. *)
Lemma split_app_blank x u :
  forallb is_space u = true ->
  exists h1 r1 h2 r2 v,
    split newline (x ++ u) = h1 :: r1 /\ split newline x = h2 :: r2
    /\ h1 = h2 ++ v /\ forallb is_space v = true
    /\ env_lines r1 = env_lines r2.
Proof.
  intros Hu. induction x as [|a x IH].
  - destruct (split_blank u Hu) as (h & r & Es & Hh & Hr).
    exists h, r, [], [], h. simpl. repeat split; assumption.
  - destruct IH as (h1 & r1 & h2 & r2 & v & E1 & E2 & Hh & Hv & Hr).
    simpl. rewrite E1, E2. destruct (Ascii.eqb a newline).
    + exists [], (h1 :: r1), [], (h2 :: r2), []. repeat split.
      simpl. rewrite Hr.
      rewrite (@env_line_strip h1 h2); [reflexivity|].
      subst h1. now apply strip_app_space.
    + exists (a :: h1), r1, (a :: h2), r2, v. repeat split; try assumption.
      now subst h1.
Qed.

Lemma env_lines_app_blank x u :
  forallb is_space u = true ->
  env_lines (split newline (x ++ u)) = env_lines (split newline x).
Proof.
  intros Hu.
  destruct (split_app_blank x u Hu)
    as (h1 & r1 & h2 & r2 & v & E1 & E2 & Hh & Hv & Hr).
  rewrite E1, E2. simpl. rewrite Hr.
  rewrite (@env_line_strip h1 h2); [reflexivity|].
  subst h1. now apply strip_app_space.
Qed.

Lemma env_lines_blank_app w x :
  forallb is_space w = true ->
  env_lines (split newline (w ++ x)) = env_lines (split newline x).
Proof.
  induction w as [|a w IH]; simpl; [reflexivity|].
  intros H. apply andb_prop in H as [Ha Hw]. specialize (IH Hw).
  destruct (Ascii.eqb a newline).
  - simpl. exact IH.
  - pose proof (@split_not_nil newline (w ++ x)) as Hn.
    destruct (split newline (w ++ x)) as [|h r]; [congruence|].
    rewrite <- IH. simpl.
    now rewrite (@env_line_strip (a :: h) h) by now apply strip_cons_space.
Qed.

(** Line 241's [content.strip()] changes nothing: the entries are those of
    the lines of the text as it is. *)
Lemma env_entries_lines content :
  env_entries content = env_lines (split newline content).
Proof.
  unfold env_entries, strip.
  destruct (lstrip_by_decomp is_space content) as (w1 & H1 & Hw1).
  destruct (rstrip_by_decomp is_space (lstrip_by is_space content)) as (w2 & H2 & Hw2).
  rewrite H1 at 2. rewrite env_lines_blank_app by exact Hw1.
  rewrite H2 at 2. now rewrite env_lines_app_blank.
Qed.

Lemma env_lines_app a b : env_lines (a ++ b) = env_lines a ++ env_lines b.
Proof.
  induction a as [|l a IH]; simpl; [reflexivity|].
  destruct (env_line l); simpl; now rewrite IH.
Qed.

(** The parser works line by line: the entries of [a], newline, [b] are
    those of [a] followed by those of [b]. *)
Lemma env_entries_newline a b :
  env_entries (a ++ newline :: b) = env_entries a ++ env_entries b.
Proof.
  rewrite !env_entries_lines, split_app_sep. apply env_lines_app.
Qed.

Lemma env_line_ignorable l : ignorable l -> env_line l = None.
Proof.
  intros [H | [H | H]].
  - now apply env_line_blank.
  - unfold comment_line in H. destruct l as [|c t]; [discriminate|].
    simpl in H. apply Ascii.eqb_eq in H. subst c.
    destruct (@strip_keeps_first "#" t eq_refl) as (t' & E).
    unfold env_line. rewrite E. reflexivity.
  - unfold env_line. destruct (strip l) as [|c t] eqn:E; [reflexivity|].
    destruct (startswith "#" (c :: t)); [reflexivity|].
    rewrite split_once_none; [reflexivity|].
    intros Hin. apply H. apply strip_incl. now rewrite E.
Qed.

Lemma env_lines_ignorable lines : Forall ignorable lines -> env_lines lines = [].
Proof.
  induction 1 as [|l lines Hl _ IH]; simpl; [reflexivity|].
  now rewrite env_line_ignorable.
Qed.

(** A line [name=value]: split at the first '=', the name normalised, the
    value stripped and unquoted. *)
Lemma env_line_assignment name v :
  ~ In "="%char name ->
  startswith "#" (lstrip_by is_space name ++ py "=") = false ->
  env_line (name ++ "="%char :: v)
  = Some (env_key_normalize name, unquote (strip v)).
Proof.
  intros Hname Hcomment. unfold env_line.
  assert (Es : strip (name ++ "="%char :: v)
               = lstrip_by is_space name ++ "="%char :: rstrip_by is_space v).
  { unfold strip. rewrite lstrip_by_app_stop by reflexivity.
    now rewrite rstrip_by_app_stop by reflexivity. }
  rewrite Es.
  destruct (lstrip_by is_space name ++ "="%char :: rstrip_by is_space v)
    as [|c t] eqn:El.
  { destruct (lstrip_by is_space name); discriminate. }
  assert (Hc : startswith "#" (c :: t) = false).
  { rewrite <- El. destruct (lstrip_by is_space name); [reflexivity|exact Hcomment]. }
  rewrite Hc, <- El.
  rewrite split_once_first
    by (intros Hin; apply Hname; now apply lstrip_by_incl in Hin).
  f_equal. f_equal.
  - unfold env_key_normalize, strip. now rewrite lstrip_by_idem.
  - f_equal. destruct (rstrip_by_decomp is_space v) as (u & Hu & Hpu).
    rewrite Hu at 2. now rewrite strip_app_space.
Qed.

Lemma slice_1_m1_mid q inner c : slice_1_m1 (q :: inner ++ [c]) = inner.
Proof.
  unfold slice_1_m1. simpl skipn. simpl List.length.
  rewrite length_app. simpl.
  replace (List.length inner + 1 - 1) with (List.length inner) by lia.
  rewrite firstn_app, firstn_all, Nat.sub_diag. simpl. apply app_nil_r.
Qed.

(** Lines 256-259 do what the spec's words say on every value but the two
    that are one quote character alone. *)
Lemma unquote_refines v :
  v <> [dquote] -> v <> ["'"%char] -> unquote v = spec_unquote v.
Proof.
  destruct v as [|q rest]; [reflexivity|]. intros Hd Hs.
  unfold unquote, spec_unquote, endswith, startswith.
  destruct (rev rest) as [|c inner] eqn:Er.
  - apply (f_equal (@rev ascii)) in Er. rewrite rev_involutive in Er.
    simpl in Er. subst rest. simpl rev.
    destruct (Ascii.eqb q dquote) eqn:E1.
    { apply Ascii.eqb_eq in E1. now subst q. }
    destruct (Ascii.eqb q "'") eqn:E2.
    { apply Ascii.eqb_eq in E2. now subst q. }
    reflexivity.
  - apply (f_equal (@rev ascii)) in Er. rewrite rev_involutive in Er.
    simpl in Er. subst rest. simpl rev. rewrite rev_app_distr.
    rewrite rev_involutive. simpl app.
    rewrite slice_1_m1_mid.
    destruct (Ascii.eqb q dquote) eqn:E1.
    + apply Ascii.eqb_eq in E1. subst q. simpl orb.
      destruct (Ascii.eqb c dquote) eqn:E3; [reflexivity|].
      simpl andb. cbv iota. reflexivity.
    + simpl andb. simpl orb. destruct (Ascii.eqb q "'") eqn:E2; [|reflexivity].
      apply Ascii.eqb_eq in E2. subst q.
      destruct (Ascii.eqb c "'"); reflexivity.
Qed.

(** One layer of surrounding quotes comes off. *)
Lemma unquote_quoted q inner :
  q = dquote \/ q = "'"%char -> unquote (q :: inner ++ [q]) = inner.
Proof.
  pose proof (slice_1_m1_mid q inner q) as Hs.
  assert (He : endswith q (q :: inner ++ [q]) = true).
  { unfold endswith.
    change (q :: inner ++ [q]) with ((q :: inner) ++ [q]).
    rewrite rev_app_distr. simpl. apply Ascii.eqb_refl. }
  intros [-> | ->]; unfold unquote; rewrite He; unfold startswith.
  - rewrite Ascii.eqb_refl. exact Hs.
  - change (Ascii.eqb "'" dquote) with false. cbn [andb].
    rewrite Ascii.eqb_refl. exact Hs.
Qed.

(** A value that does not start and end with the same quote is kept. *)
Lemma unquote_plain v :
  startswith dquote v && endswith dquote v = false ->
  startswith "'" v && endswith "'" v = false ->
  unquote v = v.
Proof. intros H1 H2. unfold unquote. now rewrite H1, H2. Qed.

(* ================================================================= *)
(** ** Runs of commands *)

Lemma pick_app {A} (f : event -> option A) t1 t2 :
  pick f (t1 ++ t2) = pick f t1 ++ pick f t2.
Proof.
  induction t1 as [|ev t1 IH]; simpl; [reflexivity|].
  destruct (f ev); simpl; now rewrite IH.
Qed.

Lemma pick_none {A} (f : event -> option A) (P : event -> bool) t :
  (forall ev, P ev = true -> f ev = None) ->
  forallb P t = true -> pick f t = [].
Proof.
  intros Hf. induction t as [|ev t IH]; simpl; [reflexivity|].
  intros H. apply andb_prop in H as [Hev Ht]. now rewrite (Hf _ Hev), IH.
Qed.

Lemma forallb_weaken (P Q : event -> bool) t :
  (forall ev, P ev = true -> Q ev = true) ->
  forallb P t = true -> forallb Q t = true.
Proof.
  intros H. rewrite !forallb_forall. auto.
Qed.

Lemma forallb_not_in (P : event -> bool) t ev :
  forallb P t = true -> P ev = false -> ~ In ev t.
Proof.
  intros H Hev Hin. rewrite forallb_forall in H.
  specialize (H _ Hin). congruence.
Qed.

Section EmitsFacts.

Context {World : Type}.
Variable E : env World.

Section Emits.

Variable P : event -> bool.

Lemma emits_ret A (a : A) : emits P (@ret World A a).
Proof. intros w. reflexivity. Qed.

Lemma emits_raise A e : emits P (@raise World A e).
Proof. intros w. reflexivity. Qed.

Lemma emits_emit ev : P ev = true -> emits P (@emit World ev).
Proof. intros H w. simpl. now rewrite H. Qed.

Lemma emits_bind A B (m : M World A) (f : A -> M World B) :
  emits P m -> (forall a, emits P (f a)) -> emits P (bind m f).
Proof.
  intros Hm Hf w. unfold bind. specialize (Hm w).
  destruct (m w) as [[[e|a] w1] t1]; [exact Hm|].
  specialize (Hf a w1). destruct (f a w1) as [[r w2] t2].
  unfold trace in *. simpl in *. rewrite forallb_app. now rewrite Hm, Hf.
Qed.

Lemma emits_try A (m : M World A) (h : exn -> M World A) :
  emits P m -> (forall e, emits P (h e)) -> emits P (try_except m h).
Proof.
  intros Hm Hh w. unfold try_except. specialize (Hm w).
  destruct (m w) as [[[e|a] w1] t1]; [|exact Hm].
  specialize (Hh e w1). destruct (h e w1) as [[r w2] t2].
  unfold trace in *. simpl in *. rewrite forallb_app. now rewrite Hm, Hh.
Qed.

Lemma emits_http rq : (forall rs, P (EHttp rq rs) = true) -> emits P (http E rq).
Proof.
  intros H w. unfold http. destruct (send E w rq) as [rs w'].
  unfold trace. simpl. now rewrite H.
Qed.

Lemma emits_json_or_raise rs : emits P (@json_or_raise World rs).
Proof.
  intros w. unfold json_or_raise.
  destruct rs as [st tx [j|msg]|msg]; try reflexivity;
    destruct (st =? 200)%Z; reflexivity.
Qed.

Lemma emits_table_add_row t r : emits P (@table_add_row World t r).
Proof.
  intros w. unfold table_add_row. now destruct (not_renderable r).
Qed.

Lemma emits_confirm : (forall a, P (EConfirm a) = true) -> emits P (confirm E).
Proof.
  intros H w. unfold confirm. destruct (confirm_answer E w) as [[b|] w'];
    unfold trace; simpl; now rewrite H.
Qed.

Lemma emits_prompt choices :
  (forall a, P (ESelect choices a) = true) -> emits P (prompt E choices).
Proof.
  intros H w. unfold prompt. destruct (select_answer E w choices) as [a w'].
  unfold trace. simpl. now rewrite H.
Qed.

End Emits.

End EmitsFacts.

Ltac emits_step :=
  match goal with
  | |- emits _ (bind _ _) => apply emits_bind; [|intros ?]
  | |- emits _ (try_except _ _) => apply emits_try; [|intros ?]
  | |- emits _ (ret _) => apply emits_ret
  | |- emits _ (raise _) => apply emits_raise
  | |- emits _ (emit _) => apply emits_emit; reflexivity
  | |- emits _ (echo _) => apply emits_emit; reflexivity
  | |- emits _ (http _ _) => apply emits_http; intros ?; reflexivity
  | |- emits _ (json_or_raise _) => apply emits_json_or_raise
  | |- emits _ (table_add_row _ _) => apply emits_table_add_row
  | |- emits _ (prompt _ _) => apply emits_prompt; intros ?; reflexivity
  | |- emits _ (confirm _) => apply emits_confirm; intros ?; reflexivity
  | |- emits _ (if ?b then _ else _) => destruct b
  | |- emits _ (match ?x with _ => _ end) => destruct x
  end.

Ltac emits_auto := repeat emits_step.

Ltac as_emits :=
  match goal with
  | |- forallb ?P (trace (?m ?w)) = true => refine ((_ : emits P m) w)
  end.

Section ParseFacts.

Context {World : Type}.
Variable E : env World.

Lemma _get_client_quiet : emits quiet (_get_client E).
Proof.
  unfold _get_client, NboxRequestClient, validate_token. emits_auto.
Qed.

Lemma entry_client_quiet : emits quiet (entry_client E).
Proof. unfold entry_client. emits_auto. Qed.

Lemma nbox_items_quiet items : emits quiet (@nbox_items World items).
Proof.
  induction items as [|entry rest IH]; simpl.
  - emits_auto.
  - apply emits_bind; [unfold nbox_item; emits_auto|intros d].
    apply emits_bind; [exact IH|intros ds]. emits_auto.
Qed.

Lemma parse_source_quiet f p ty : emits quiet (parse_source E f p ty).
Proof.
  intros w. unfold parse_source.
  destruct (file_at E w f) as [|msg|msg|content]; [reflexivity..|].
  destruct (str_eqb ty (py "nbox")).
  - unfold _parse_nbox_json.
    destruct (json_loads E content) as [[| | | | |items|]|msg];
      try (as_emits; emits_auto; fail).
    apply nbox_items_quiet.
  - destruct (str_eqb ty (py "dotenv")); [|reflexivity].
    destruct p as [[|c p]|]; try reflexivity.
    unfold _parse_env_file. as_emits. emits_auto.
Qed.

Lemma load_drafts_quiet f p ty : emits quiet (load_drafts E f p ty).
Proof.
  unfold load_drafts.
  apply emits_bind; [apply _get_client_quiet|intros _].
  apply emits_bind; [apply entry_client_quiet|intros _].
  apply parse_source_quiet.
Qed.

End ParseFacts.

Section ImportFacts.

Context {World : Type}.
Variable E : env World.

Lemma changeset_row_run entry w :
  let k := lookup_key (key entry) in
  let rq := GET (py "key") (lstrip_slash k) in
  changeset_row E entry w
  = (row_result E entry (fst (send E w rq)), snd (send E w rq),
     [ECall (get_entry_by_key_call k); EHttp rq (fst (send E w rq))]).
Proof.
  intros k rq. unfold changeset_row, get_entry_by_key, bind, emit, http.
  fold k. fold rq. destruct (send E w rq) as [rs w']. simpl fst. simpl snd.
  destruct rs as [st tx [j|msg]|msg]; simpl; try reflexivity.
  - destruct (st =? 200)%Z; simpl; [|reflexivity].
    unfold old_value. destruct (truthy j) eqn:Ej; [|reflexivity].
    destruct j; reflexivity.
  - destruct (st =? 200)%Z; reflexivity.
Qed.

Lemma row_added_ok entry rs :
  lookup_ok rs = true <-> exists r, row_added E entry rs = inr r.
Proof.
  unfold lookup_ok, row_added, row_result, row_of.
  destruct rs as [st tx [j|msg]|msg]; simpl.
  - destruct (st =? 200)%Z; simpl.
    + destruct (truthy j); simpl.
      * destruct j as [| | | | | |fields];
          try (split; [discriminate|intros [r H]; discriminate]).
        unfold dict_get_default.
        destruct (dict_get fields _) as [[]|]; simpl;
          (split; [intros H|intros [r H]]); try discriminate; eauto.
      * split; eauto.
    + split; [discriminate|intros [r H]; discriminate].
  - split; [discriminate|].
    intros [r H]. destruct (st =? 200)%Z; discriminate.
  - split; [discriminate|intros [r H]; discriminate].
Qed.

(** One turn of the changeset loop. *)
Lemma changeset_rows_cons entry rest t w :
  let k := lookup_key (key entry) in
  let rq := GET (py "key") (lstrip_slash k) in
  let rs := fst (send E w rq) in
  let w' := snd (send E w rq) in
  changeset_rows E t (entry :: rest) w
  = match row_added E entry rs with
    | inl e => (inl e, w', [ECall (get_entry_by_key_call k); EHttp rq rs])
    | inr r =>
        (fst (fst (changeset_rows E (add_row t r) rest w')),
         snd (fst (changeset_rows E (add_row t r) rest w')),
         ECall (get_entry_by_key_call k) :: EHttp rq rs
         :: snd (changeset_rows E (add_row t r) rest w'))
    end.
Proof.
  intros k rq rs w'. cbn [changeset_rows]. unfold bind at 1.
  rewrite changeset_row_run. fold k. fold rq. fold rs. fold w'.
  unfold row_added. destruct (row_result E entry rs) as [e|r]; [reflexivity|].
  unfold bind, table_add_row.
  destruct (not_renderable r) as [j|]; [reflexivity|]. cbn [ret app].
  destruct (changeset_rows E (add_row t r) rest w') as [[res w2] t2]. reflexivity.
Qed.

(** The changeset loop: it looks the drafts up in order, one call and one
    request each, and stops at the first lookup it does not survive. *)
Lemma changeset_rows_run data :
  forall t w,
    let x := changeset_rows E t data w in
    exists n,
      n <= List.length data
      /\ lookups (trace x) = map lookup_key (map key (firstn n data))
      /\ key_requests (trace x) = map lstrip_slash (lookups (trace x))
      /\ forallb calm (trace x) = true
      /\ ((exists tb, result x = inr tb) -> n = List.length data)
      /\ (forallb lookup_ok (key_responses (trace x)) = true ->
          exists tb, result x = inr tb).
Proof.
  induction data as [|entry rest IH]; intros t w.
  - exists 0. simpl. repeat split; eauto. intros _. now exists t.
  - cbv zeta. rewrite changeset_rows_cons.
    set (k := lookup_key (key entry)).
    set (rq := GET (py "key") (lstrip_slash k)).
    destruct (send E w rq) as [rs w'] eqn:Es. cbn [fst snd].
    assert (L : forall t2, lookups (ECall (get_entry_by_key_call k) :: EHttp rq rs :: t2)
                           = k :: lookups t2) by reflexivity.
    assert (K : forall t2, key_requests (ECall (get_entry_by_key_call k) :: EHttp rq rs :: t2)
                           = lstrip_slash k :: key_requests t2) by reflexivity.
    assert (R : forall t2, key_responses (ECall (get_entry_by_key_call k) :: EHttp rq rs :: t2)
                           = rs :: key_responses t2) by reflexivity.
    assert (Q : forall t2, forallb calm (ECall (get_entry_by_key_call k) :: EHttp rq rs :: t2)
                           = forallb calm t2) by reflexivity.
    destruct (row_added E entry rs) as [e|r] eqn:Er.
    + exists 1. unfold trace, result. cbn [fst snd List.length]. rewrite L, K, R, Q.
      repeat split; try lia; try reflexivity.
      * intros [tb H]. discriminate.
      * cbn [forallb]. intros H. apply andb_prop in H as [H _].
        apply (row_added_ok entry) in H. destruct H as [r H]. congruence.
    + specialize (IH (add_row t r) w').
      destruct (changeset_rows E (add_row t r) rest w') as [[res w2] t2].
      destruct IH as (n & Hn & Hl & Hk & Hc & Hok & Hall).
      unfold trace, result in *. cbn [fst snd app] in *. rewrite L, K, R, Q.
      exists (S n). cbn [firstn map List.length forallb]. repeat split.
      * lia.
      * now rewrite Hl.
      * now rewrite Hk.
      * exact Hc.
      * intros H. now rewrite Hok.
      * intros H. apply andb_prop in H as [_ H]. auto.
Qed.


Lemma build_table_calm nc data : emits calm (build_table E nc data).
Proof.
  intros w. unfold build_table. destruct nc; simpl; [reflexivity|].
  destruct (changeset_rows_run data (entries_table false) w)
    as (n & _ & _ & _ & H & _). exact H.
Qed.

(** The apply step: the success line, then the one batch call and its one
    POST, then the error line when the call raised. *)
Lemma apply_entries_run data w :
  let rs := fst (send E w (POST data)) in
  exists r tail,
    apply_entries E data w
    = (r, snd (send E w (POST data)),
       [EEcho (MsgEntriesCreated (List.length data));
        ECall (create_entries_call data);
        EHttp (POST data) rs] ++ tail)
    /\ ((r = inr tt /\ tail = [])
        \/ (r = inl (Exit 1) /\ exists text, tail = [EEcho (MsgError text)])).
Proof.
  intros rs. unfold apply_entries, try_except, client_create_entries, bind,
    echo, emit, http. subst rs.
  destruct (send E w (POST data)) as [rs w']. simpl fst. simpl snd.
  destruct rs as [st tx [j|msg]|msg]; simpl.
  - destruct (st =? 200)%Z; simpl; eauto 10.
  - destruct (st =? 200)%Z; simpl; eauto 10.
  - eauto 10.
Qed.

End ImportFacts.

Section CommandFacts.

Context {World : Type}.
Variable E : env World.

(** A run of [create_entries], phase by phase. *)
Lemma create_entries_run f p ty nc w :
  let x := create_entries E f p ty nc w in
  match load_drafts E f p ty w with
  | (inl e, w1, t1) => x = (inl e, w1, t1)
  | (inr data, w1, t1) =>
      match build_table E nc data w1 with
      | (inl e, w2, t2) => x = (inl e, w2, t1 ++ t2)
      | (inr tb, w2, t2) =>
          match confirm_answer E w2 with
          | (None, w3) =>
              x = (inl Abort, w3, t1 ++ t2 ++ [EPrint tb; EConfirm None])
          | (Some false, w3) =>
              x = (inl (Exit 0), w3,
                   t1 ++ t2 ++ [EPrint tb; EConfirm (Some false); EEcho MsgCancelled])
          | (Some true, w3) =>
              x = (fst (fst (apply_entries E data w3)),
                   snd (fst (apply_entries E data w3)),
                   t1 ++ t2 ++ [EPrint tb; EConfirm (Some true)]
                   ++ snd (apply_entries E data w3))
          end
      end
  end.
Proof.
  unfold create_entries, load_drafts, bind.
  destruct (_get_client E w) as [[[e|[]] w1] t1]; [reflexivity|].
  destruct (entry_client E w1) as [[[e|[]] w2] t2]; [reflexivity|].
  destruct (parse_source E f p ty w2) as [[[e|data] w3] t3]; [reflexivity|].
  destruct (build_table E nc data w3) as [[[e|tb] w4] t4].
  { cbv zeta. now rewrite !app_assoc. }
  unfold emit, confirm.
  destruct (confirm_answer E w4) as [[[|]|] w5]; cbv zeta; cbn [negb].
  - destruct (apply_entries E data w5) as [[r w6] t6]. cbn [fst snd].
    f_equal. rewrite <- !app_assoc. reflexivity.
  - unfold echo, emit, raise. f_equal. rewrite <- !app_assoc. reflexivity.
  - f_equal. rewrite <- !app_assoc. reflexivity.
Qed.

(** Cancel-safety is kept by a calm prefix. *)
Lemma cancel_safe_bind A B (m : M World A) (f : A -> M World B) :
  emits calm m -> (forall a, cancel_safe (f a)) -> cancel_safe (bind m f).
Proof.
  intros Hm Hf w. unfold bind. specialize (Hm w).
  assert (Hq : forall t, forallb calm t = true -> ~ In (EConfirm (Some false)) t).
  { intros t Ht. eapply forallb_not_in; [exact Ht|reflexivity]. }
  assert (Hw : forall t, forallb calm t = true -> forallb not_write t = true).
  { intros t. apply forallb_weaken. intros ev H.
    unfold calm in H. apply andb_prop in H as [H _]. exact H. }
  destruct (m w) as [[[e|a] w1] t1]; unfold trace, result in *; cbn [fst snd] in *.
  - intros Hin. now apply Hq in Hin.
  - specialize (Hf a w1). destruct (f a w1) as [[r w2] t2].
    unfold trace, result in *. cbn [fst snd] in *.
    intros Hin. apply in_app_or in Hin as [Hin|Hin]; [now apply Hq in Hin|].
    destruct (Hf Hin) as [H1 H2]. split; [|exact H2].
    rewrite forallb_app, H1, (Hw _ Hm). reflexivity.
Qed.

(** A command that never asks is cancel-safe. *)
Lemma cancel_safe_unasked A (m : M World A) : emits not_confirm m -> cancel_safe m.
Proof.
  intros Hm w Hin. exfalso. revert Hin.
  eapply forallb_not_in; [apply Hm|reflexivity].
Qed.

(** The confirmation gate: "no" ends the command at once, with code 0. *)
Lemma cancel_safe_gate A (rest : M World A) :
  emits not_confirm rest ->
  cancel_safe (proceed <- confirm E ;;
               if negb proceed then echo MsgCancelled ;; raise (Exit 0) else rest).
Proof.
  intros Hr w. unfold bind, confirm.
  destruct (confirm_answer E w) as [[[|]|] w1]; cbn [negb].
  - specialize (Hr w1). destruct (rest w1) as [[r w2] t2].
    unfold trace, result in *. cbn [fst snd app] in *.
    intros [Hin|Hin]; [discriminate|].
    exfalso. revert Hin. eapply forallb_not_in; [exact Hr|reflexivity].
  - unfold trace, result. cbn. intros _. split; reflexivity.
  - unfold trace. cbn. intros [H|[]]. discriminate.
Qed.

Lemma apply_entries_not_confirm data : emits not_confirm (apply_entries E data).
Proof.
  unfold apply_entries, client_create_entries. emits_auto.
Qed.

Lemma delete_and_report_not_confirm k : emits not_confirm (delete_and_report E k).
Proof.
  unfold delete_and_report, delete_entry_by_key. emits_auto.
Qed.

Lemma get_entry_by_key_calm k : emits calm (get_entry_by_key E k).
Proof.
  unfold get_entry_by_key. emits_auto.
Qed.

Lemma quiet_calm A (m : M World A) : emits quiet m -> emits calm m.
Proof.
  intros H w. apply forallb_weaken with (P := quiet); [|apply H].
  intros ev Hev. unfold quiet in Hev. now apply andb_prop in Hev as [Hev _].
Qed.

Lemma entry_get_calm entry k : emits calm (@entry_get World entry k).
Proof. unfold entry_get. emits_auto. Qed.

Lemma cancel_safe_create_entries f p ty nc : cancel_safe (create_entries E f p ty nc).
Proof.
  unfold create_entries.
  apply cancel_safe_bind; [apply quiet_calm, _get_client_quiet|intros _].
  apply cancel_safe_bind; [apply quiet_calm, entry_client_quiet|intros _].
  apply cancel_safe_bind; [apply quiet_calm, parse_source_quiet|intros data].
  apply cancel_safe_bind; [apply build_table_calm|intros tb].
  apply cancel_safe_bind; [apply emits_emit; reflexivity|intros _].
  apply cancel_safe_gate. apply apply_entries_not_confirm.
Qed.

Lemma cancel_safe_create_entry k v s : cancel_safe (create_entry E k v s).
Proof.
  unfold create_entry.
  apply cancel_safe_bind; [apply quiet_calm, _get_client_quiet|intros _].
  apply cancel_safe_bind; [apply quiet_calm, entry_client_quiet|intros _].
  apply cancel_safe_bind.
  { apply emits_try; [apply get_entry_by_key_calm|intros e; apply emits_ret]. }
  intros entry. cbv zeta.
  apply cancel_safe_bind.
  { destruct (truthy entry).
    - apply emits_bind; [apply emits_emit; reflexivity|intros _].
      apply emits_bind; [apply entry_get_calm|intros ek].
      apply emits_bind; [apply entry_get_calm|intros ev]. apply emits_table_add_row.
    - apply emits_bind; [apply emits_emit; reflexivity|intros _]. apply emits_ret. }
  intros tb.
  apply cancel_safe_bind; [apply emits_emit; reflexivity|intros _].
  apply cancel_safe_gate.
  unfold NboxRequestClient, entry_client, client_create_entry. emits_auto.
Qed.

Lemma cancel_safe_remove_entry k dc : cancel_safe (remove_entry E k dc).
Proof.
  unfold remove_entry.
  apply cancel_safe_bind.
  { unfold NboxRequestClient, entry_client. emits_auto. }
  intros _. apply cancel_safe_bind.
  { apply emits_try; [apply get_entry_by_key_calm|intros e]. emits_auto. }
  intros entry.
  destruct (negb (truthy entry)).
  { apply cancel_safe_unasked. emits_auto. }
  destruct dc.
  - apply cancel_safe_bind; [apply emits_emit; reflexivity|intros _].
    apply cancel_safe_bind; [apply entry_get_calm|intros ek].
    apply cancel_safe_bind; [apply entry_get_calm|intros ev].
    apply cancel_safe_bind; [apply entry_get_calm|intros es].
    cbv zeta.
    apply cancel_safe_bind; [apply emits_table_add_row|intros tb].
    apply cancel_safe_bind; [apply emits_emit; reflexivity|intros _].
    apply cancel_safe_gate. apply delete_and_report_not_confirm.
  - apply cancel_safe_unasked. apply delete_and_report_not_confirm.
Qed.

End CommandFacts.

Section Summary.

Context {World : Type}.
Variable E : env World.

Lemma filter_none (P Q : event -> bool) t :
  (forall ev, P ev = true -> Q ev = false) ->
  forallb P t = true -> filter Q t = [].
Proof.
  intros H. induction t as [|ev t IH]; simpl; [reflexivity|].
  intros Ht. apply andb_prop in Ht as [Hev Ht]. now rewrite (H _ Hev), IH.
Qed.

(** A run of [create_entries] that got its drafts: quiet events up to the
    parsed drafts, then the events of filling the table, then one of the
    five endings. *)
Lemma create_entries_summary f p ty nc w data :
  result (load_drafts E f p ty w) = inr data ->
  exists w1 t1 t3,
    trace (create_entries E f p ty nc w)
    = t1 ++ trace (build_table E nc data w1) ++ t3
    /\ forallb quiet t1 = true
    /\ gate_tail data t3.
Proof.
  intros Hd. pose proof (create_entries_run E f p ty nc w) as Hrun.
  pose proof (load_drafts_quiet E f p ty w) as Hq.
  cbv zeta in Hrun.
  destruct (load_drafts E f p ty w) as [[[e|data'] w1] t1]; [discriminate|].
  unfold result, trace in Hd, Hq. cbn [fst snd] in Hd, Hq.
  injection Hd as ->.
  exists w1, t1.
  destruct (build_table E nc data w1) as [[[e|tb] w2] t2].
  { exists []. rewrite Hrun. unfold trace. cbn [snd].
    rewrite app_nil_r. repeat split; [exact Hq|constructor]. }
  destruct (confirm_answer E w2) as [[[|]|] w3].
  - destruct (apply_entries_run E data w3) as (r & tail & Ha & Hcase).
    rewrite Ha in Hrun. cbn [fst snd] in Hrun. rewrite Hrun.
    unfold trace. cbn [snd].
    destruct Hcase as [[_ ->] | [_ (text & ->)]].
    + eexists. repeat split; [exact Hq|]. cbn [app]. apply tail_applied.
    + eexists. repeat split; [exact Hq|]. cbn [app]. apply tail_failed.
  - rewrite Hrun. unfold trace. cbn [snd].
    eexists. repeat split; [exact Hq|apply tail_cancelled].
  - rewrite Hrun. unfold trace. cbn [snd].
    eexists. repeat split; [exact Hq|apply tail_aborted].
Qed.

Lemma quiet_no_lookups t : forallb quiet t = true -> lookups t = [].
Proof.
  apply pick_none. intros ev H. unfold quiet in H.
  apply andb_prop in H as [_ H]. destruct ev as [[]| | | | |]; try reflexivity.
  discriminate.
Qed.

Lemma quiet_no_key_requests t : forallb quiet t = true -> key_requests t = [].
Proof.
  apply pick_none. intros ev H. unfold quiet in H.
  apply andb_prop in H as [_ H]. destruct ev as [|[] rs| | | |]; try reflexivity.
  unfold is_lookup in H. apply negb_true_iff in H.
  cbv beta iota. now rewrite H.
Qed.

Lemma quiet_no_key_responses t : forallb quiet t = true -> key_responses t = [].
Proof.
  apply pick_none. intros ev H. unfold quiet in H.
  apply andb_prop in H as [_ H]. destruct ev as [|[] rs| | | |]; try reflexivity.
  unfold is_lookup in H. apply negb_true_iff in H.
  cbv beta iota. now rewrite H.
Qed.

Lemma calm_no_posts t : forallb calm t = true -> posts t = [].
Proof.
  apply pick_none. intros ev H. unfold calm in H.
  apply andb_prop in H as [H _]. destruct ev as [|[] rs| | | |]; try reflexivity.
  discriminate.
Qed.

Lemma calm_no_writes t : forallb calm t = true -> filter is_write t = [].
Proof.
  apply filter_none. intros ev H. unfold calm in H.
  apply andb_prop in H as [H _]. now apply negb_true_iff in H.
Qed.

Lemma calm_no_confirm t a : forallb calm t = true -> ~ In (EConfirm a) t.
Proof. intros H. eapply forallb_not_in; [exact H|reflexivity]. Qed.

Lemma quiet_is_calm t : forallb quiet t = true -> forallb calm t = true.
Proof.
  apply forallb_weaken. intros ev H. unfold quiet in H.
  now apply andb_prop in H as [H _].
Qed.

(** The lookups of a whole run are those of filling the table. *)
Lemma create_entries_lookups f p ty nc w data :
  result (load_drafts E f p ty w) = inr data ->
  exists w1,
    let t := trace (create_entries E f p ty nc w) in
    let tb := trace (build_table E nc data w1) in
    lookups t = lookups tb /\ key_requests t = key_requests tb
    /\ key_responses t = key_responses tb.
Proof.
  intros Hd.
  destruct (create_entries_summary f p ty nc w Hd) as (w1 & t1 & t3 & -> & Hq & Ht).
  exists w1. cbv zeta. unfold lookups, key_requests, key_responses.
  rewrite !pick_app.
  fold (lookups t1). fold (key_requests t1). fold (key_responses t1).
  rewrite (quiet_no_lookups _ Hq), (quiet_no_key_requests _ Hq),
    (quiet_no_key_responses _ Hq).
  inversion Ht; cbn [pick app]; rewrite !app_nil_r; repeat split.
Qed.

(** A run in which the confirmation was asked has filled the table: in
    changeset mode every draft was looked up. *)
Lemma create_entries_asked f p ty w data a :
  result (load_drafts E f p ty w) = inr data ->
  In (EConfirm a) (trace (create_entries E f p ty false w)) ->
  lookups (trace (create_entries E f p ty false w)) = map lookup_key (map key data).
Proof.
  intros Hd Hin.
  pose proof (create_entries_run E f p ty false w) as Hrun.
  pose proof (load_drafts_quiet E f p ty w) as Hq.
  cbv zeta in Hrun.
  destruct (load_drafts E f p ty w) as [[[e|data'] w1] t1]; [discriminate|].
  unfold result, trace in Hd, Hq. cbn [fst snd] in Hd, Hq.
  injection Hd as ->.
  pose proof (build_table_calm E false data w1) as Hc.
  destruct (changeset_rows_run E data (entries_table false) w1)
    as (n & Hn & Hl & _ & _ & Hok & _).
  change (changeset_rows E (entries_table false) data w1)
    with (build_table E false data w1) in Hl, Hok.
  assert (Hl1 : lookups t1 = []) by now apply quiet_no_lookups.
  assert (Hall : forall tb w2 t2 t3,
             build_table E false data w1 = (inr tb, w2, t2) ->
             lookups t3 = [] ->
             lookups (t1 ++ t2 ++ t3) = map lookup_key (map key data)).
  { intros tb w2 t2 t3 Hb H3. rewrite Hb in Hl, Hok.
    unfold trace, result in Hl, Hok. cbn [fst snd] in Hl, Hok.
    unfold lookups in *. rewrite !pick_app, Hl1, H3, app_nil_r. cbn [app].
    rewrite Hl, Hok by eauto. now rewrite firstn_all. }
  destruct (build_table E false data w1) as [[[e|tb] w2] t2] eqn:Hb.
  { exfalso. rewrite Hrun in Hin. unfold trace in Hin, Hc. cbn [snd] in Hin, Hc.
    apply in_app_or in Hin as [Hin|Hin]; revert Hin; apply calm_no_confirm;
      [now apply quiet_is_calm|exact Hc]. }
  destruct (confirm_answer E w2) as [[[|]|] w3].
  - destruct (apply_entries_run E data w3) as (r & tail & Ha & Hcase).
    rewrite Ha in Hrun. cbn [fst snd] in Hrun. rewrite Hrun.
    unfold trace. cbn [snd]. eapply Hall; [reflexivity|].
    destruct Hcase as [[_ ->] | [_ (text & ->)]]; reflexivity.
  - rewrite Hrun. unfold trace. cbn [snd]. eapply Hall; reflexivity.
  - rewrite Hrun. unfold trace. cbn [snd]. eapply Hall; reflexivity.
Qed.

(** A run in which the user answered yes has sent the drafts, as parsed,
    in one POST. *)
Lemma create_entries_confirmed f p ty nc w data :
  result (load_drafts E f p ty w) = inr data ->
  In (EConfirm (Some true)) (trace (create_entries E f p ty nc w)) ->
  let t := trace (create_entries E f p ty nc w) in
  posts t = [data]
  /\ batch_calls t = [data]
  /\ exists rs,
      filter is_write t = [ECall (create_entries_call data); EHttp (POST data) rs]
      /\ In (EHttp (POST data) rs) t.
Proof.
  intros Hd Hin t. subst t.
  destruct (create_entries_summary f p ty nc w Hd)
    as (w1 & t1 & t3 & Ht & Hq & Htail).
  pose proof (build_table_calm E nc data w1) as Hc.
  pose proof (quiet_is_calm _ Hq) as Hq'.
  rewrite Ht in *.
  assert (Hin3 : In (EConfirm (Some true)) t3).
  { apply in_app_or in Hin as [Hin|Hin]; [now apply calm_no_confirm in Hin|].
    apply in_app_or in Hin as [Hin|Hin]; [now apply calm_no_confirm in Hin|].
    exact Hin. }
  assert (Hnb : forall t', forallb calm t' = true -> batch_calls t' = []).
  { intros t'. apply pick_none.
    intros [[]| | | | |]; try reflexivity; discriminate. }
  unfold posts, batch_calls. rewrite !pick_app, !filter_app.
  fold (posts t1) (posts (trace (build_table E nc data w1))).
  fold (batch_calls t1) (batch_calls (trace (build_table E nc data w1))).
  rewrite (calm_no_posts _ Hq'), (calm_no_posts _ Hc), (Hnb _ Hq'), (Hnb _ Hc),
    (calm_no_writes _ Hq'), (calm_no_writes _ Hc).
  inversion Htail as [|tb|tb|tb rs|tb rs text]; subst t3; cbn in Hin3.
  - contradiction.
  - destruct Hin3 as [H|[H|[]]]; discriminate.
  - destruct Hin3 as [H|[H|[H|[]]]]; discriminate.
  - cbn. repeat split. exists rs. split; [reflexivity|].
    apply in_or_app. right. apply in_or_app. right. cbn. tauto.
  - cbn. repeat split. exists rs. split; [reflexivity|].
    apply in_or_app. right. apply in_or_app. right. cbn. tauto.
Qed.

End Summary.

(* ================================================================= *)
(** ** The lookup key on 8-bit text and on any text *)

(** Every key is a leaf, or a prefix, a '/', and a leaf. *)
Lemma last_segment k :
  ~ In "/"%char k
  \/ exists prefix leaf, k = prefix ++ py "/" ++ leaf /\ ~ In "/"%char leaf.
Proof.
  induction k as [|c k IH]; [left; tauto|].
  destruct IH as [H | (p & l & -> & Hl)].
  - destruct (Ascii.eqb c "/") eqn:E.
    + apply Ascii.eqb_eq in E. subst c. right. now exists [], k.
    + apply Ascii.eqb_neq in E. left. simpl. intros [H1|H1]; [congruence|tauto].
  - right. now exists (c :: p), l.
Qed.

Lemma of_text_no_slash l : ~ In "/"%char l -> ~ In 47%N (Unicode.of_text l).
Proof.
  intros H Hin. apply in_map_iff in Hin as (c & Hc & Hin).
  apply (f_equal ascii_of_N) in Hc. rewrite ascii_N_embedding in Hc.
  subst c. contradiction.
Qed.

Lemma of_text_lookup_key k :
  Unicode.lookup_key (Unicode.of_text k) = Unicode.of_text (lookup_key k).
Proof.
  destruct (last_segment k) as [H | (p & l & -> & Hl)].
  - rewrite (@lookup_key_leaf _ H).
    rewrite (@UnicodeFacts.lookup_key_of_leaf _ (@of_text_no_slash _ H)).
    rewrite of_text_lower. exact (of_text_replace "-" "_" _).
  - assert (Happ : forall a b,
               Unicode.of_text (a ++ b) = Unicode.of_text a ++ Unicode.of_text b)
      by (intros a b; apply map_app).
    rewrite (@lookup_key_path p _ Hl), !Happ.
    change (Unicode.of_text (py "/")) with [47%N]. cbn [app].
    rewrite (@UnicodeFacts.lookup_key_of_path _ _ (@of_text_no_slash _ Hl)).
    rewrite !of_text_lower. f_equal. f_equal. exact (of_text_replace "-" "_" _).
Qed.

(* ================================================================= *)
(** ** The claims *)

Import Demo.

Ltac not_in_text := simpl; intuition discriminate.

(** C1. In changeset mode the key looked up for a draft is the draft key
    lowercased, with '-' replaced by '_' in its last '/'-segment only and
    the earlier segments otherwise unchanged, while the batch write carries
    the drafts with their keys unmodified.  The lookups of a run are the
    lookup keys of an initial run of the drafts, in order (the client sends
    each without its leading '/'); a run that reaches the confirmation has
    looked up every draft; a run in which the user answered yes has sent
    one POST whose body is the parsed drafts themselves, so with the draft
    keys; and 'app/db-host' is looked up as 'app/db_host'.  The form of the
    lookup key holds on keys of any code points as well, where the lookup
    key is that of this file on 8-bit keys. *)
Theorem C1_lookup_key_and_written_key
  World (E : env World) f p ty w data prefix leaf :
  result (load_drafts E f p ty w) = inr data ->
  ~ In "/"%char leaf ->
  let t := trace (create_entries E f p ty false w) in
  lookup_key leaf = replace "-" "_" (lower leaf)
  /\ lookup_key (prefix ++ py "/" ++ leaf)
     = lower prefix ++ py "/" ++ replace "-" "_" (lower leaf)
  /\ (exists n, n <= List.length data
                /\ lookups t = map lookup_key (map key (firstn n data)))
  /\ key_requests t = map lstrip_slash (lookups t)
  /\ (forall a, In (EConfirm a) t -> lookups t = map lookup_key (map key data))
  /\ (In (EConfirm (Some true)) t ->
      posts t = [data] /\ batch_calls t = [data]
      /\ exists rs, In (EHttp (POST data) rs) t)
  /\ (posts t = [] \/ posts t = [data])
  /\ (batch_calls t = [] \/ batch_calls t = [data])
  /\ lookup_key (py "app/db-host") = py "app/db_host"
  /\ (forall k : str,
        Unicode.lookup_key (Unicode.of_text k) = Unicode.of_text (lookup_key k))
  /\ (forall pre lf : Unicode.str,
        ~ In 47%N lf ->
        Unicode.lookup_key lf = Unicode.replace 45 95 (Unicode.lower lf)
        /\ Unicode.lookup_key (pre ++ 47%N :: lf)
           = Unicode.lower pre ++ 47%N :: Unicode.replace 45 95 (Unicode.lower lf)).
Proof.
  intros Hd Hleaf t.
  split; [now apply lookup_key_leaf|].
  split; [now apply lookup_key_path|].
  destruct (create_entries_lookups E f p ty false w Hd) as (w1 & Hl & Hk & _).
  cbv zeta in Hl, Hk.
  destruct (changeset_rows_run E data (entries_table false) w1)
    as (n & Hn & Hn' & Hkr & _).
  split.
  { subst t. rewrite Hl. exists n. split; [exact Hn|exact Hn']. }
  split.
  { subst t. rewrite Hk, Hl. exact Hkr. }
  clear w1 Hl Hk n Hn Hn' Hkr.
  split.
  { intros a Hin. eapply create_entries_asked; [exact Hd|exact Hin]. }
  split.
  { intros Hin.
    destruct (@create_entries_confirmed _ E f p ty false w data Hd Hin)
      as (Hp & Hb & rs & _ & Hrs).
    split; [exact Hp|]. split; [exact Hb|]. exists rs. exact Hrs. }
  destruct (create_entries_summary E f p ty false w Hd)
    as (w1 & t1 & t3 & Ht & Hq & Htail).
  pose proof (build_table_calm E false data w1) as Hc.
  assert (Hp : posts t = posts t3).
  { subst t. rewrite Ht. unfold posts. rewrite !pick_app.
    fold (posts t1). fold (posts (trace (build_table E false data w1))).
    now rewrite (calm_no_posts _ (quiet_is_calm _ Hq)), (calm_no_posts _ Hc). }
  assert (Hb : batch_calls t = batch_calls t3).
  { subst t. rewrite Ht. unfold batch_calls. rewrite !pick_app.
    rewrite (@pick_none _ _ calm t1), (@pick_none _ _ calm (trace _));
      [reflexivity| |exact Hc| |exact (quiet_is_calm _ Hq)];
      intros [[]| | | | |]; try reflexivity; discriminate. }
  rewrite Hp, Hb.
  assert (Hu : forall pre lf : Unicode.str,
             ~ In 47%N lf ->
             Unicode.lookup_key lf = Unicode.replace 45 95 (Unicode.lower lf)
             /\ Unicode.lookup_key (pre ++ 47%N :: lf)
                = Unicode.lower pre ++ 47%N :: Unicode.replace 45 95 (Unicode.lower lf)).
  { intros pre lf Hlf. split;
      [now apply UnicodeFacts.lookup_key_of_leaf
      |now apply UnicodeFacts.lookup_key_of_path]. }
  inversion Htail; cbn -[Unicode.lookup_key Unicode.lower Unicode.replace Unicode.of_text];
    (split; [auto|]); (split; [auto|]); (split; [reflexivity|]);
    (split; [exact of_text_lookup_key|exact Hu]).
Qed.

Lemma C1_witness :
  let t := trace (create_entries (demo_env sc0) (py "app.env") (Some (py "app/"))
                                 (py "dotenv") false w0) in
  lookup_key (py "db-host") = py "db_host"
  /\ lookup_key (py "app" ++ py "/" ++ py "db-host") = py "app/db_host"
  /\ map key [d_host; d_api] = [py "app/db-host"; py "app/api-key"]
  /\ lookups t = [py "app/db_host"; py "app/api_key"]
  /\ key_requests t = [py "app/db_host"; py "app/api_key"]
  /\ posts t = [[d_host; d_api]]
  /\ batch_calls t = [[d_host; d_api]].
Proof.
  intros t.
  assert (Hd : result (load_drafts (demo_env sc0) (py "app.env") (Some (py "app/"))
                                   (py "dotenv") w0) = inr [d_host; d_api])
    by (vm_compute; reflexivity).
  assert (Hleaf : ~ In "/"%char (py "db-host")) by not_in_text.
  assert (Hyes : In (EConfirm (Some true)) t)
    by (vm_compute; repeat (first [left; reflexivity | right])).
  destruct (@C1_lookup_key_and_written_key world (demo_env sc0) (py "app.env")
              (Some (py "app/")) (py "dotenv") w0 [d_host; d_api] (py "app")
              (py "db-host") Hd Hleaf)
    as (A1 & A2 & _ & K & Hall & Hposts & _).
  destruct (Hposts Hyes) as (P1 & P2 & _).
  fold t in K, Hall. rewrite (Hall _ Hyes) in K.
  split; [exact A1|]. split; [exact A2|]. split; [reflexivity|].
  split; [exact (Hall _ Hyes)|]. split; [exact K|]. split; [exact P1|exact P2].
Defined.




(** C5. Once the user has confirmed a bulk import, the run's writes are
    exactly one call of the client's batch create and the one POST it
    sends, both carrying all the parsed drafts: never a call per entry. *)
Theorem C5_one_batch_call World (E : env World) f p ty nc w data :
  result (load_drafts E f p ty w) = inr data ->
  In (EConfirm (Some true)) (trace (create_entries E f p ty nc w)) ->
  let t := trace (create_entries E f p ty nc w) in
  posts t = [data] /\ batch_calls t = [data]
  /\ exists rs,
      filter is_write t = [ECall (create_entries_call data); EHttp (POST data) rs].
Proof.
  intros Hd Hin t. subst t.
  destruct (create_entries_summary E f p ty nc w Hd)
    as (w1 & t1 & t3 & Ht & Hq & Htail).
  pose proof (build_table_calm E nc data w1) as Hc.
  pose proof (quiet_is_calm _ Hq) as Hq'.
  rewrite Ht in *.
  assert (Hin3 : In (EConfirm (Some true)) t3).
  { apply in_app_or in Hin as [Hin|Hin]; [now apply calm_no_confirm in Hin|].
    apply in_app_or in Hin as [Hin|Hin]; [now apply calm_no_confirm in Hin|].
    exact Hin. }
  assert (Hnb : forall t', forallb calm t' = true -> batch_calls t' = []).
  { intros t'. apply pick_none.
    intros [[]| | | | |]; try reflexivity; discriminate. }
  unfold posts, batch_calls. rewrite !pick_app, !filter_app.
  fold (posts t1) (posts (trace (build_table E nc data w1))).
  fold (batch_calls t1) (batch_calls (trace (build_table E nc data w1))).
  rewrite (calm_no_posts _ Hq'), (calm_no_posts _ Hc), (Hnb _ Hq'), (Hnb _ Hc),
    (calm_no_writes _ Hq'), (calm_no_writes _ Hc).
  inversion Htail as [|tb|tb|tb rs|tb rs text]; subst t3; cbn in Hin3.
  - contradiction.
  - destruct Hin3 as [H|[H|[]]]; discriminate.
  - destruct Hin3 as [H|[H|[H|[]]]]; discriminate.
  - cbn. repeat split. now exists rs.
  - cbn. repeat split. now exists rs.
Qed.

Lemma C5_witness :
  let t := trace (create_entries (demo_env sc0) (py "app.env") (Some (py "app/"))
                                 (py "dotenv") false w0) in
  posts t = [[d_host; d_api]] /\ batch_calls t = [[d_host; d_api]]
  /\ exists rs,
      filter is_write t
      = [ECall (create_entries_call [d_host; d_api]); EHttp (POST [d_host; d_api]) rs].
Proof.
  apply (@C5_one_batch_call world (demo_env sc0) (py "app.env")
           (Some (py "app/")) (py "dotenv") false w0 [d_host; d_api]).
  - vm_compute. reflexivity.
  - vm_compute. repeat (first [left; reflexivity | right]).
Defined.

(** C6. Whenever the user answers "no" at the confirmation of
    create-entries, create-entry or remove-entry, the run makes no write
    (no create, batch-create or delete, as a call or as a request) and ends
    by [typer.Exit(code=0)]: exit code 0, not 1. *)
Theorem C6_cancel_makes_no_write World (E : env World) (c : command) w :
  In (EConfirm (Some false)) (trace (run_command E c w)) ->
  filter is_write (trace (run_command E c w)) = []
  /\ result (run_command E c w) = inl (Exit 0)
  /\ exit_code (result (run_command E c w)) = 0%Z.
Proof.
  intros Hin.
  assert (Hs : cancel_safe (run_command E c)).
  { destruct c; simpl.
    - apply cancel_safe_create_entries.
    - apply cancel_safe_create_entry.
    - apply cancel_safe_remove_entry. }
  destruct (Hs w Hin) as [Hw Hr]. rewrite Hr. repeat split.
  revert Hw. apply filter_none. intros ev H. now apply negb_true_iff in H.
Qed.

Lemma C6_witness :
  let E := demo_env (with_answer (Some false) sc0) in
  let c := CreateEntries (py "app.env") (Some (py "app/")) (py "dotenv") false in
  filter is_write (trace (run_command E c w0)) = []
  /\ result (run_command E c w0) = inl (Exit 0)
  /\ exit_code (result (run_command E c w0)) = 0%Z.
Proof.
  apply (@C6_cancel_makes_no_write world (demo_env (with_answer (Some false) sc0))
           (CreateEntries (py "app.env") (Some (py "app/")) (py "dotenv") false) w0).
  vm_compute. repeat (first [left; reflexivity | right]).
Defined.

(** C8 (as amended). The old_value of a Changeset Row is empty when no
    remote entry exists at the row's lookup key, and is the remote entry's
    value when one exists; so it is empty exactly when no remote entry
    exists or the remote entry's own value is empty (or it has none). *)
Theorem C8_old_value World (E : env World) entry w row :
  result (changeset_row E entry w) = inr row ->
  let rs := fst (send E w (GET (py "key") (lstrip_slash (lookup_key (key entry))))) in
  exists old,
    row_old_value row = Some old
    /\ (remote_entry rs = None -> old = JStr [])
    /\ (forall fields v,
          remote_entry rs = Some (JObj fields) ->
          dict_get fields (py "value") = Some v -> old = v)
    /\ (old = JStr [] <->
        remote_entry rs = None
        \/ exists fields,
            remote_entry rs = Some (JObj fields)
            /\ dict_get_default fields (py "value") (JStr []) = JStr []).
Proof.
  rewrite changeset_row_run. unfold result. cbn [fst].
  generalize (fst (send E w (GET (py "key") (lstrip_slash (lookup_key (key entry)))))).
  intros rs Hrow.
  unfold row_result in Hrow. unfold remote_entry.
  destruct rs as [st tx [j|msg]|msg]; try discriminate.
  - destruct (st =? 200)%Z; [|discriminate]. cbn [andb].
    destruct (truthy j) eqn:Ej.
    + destruct j as [| | | | | |fields]; try discriminate.
      injection Hrow as <-.
      exists (dict_get_default fields (py "value") (JStr [])).
      split; [reflexivity|]. split; [discriminate|]. split.
      * intros fields' v H Hv. injection H as <-.
        unfold dict_get_default. now rewrite Hv.
      * split.
        -- intros H. right. now exists fields.
        -- intros [H|(fields' & H & Hv)]; [discriminate|].
           injection H as <-. exact Hv.
    + injection Hrow as <-. exists (JStr []).
      split; [reflexivity|]. split; [reflexivity|]. split; [discriminate|].
      split; [now left|reflexivity].
  - destruct (st =? 200)%Z; discriminate.
Qed.

Lemma C8_witness :
  let E := demo_env sc0 in
  let row := [Text (py "app/db-host"); Raw (JStr (py "old.local"));
              Text (py "db.local"); Text (py "False")] in
  let rs := fst (send E w0 (GET (py "key") (lstrip_slash (lookup_key (key d_host))))) in
  exists old,
    row_old_value row = Some old
    /\ (remote_entry rs = None -> old = JStr [])
    /\ (forall fields v,
          remote_entry rs = Some (JObj fields) ->
          dict_get fields (py "value") = Some v -> old = v)
    /\ (old = JStr [] <->
        remote_entry rs = None
        \/ exists fields,
            remote_entry rs = Some (JObj fields)
            /\ dict_get_default fields (py "value") (JStr []) = JStr []).
Proof.
  apply (@C8_old_value world (demo_env sc0) d_host w0).
  vm_compute. reflexivity.
Defined.

(** C8 as stated fails: a remote entry whose value is the empty string
    exists at the lookup key, and the row's old_value is empty all the same. *)
Lemma C8_counterexample :
  let E := demo_env sc0 in
  let rs := fst (send E w_empty_value (GET (py "key") (py "app/db_host"))) in
  exists row,
    result (changeset_row E d_host w_empty_value) = inr row
    /\ lookup_key (key d_host) = py "app/db_host"
    /\ row_old_value row = Some (JStr [])
    /\ remote_entry rs <> None
    /\ ~ (row_old_value row = Some (JStr []) <-> remote_entry rs = None).
Proof.
  eexists. vm_compute. repeat split; try discriminate.
  intros [H _]. specialize (H eq_refl). discriminate.
Qed.

(** C10. When every line of a dotenv text is blank, starts with '#' or has
    no '=', the parser returns the empty draft list and causes no event at
    all: the secure-field selection prompt is not invoked. *)
Theorem C10_nothing_to_import World (E : env World) content nbox_path w :
  Forall ignorable (split newline content) ->
  _parse_env_file E content nbox_path w = (inr [], w, [])
  /\ filter is_select (trace (_parse_env_file E content nbox_path w)) = [].
Proof.
  intros H. unfold _parse_env_file.
  rewrite env_entries_lines, (env_lines_ignorable H). split; reflexivity.
Qed.

Lemma C10_witness :
  _parse_env_file (demo_env sc0) idle_text (py "app") w0 = (inr [], w0, [])
  /\ filter is_select (trace (_parse_env_file (demo_env sc0) idle_text (py "app") w0)) = [].
Proof.
  apply (@C10_nothing_to_import world (demo_env sc0) idle_text (py "app") w0).
  change (split newline idle_text)
    with [py "# only a comment"; []; py "   "; py "NO SEPARATOR"].
  apply Forall_cons; [right; left; reflexivity|].
  apply Forall_cons; [left; reflexivity|].
  apply Forall_cons; [left; reflexivity|].
  apply Forall_cons; [|apply Forall_nil].
  right. right. unfold no_separator. not_in_text.
Defined.

(** C2 (where the code departs from it). A value that is one quote
    character alone has no surrounding pair of quotes, yet lines 256-259
    take it for one and cut it to the empty string: the line [A=] plus one
    double quote yields the value [""] under key [app/env/a].  The claim's
    own example holds: [FOO_BAR="baz"] under [app/env] gives key
    [app/env/foo-bar] and value [baz]. *)
Theorem C2_lone_quote_value_is_emptied :
  unquote [dquote] = []
  /\ unquote ["'"%char] = []
  /\ env_entries lone_quote_text = [(py "a", [])]
  /\ result (_parse_env_file (demo_env sc0) lone_quote_text (py "app/env") w0)
     = inr [Draft (py "app/env/a") (JStr []) (JBool false)]
  /\ result (_parse_env_file (demo_env sc0) foo_bar_text (py "app/env") w0)
     = inr [Draft (py "app/env/foo-bar") (JStr (py "baz")) (JBool false)].
Proof. vm_compute. repeat split. Qed.

(** The rest of C2 holds on every text: the parser goes line by line, a
    line [name=value] is split at its first '=', and the draft key is the
    base path without its trailing '/', a '/', and the normalised name. *)
Lemma env_draft_key nbox_path keys name v :
  key (env_draft nbox_path keys (env_key_normalize name, v))
  = rstrip_slash nbox_path ++ py "/" ++ replace "_" "-" (lower (strip name)).
Proof. reflexivity. Qed.

(** An element whose key is not a string, with a value: line 315 calls
    [.lower()] on it. *)
Lemma nbox_item_non_string_key World fields k v (w : World) :
  dict_get fields (py "key") = Some k ->
  dict_get fields (py "value") = Some v ->
  (forall s, k <> JStr s) ->
  nbox_item (JObj fields) w = (inl (AttributeError (type_name k) (py "lower")), w, []).
Proof.
  intros Hk Hv Hs. unfold nbox_item. rewrite Hk, Hv.
  destruct k; try reflexivity. now destruct (Hs s).
Qed.

(** C7 (where the code departs from it). A document whose element has the
    number 5 for its key is not rejected as invalid input: the import ends
    with an [AttributeError] that nothing catches, without any message
    written; no draft is submitted. *)
Theorem C7_number_key_is_uncaught :
  let x := create_entries (demo_env sc0) (py "bad.json") None (py "nbox") false w0 in
  result x = inl (AttributeError (py "int") (py "lower"))
  /\ echoes (trace x) = []
  /\ posts (trace x) = []
  /\ filter is_write (trace x) = [].
Proof. vm_compute. repeat split. Qed.

(** In every run the apply step writes its success line first, before the
    batch call is made. *)
Lemma apply_entries_reports_first World (E : env World) data w :
  exists rest,
    trace (apply_entries E data w)
    = EEcho (MsgEntriesCreated (List.length data))
      :: ECall (create_entries_call data) :: rest.
Proof.
  destruct (apply_entries_run E data w) as (r & tail & H & _).
  rewrite H. unfold trace. cbn. eauto.
Qed.

(** C9 (where the code departs from it). Against a store whose POST
    answers 500, a confirmed import of two drafts writes "Entries created
    successfully: 2" before the batch call is made, then the call fails:
    the run reports success and then the error, and exits with code 1. *)
Theorem C9_success_reported_before_failed_write :
  let E := demo_env (with_post 500 sc0) in
  let x := create_entries E (py "entries.json") None (py "nbox") true w0 in
  let failed := Response 500 (py "store unavailable") (Undecodable []) in
  result x = inl (Exit 1)
  /\ echoes (trace x)
     = [MsgEntriesCreated 2;
        MsgError (py "Request failed with status 500: store unavailable")]
  /\ skipn 3 (trace x)
     = [EConfirm (Some true);
        EEcho (MsgEntriesCreated 2);
        ECall (create_entries_call [d_host; d_api_nbox]);
        EHttp (POST [d_host; d_api_nbox]) failed;
        EEcho (MsgError (py "Request failed with status 500: store unavailable"))].
Proof. vm_compute. repeat split. Qed.

(* ================================================================= *)
(** ** Further properties: keys and the dotenv parser *)

Lemma lower_idem s : lower (lower s) = lower s.
Proof. unfold lower. rewrite map_map. apply map_ext. apply lower_char_idem. Qed.


(* ----------------------------------------------------------------- *)

Lemma split_pieces sep s l : In l (split sep s) -> ~ In sep l.
Proof.
  revert l. induction s as [|c t IH]; simpl; intros l.
  - intros [<-|[]]. tauto.
  - destruct (Ascii.eqb c sep) eqn:E.
    + intros [<-|H]; [tauto|now apply IH].
    + apply Ascii.eqb_neq in E.
      pose proof (@split_not_nil sep t) as Hn.
      destruct (split sep t) as [|h r]; [congruence|].
      intros [<-|H].
      * simpl. intros [H1|H1]; [congruence|].
        revert H1. apply IH. now left.
      * apply IH. now right.
Qed.

Lemma split_once_some sep s a b :
  split_once sep s = Some (a, b) -> s = a ++ sep :: b /\ ~ In sep a.
Proof.
  revert a. induction s as [|c t IH]; simpl; intros a; [discriminate|].
  destruct (Ascii.eqb c sep) eqn:E.
  - apply Ascii.eqb_eq in E. subst c. intros H. injection H as <- <-.
    split; [reflexivity|tauto].
  - apply Ascii.eqb_neq in E.
    destruct (split_once sep t) as [[a' b']|]; [|discriminate].
    intros H. injection H as <- <-.
    destruct (IH a' eq_refl) as [-> Hn]. split; [reflexivity|].
    simpl. intros [H1|H1]; [congruence|tauto].
Qed.

Lemma env_lines_in lines name v :
  In (name, v) (env_lines lines) ->
  exists line, In line lines /\ env_line line = Some (name, v).
Proof.
  induction lines as [|l lines IH]; simpl; [tauto|].
  destruct (env_line l) as [entry|] eqn:E.
  - intros [->|H].
    + exists l. split; [now left|exact E].
    + destruct (IH H) as (line & Hin & Hl). exists line. split; [now right|exact Hl].
  - intros H. destruct (IH H) as (line & Hin & Hl). exists line. split; [now right|exact Hl].
Qed.

Lemma env_line_some line name v :
  env_line line = Some (name, v) ->
  exists raw rest,
    strip line = raw ++ "="%char :: rest /\ ~ In "="%char raw
    /\ name = env_key_normalize raw /\ v = unquote (strip rest).
Proof.
  unfold env_line. destruct (strip line) as [|c t] eqn:Es; [discriminate|].
  destruct (startswith "#" (c :: t)); [discriminate|].
  destruct (split_once "=" (c :: t)) as [[raw rest]|] eqn:E; [|discriminate].
  intros H. injection H as <- <-.
  destruct (split_once_some _ _ E) as [-> Hn].
  now exists raw, rest.
Qed.

(** X2. The dotenv key transform (line 253) gives a normal form on every
    text, whatever its code points: the name has no '_', and [lower],
    [strip] and the replacement of '_' leave it as it is. *)
Theorem X2_env_names_are_normalised (k : Unicode.str) :
  let name := Unicode.env_key_normalize k in
  ~ In 95%N name
  /\ Unicode.lower name = name
  /\ Unicode.strip name = name
  /\ Unicode.replace 95 45 name = name.
Proof. apply UnicodeFacts.env_key_normal. Qed.

(** X3. The dotenv parser works line by line on the text as it is: line
    241's [content.strip()] changes nothing, the entries of two texts
    joined by a newline are those of the first followed by those of the
    second, and whitespace around the whole text is of no account. *)
Theorem X3_env_parser_line_by_line :
  (forall content, env_entries content = env_lines (split newline content))
  /\ (forall a b, env_entries (a ++ newline :: b) = env_entries a ++ env_entries b)
  /\ (forall content, env_entries (strip content) = env_entries content).
Proof.
  split; [exact env_entries_lines|]. split; [exact env_entries_newline|].
  intros content. unfold env_entries at 1. now rewrite strip_idem.
Qed.

(** X4. A line is split at its first '=' only, so the value may hold '=':
    the one line [name=value], whose name has no '=' and does not start
    with '#', gives the one entry of the normalised name and the stripped,
    unquoted value. *)
Theorem X4_split_at_first_equals (name v : str) :
  ~ In "="%char name ->
  ~ In newline name -> ~ In newline v ->
  startswith "#" (lstrip_by is_space name ++ py "=") = false ->
  env_entries (name ++ "="%char :: v) = [(env_key_normalize name, unquote (strip v))].
Proof.
  intros Hname Hn1 Hn2 Hc.
  rewrite env_entries_lines, split_no_sep.
  - simpl. now rewrite env_line_assignment.
  - intros H. apply in_app_or in H as [H|[H|H]]; [tauto|discriminate|tauto].
Qed.

Lemma X4_witness :
  env_entries (py "DB_URL " ++ "="%char :: py " pg://u@h/db?ssl=on")
  = [(env_key_normalize (py "DB_URL "), unquote (strip (py " pg://u@h/db?ssl=on")))].
Proof.
  apply (@X4_split_at_first_equals (py "DB_URL ") (py " pg://u@h/db?ssl=on"));
    [not_in_text|not_in_text|not_in_text|reflexivity].
Defined.

(** X5. Quotes (lines 254-259): a value inside one pair of double or
    single quotes, with any whitespace around the pair, loses the
    whitespace and the pair and nothing else: what is inside, further
    quotes and whitespace included, is kept as it is. *)
Theorem X5_one_layer_of_quotes (q : ascii) (w1 w2 inner : str) :
  q = dquote \/ q = "'"%char ->
  forallb is_space w1 = true -> forallb is_space w2 = true ->
  unquote (strip (w1 ++ q :: inner ++ q :: w2)) = inner.
Proof.
  intros Hq H1 H2.
  assert (Hs : is_space q = false) by (destruct Hq as [->| ->]; reflexivity).
  assert (E : strip (w1 ++ q :: inner ++ q :: w2) = q :: inner ++ [q]).
  { unfold strip. rewrite lstrip_by_app_all by exact H1.
    simpl lstrip_by. rewrite Hs.
    change (q :: inner ++ q :: w2) with ((q :: inner) ++ q :: w2).
    rewrite rstrip_by_app_stop by exact Hs.
    now rewrite rstrip_by_all. }
  rewrite E. now apply unquote_quoted.
Qed.

Lemma X5_witness :
  unquote (strip (py " " ++ dquote :: (py " a " ++ [dquote] ++ py "b") ++ dquote :: py "  "))
  = py " a " ++ [dquote] ++ py "b".
Proof.
  apply (@X5_one_layer_of_quotes dquote (py " ") (py "  ") (py " a " ++ [dquote] ++ py "b"));
    [now left|reflexivity|reflexivity].
Defined.

(* ================================================================= *)
(** ** Further properties: what the parsers return *)

(** X6. The secure flags of the dotenv drafts (lines 269-289): the prompt
    is asked once, with the variable names in file order; a draft is
    secure exactly when its name is among those ticked, so none is when
    the prompt was cancelled; keys, values and order are those of the
    parsed lines whatever is ticked. *)
Theorem X6_secure_is_what_was_ticked
  World (E : env World) (content path : str) (w : World) :
  env_entries content <> [] ->
  let entries := env_entries content in
  let ans := fst (select_answer E w (map fst entries)) in
  let x := _parse_env_file E content path w in
  exists ds,
    result x = inr ds
    /\ trace x = [ESelect (map fst entries) ans]
    /\ map key ds = map (fun e => rstrip_slash path ++ py "/" ++ fst e) entries
    /\ map value ds = map (fun e => JStr (snd e)) entries
    /\ (ans = None -> Forall (fun d => secure d = JBool false) ds)
    /\ (forall ticked, ans = Some ticked ->
          map secure ds = map (fun e => JBool (in_set (fst e) ticked)) entries).
Proof.
  intros Hne. cbv zeta. unfold _parse_env_file.
  destruct (env_entries content) as [|e0 rest]; [congruence|].
  set (entries := e0 :: rest).
  unfold bind, prompt.
  destruct (select_answer E w (map fst entries)) as [ans w'] eqn:Ea.
  unfold result, trace. cbn [fst snd ret app].
  eexists. split; [reflexivity|]. split; [reflexivity|].
  rewrite !map_map. cbn [env_draft key value secure].
  split; [reflexivity|]. split; [reflexivity|]. split.
  - intros ->. apply Forall_forall. intros d Hd.
    apply in_map_iff in Hd as (e & <- & _). reflexivity.
  - intros ticked ->. reflexivity.
Qed.

Lemma X6_witness :
  let entries := env_entries env_text in
  let ans := fst (select_answer (demo_env sc0) w0 (map fst entries)) in
  let x := _parse_env_file (demo_env sc0) env_text (py "app/") w0 in
  exists ds,
    result x = inr ds
    /\ trace x = [ESelect (map fst entries) ans]
    /\ map key ds = map (fun e => rstrip_slash (py "app/") ++ py "/" ++ fst e) entries
    /\ map value ds = map (fun e => JStr (snd e)) entries
    /\ (ans = None -> Forall (fun d => secure d = JBool false) ds)
    /\ (forall ticked, ans = Some ticked ->
          map secure ds = map (fun e => JBool (in_set (fst e) ticked)) entries).
Proof.
  apply (@X6_secure_is_what_was_ticked world (demo_env sc0) env_text (py "app/") w0).
  vm_compute. discriminate.
Defined.

Lemma rstrip_slash_trailing path n :
  rstrip_slash (path ++ repeat "/"%char n) = rstrip_slash path.
Proof.
  unfold rstrip_slash. apply rstrip_by_app_all.
  induction n; simpl; [reflexivity|exact IHn].
Qed.

(** X7. Slashes at the end of the base path make no difference to the
    dotenv parser (line 282): [app], [app/] and [app//] give the same
    drafts, events and world. *)
Theorem X7_trailing_slashes_do_not_matter
  World (E : env World) (content path : str) (n : nat) (w : World) :
  _parse_env_file E content (path ++ repeat "/"%char n) w
  = _parse_env_file E content path w.
Proof.
  unfold _parse_env_file. destruct (env_entries content) as [|e rest]; [reflexivity|].
  unfold bind. destruct (prompt E (map fst (e :: rest)) w) as [[[ex|a] w1] t1];
    [reflexivity|].
  cbn [ret]. do 2 f_equal. f_equal. apply map_ext. intros entry.
  unfold env_draft. now rewrite rstrip_slash_trailing.
Qed.

Lemma nbox_key_normal k :
  lower (nbox_key_normalize k) = nbox_key_normalize k
  /\ startswith "/" (nbox_key_normalize k) = false.
Proof.
  unfold nbox_key_normalize. split; [apply lower_idem|].
  unfold lstrip_slash.
  destruct (lstrip_by_head is_slash k) as [-> | (c & t & -> & Hc)]; [reflexivity|].
  simpl. pose proof (lower_char_slash c) as H. unfold is_slash in *. congruence.
Qed.

Lemma nbox_item_ok World item d (w w' : World) t :
  nbox_item item w = (inr d, w', t) -> w' = w /\ t = [] /\ nbox_accepts item d.
Proof.
  unfold nbox_item. destruct item as [| | | | | |fields]; try discriminate.
  destruct (dict_get fields (py "key")) as [k|] eqn:Ek; [|discriminate].
  destruct (dict_get fields (py "value")) as [v|] eqn:Ev; [|destruct k; discriminate].
  destruct k as [| | | |k| |]; try discriminate.
  intros H. injection H as <- <- <-. repeat split.
  exists fields, k. repeat split; assumption.
Qed.

Lemma nbox_items_ok World items : forall ds (w w' : World) t,
  nbox_items items w = (inr ds, w', t) ->
  w' = w /\ t = [] /\ Forall2 nbox_accepts items ds.
Proof.
  induction items as [|item rest IH]; intros ds w w' t; simpl.
  - intros H. injection H as <- <- <-. repeat split. constructor.
  - unfold bind.
    destruct (nbox_item item w) as [[[e|d] w1] t1] eqn:E1; [discriminate|].
    destruct (nbox_item_ok _ _ E1) as (-> & -> & Hd).
    destruct (nbox_items rest w) as [[[e|ds'] w2] t2] eqn:E2; [discriminate|].
    destruct (IH _ _ _ _ E2) as (-> & -> & Hds).
    cbn [ret app]. intros H. injection H as <- <- <-.
    repeat split. now constructor.
Qed.

Lemma nbox_accepts_run World item d (w : World) :
  nbox_accepts item d -> nbox_item item w = (inr d, w, []).
Proof.
  intros (fields & k & -> & Hk & Hv & Hkey & Hs).
  unfold nbox_item. rewrite Hk, Hv. destruct d as [dk dv dsec].
  cbn in Hkey, Hs. now rewrite Hkey, Hs.
Qed.

Lemma nbox_accepts_all_run World items ds (w : World) :
  Forall2 nbox_accepts items ds -> nbox_items items w = (inr ds, w, []).
Proof.
  induction 1 as [|item d items ds Hd _ IH]; [reflexivity|].
  simpl. unfold bind. rewrite (nbox_accepts_run w Hd), IH. reflexivity.
Qed.

(** X8. When [_parse_nbox_json] returns drafts, the text decoded to a
    list, there is one draft per element in order, each from an object
    with a string key and a value (the key without leading '/' and
    lowercased, the value as it is, secure false when absent), nothing was
    written, asked or sent, and every draft key is in lower case and does
    not start with '/'. *)
Theorem X8_nbox_drafts World (E : env World) (content : str) (w : World) ds :
  result (_parse_nbox_json E content w) = inr ds ->
  exists items,
    json_loads E content = Decoded (JArr items)
    /\ Forall2 nbox_accepts items ds
    /\ trace (_parse_nbox_json E content w) = []
    /\ Forall (fun d => lower (key d) = key d /\ startswith "/" (key d) = false) ds.
Proof.
  unfold _parse_nbox_json.
  destruct (json_loads E content) as [[| | | | |items|]|msg]; try discriminate.
  destruct (nbox_items items w) as [[[e|ds'] w'] t] eqn:Ei; [discriminate|].
  unfold result, trace. cbn [fst snd]. intros H. injection H as ->.
  destruct (nbox_items_ok _ _ Ei) as (_ & -> & Hall).
  exists items. repeat split; try assumption.
  clear Ei. induction Hall as [|item d items ds Hd _ IH]; constructor; [|exact IH].
  destruct Hd as (fields & k & _ & _ & _ & -> & _). apply nbox_key_normal.
Qed.

Lemma X8_witness :
  exists items,
    json_loads (demo_env sc0) nbox_text = Decoded (JArr items)
    /\ Forall2 nbox_accepts items [d_host; d_api_nbox]
    /\ trace (_parse_nbox_json (demo_env sc0) nbox_text w0) = []
    /\ Forall (fun d => lower (key d) = key d /\ startswith "/" (key d) = false)
              [d_host; d_api_nbox].
Proof.
  apply (@X8_nbox_drafts world (demo_env sc0) nbox_text w0 [d_host; d_api_nbox]).
  vm_compute. reflexivity.
Defined.

(** X9. The nbox parser is all or nothing and the first bad element
    decides (lines 296-308): when the elements before it are acceptable
    and it is not an object, or is an object without 'key' or 'value',
    the parser writes the one message for that and raises
    [typer.Exit(code=1)]; no draft is returned, whatever comes after. *)
Theorem X9_first_bad_element_decides
  World (E : env World) (content : str) (w : World) good ds bad rest msg :
  json_loads E content = Decoded (JArr (good ++ bad :: rest)) ->
  Forall2 nbox_accepts good ds ->
  nbox_rejects bad msg ->
  _parse_nbox_json E content w = (inl (Exit 1), w, [EEcho msg]).
Proof.
  intros Hl Hgood Hbad. unfold _parse_nbox_json. rewrite Hl. clear Hl.
  induction Hgood as [|item d good ds Hd _ IH].
  - simpl. unfold bind.
    assert (Hi : nbox_item bad w = (inl (Exit 1), w, [EEcho msg])).
    { destruct Hbad as [j Hj | fields Hf].
      - unfold nbox_item. destruct j; try reflexivity. now destruct (Hj fields).
      - unfold nbox_item. destruct Hf as [-> | Hv]; [reflexivity|].
        rewrite Hv. destruct (dict_get fields (py "key")); reflexivity. }
    now rewrite Hi.
  - simpl. unfold bind in *. rewrite (nbox_accepts_run w Hd), IH. reflexivity.
Qed.

Lemma X9_witness :
  _parse_nbox_json
    (demo_env (Script no_content 200 None None []
                 [(py "doc", JArr (nbox_doc_items ++ JObj [(py "key", JStr (py "k"))]
                                                  :: nbox_doc_items))]
                 None))
    (py "doc") w0
  = (inl (Exit 1), w0, [EEcho MsgMissingFields]).
Proof.
  apply (@X9_first_bad_element_decides world _ (py "doc") w0
           nbox_doc_items [d_host; d_api_nbox]
           (JObj [(py "key", JStr (py "k"))]) nbox_doc_items MsgMissingFields).
  - reflexivity.
  - repeat constructor.
    + exists [(py "key", JStr (py "/App/db-host")); (py "value", JStr (py "db.local"))],
        (py "/App/db-host"). repeat split.
    + exists [(py "key", JStr (py "app/api_key")); (py "value", JStr (py "s3cr3t"));
              (py "secure", JBool true)], (py "app/api_key"). repeat split.
  - apply rejects_missing_field. right. reflexivity.
Defined.

Lemma nbox_item_outcomes World item (w : World) :
  (exists d, nbox_item item w = (inr d, w, []))
  \/ (exists m, nbox_item item w = (inl (Exit 1), w, [EEcho m])
                /\ (m = MsgUnsupportedJson \/ m = MsgMissingFields))
  \/ (exists ty, nbox_item item w = (inl (AttributeError ty (py "lower")), w, [])).
Proof.
  unfold nbox_item.
  destruct item as [| | | | | |fields];
    try (right; left; exists MsgUnsupportedJson; split; [reflexivity|now left]).
  destruct (dict_get fields (py "key")) as [k|];
    [|right; left; exists MsgMissingFields; split; [reflexivity|now right]].
  destruct (dict_get fields (py "value")) as [v|];
    [|right; left; exists MsgMissingFields; split;
      [destruct k; reflexivity|now right]].
  destruct k; try (right; right; eexists; reflexivity).
  left. eexists. reflexivity.
Qed.

Lemma nbox_items_outcomes World items (w : World) :
  (exists ds, nbox_items items w = (inr ds, w, []))
  \/ (exists m, nbox_items items w = (inl (Exit 1), w, [EEcho m])
                /\ (m = MsgUnsupportedJson \/ m = MsgMissingFields))
  \/ (exists ty, nbox_items items w = (inl (AttributeError ty (py "lower")), w, [])).
Proof.
  induction items as [|item rest IH]; [left; now exists []|].
  simpl. unfold bind.
  destruct (nbox_item_outcomes item w) as [(d & ->) | [(m & -> & Hm) | (ty & ->)]].
  - destruct IH as [(ds & ->) | [(m & -> & Hm) | (ty & ->)]].
    + left. eexists. reflexivity.
    + right. left. exists m. split; [reflexivity|exact Hm].
    + right. right. eauto.
  - right. left. exists m. split; [reflexivity|exact Hm].
  - right. right. eauto.
Qed.

(** X10. However [_parse_nbox_json] ends, it sends nothing, asks nothing
    and writes at most one line: it returns drafts in silence, or raises
    [typer.Exit(code=1)] after exactly one message, or lets through, in
    silence, the decoder's error or the [AttributeError] of a key that is
    not a string. *)
Theorem X10_nbox_parser_outcomes World (E : env World) (content : str) (w : World) :
  let x := _parse_nbox_json E content w in
  (exists ds, x = (inr ds, w, []))
  \/ (exists m, x = (inl (Exit 1), w, [EEcho m])
                /\ (m = MsgUnsupportedJson \/ m = MsgMissingFields))
  \/ (exists msg, x = (inl (JSONDecodeError msg), w, []))
  \/ (exists ty, x = (inl (AttributeError ty (py "lower")), w, [])).
Proof.
  cbv zeta. unfold _parse_nbox_json.
  destruct (json_loads E content) as [j|msg];
    [|right; right; left; eexists; reflexivity].
  destruct j as [| | | | |items|];
    try (right; left; exists MsgUnsupportedJson; split; [reflexivity|now left]).
  destruct (nbox_items_outcomes items w) as [H | [H | H]];
    [left; exact H | right; left; exact H | right; right; right; exact H].
Qed.

(* ================================================================= *)
(** ** Further properties: the token check and the client *)

Lemma contains_here sub s : prefix_of sub s = true -> contains sub s = true.
Proof. intros H. destruct s; simpl; now rewrite H. Qed.

Lemma prefix_of_app sub s : prefix_of sub (sub ++ s) = true.
Proof.
  induction sub as [|c sub IH]; simpl; [now destruct s|].
  now rewrite Ascii.eqb_refl, IH.
Qed.

Lemma contains_app_r sub p s : contains sub s = true -> contains sub (p ++ s) = true.
Proof.
  intros H. induction p as [|c p IH]; simpl; [exact H|].
  rewrite IH. apply orb_true_r.
Qed.

Section ClientFacts.

Context {World : Type}.
Variable E : env World.

Lemma _get_client_no_token w :
  token_present E = false ->
  _get_client E w = (inl (Exit 1), w, [EEcho (MsgError no_token_text)]).
Proof.
  intros H. unfold _get_client, try_except, bind, NboxRequestClient.
  rewrite H. reflexivity.
Qed.

(** X11. Without a saved token no write command touches the network:
    create-entries, create-entry and remove-entry each write the one line
    "No authentication token found. Please run 'nbox login' first." and
    end by [typer.Exit(code=1)], with no request sent and nothing asked. *)
Theorem X11_no_token_no_request (c : command) (w : World) :
  token_present E = false ->
  run_command E c w = (inl (Exit 1), w, [EEcho (MsgError no_token_text)]).
Proof.
  intros H. destruct c; simpl.
  - unfold create_entries, bind. now rewrite _get_client_no_token.
  - unfold create_entry, bind. now rewrite _get_client_no_token.
  - unfold remove_entry, bind, try_except, NboxRequestClient. rewrite H. reflexivity.
Qed.

(** X12. A token the store calls expired (lines 27-31): when the validate
    request is answered with status 401 and a body holding "expired" in
    any letter case, [_get_client] writes the re-login line, not the raw
    failure, and raises [typer.Exit(code=1)]. *)
Theorem X12_expired_token_is_recognised (w w' : World) (text : str) (body : decoded) :
  token_present E = true ->
  send E w (GET (py "prefix") (py "login")) = (Response 401 text body, w') ->
  contains (py "expired") (lower text) = true ->
  _get_client E w
  = (inl (Exit 1), w',
     [ECall validate_token_call;
      EHttp (GET (py "prefix") (py "login")) (Response 401 text body);
      EEcho MsgTokenExpired]).
Proof.
  intros Ht Hs Hx.
  unfold _get_client, try_except, bind, NboxRequestClient, validate_token, bind,
    emit, http.
  rewrite Ht. cbn [ret]. rewrite Hs. cbn [json_or_raise Z.eqb Pos.eqb raise app].
  unfold request_failed. cbn [exn_text].
  change (str_of_Z 401) with (py "401").
  assert (H1 : contains (py "401")
                 (py "Request failed with status " ++ py "401" ++ py ": " ++ text) = true).
  { apply contains_app_r. apply contains_here. apply prefix_of_app. }
  assert (H2 : contains (py "expired")
                 (lower (py "Request failed with status " ++ py "401" ++ py ": " ++ text))
               = true).
  { rewrite !lower_app. now do 3 apply contains_app_r. }
  rewrite H1, H2. reflexivity.
Qed.

(** X13. [_get_client] (lines 21-34) lets no exception of its own
    through.  It returns exactly when a token is saved and the one
    validate request is answered with status 200 and a body that decodes,
    having written nothing; in every other case it writes exactly one line,
    the re-login line or an error line, and raises [typer.Exit(code=1)]. *)
Theorem X13_token_check_outcomes (w : World) :
  let x := _get_client E w in
  let rq := GET (py "prefix") (py "login") in
  let rs := fst (send E w rq) in
  (token_present E = true /\ answered_ok rs = true
   /\ result x = inr tt
   /\ trace x = [ECall validate_token_call; EHttp rq rs])
  \/ ((token_present E = false \/ answered_ok rs = false)
      /\ result x = inl (Exit 1)
      /\ exists m, echoes (trace x) = [m]
                   /\ (m = MsgTokenExpired \/ exists text, m = MsgError text)).
Proof.
  cbv zeta. destruct (token_present E) eqn:Ht.
  2:{ right. rewrite (_get_client_no_token w Ht). split; [now left|].
      split; [reflexivity|]. eexists. split; [reflexivity|]. right. eauto. }
  unfold _get_client, try_except, bind, NboxRequestClient, validate_token, bind,
    emit, http.
  rewrite Ht. cbn [ret].
  destruct (send E w (GET (py "prefix") (py "login"))) as [rs w'].
  cbn [fst].
  destruct rs as [st tx [j|msg]|msg]; unfold json_or_raise, answered_ok;
    try destruct (st =? 200)%Z;
    cbn -[contains lower exn_text];
    try (left; repeat split; fail);
    (right; split; [now right|];
     match goal with
     | |- context [if ?b then _ else _] => destruct b
     end;
     (split; [reflexivity|]; eexists; split; [reflexivity|];
      first [now left | right; eexists; reflexivity])).
Qed.

Lemma lstrip_slash_leading n k : lstrip_slash (repeat "/"%char n ++ k) = lstrip_slash k.
Proof.
  unfold lstrip_slash. apply lstrip_by_app_all.
  induction n; simpl; [reflexivity|exact IHn].
Qed.

(** X14. Slashes in front of a key do not reach the store for a single
    entry: [get_entry_by_key], [delete_entry_by_key] and the client's
    [create_entry] send for [///k] the very request they send for [k], and
    end alike; the batch [create_entries] sends the keys as they are. *)
Theorem X14_leading_slashes_are_dropped (k v : str) (s : bool) (n : nat) (w : World) :
  let k' := repeat "/"%char n ++ k in
  let same {A} (a b : (exn + A) * World * list event) :=
    result a = result b /\ snd (fst a) = snd (fst b) /\ sent (trace a) = sent (trace b) in
  same (get_entry_by_key E k' w) (get_entry_by_key E k w)
  /\ same (delete_entry_by_key E k' w) (delete_entry_by_key E k w)
  /\ same (client_create_entry E k' v s w) (client_create_entry E k v s w)
  /\ sent (trace (client_create_entries E [Draft k' (JStr v) (JBool s)] w))
     = [POST [Draft k' (JStr v) (JBool s)]].
Proof.
  cbv zeta.
  unfold get_entry_by_key, delete_entry_by_key, client_create_entry,
    client_create_entries, bind, emit, http.
  rewrite !lstrip_slash_leading.
  repeat split;
    match goal with
    | |- context [send E w ?rq] =>
        destruct (send E w rq) as [rs w1];
        destruct (json_or_raise rs w1) as [[r w2] t2] eqn:Ej;
        try reflexivity
    end.
  pose proof (emits_json_or_raise (fun _ => false) rs w1) as Hn.
  rewrite Ej in Hn. unfold trace in Hn. cbn [snd] in Hn.
  destruct t2; [reflexivity|discriminate].
Qed.

End ClientFacts.

Lemma X11_witness :
  run_command (demo_env (Script no_content 200 (Some true) None [] [] None))
              (RemoveEntry (py "app/db_host") true) w0
  = (inl (Exit 1), w0, [EEcho (MsgError no_token_text)]).
Proof.
  apply (@X11_no_token_no_request world
           (demo_env (Script no_content 200 (Some true) None [] [] None))).
  reflexivity.
Defined.

Lemma X12_witness :
  let E := demo_env sc0 in
  let body := Undecodable [] in
  _get_client
    (Env (fun w rq => (Response 401 (py "Token has EXPIRED") body, w))
         (confirm_answer E) (select_answer E) (file_at E) (absolute E)
         (config_token E)
         (json_loads E) (py_str E)) w0
  = (inl (Exit 1), w0,
     [ECall validate_token_call;
      EHttp (GET (py "prefix") (py "login")) (Response 401 (py "Token has EXPIRED") body);
      EEcho MsgTokenExpired]).
Proof.
  apply (@X12_expired_token_is_recognised world); reflexivity.
Defined.

(* ================================================================= *)
(** ** Further properties: remove-entry and create-entry *)

(** Case analysis of a run, one interaction with the world at a time. *)
Ltac run_step :=
  match goal with
  | |- context [token_present ?E] => destruct (token_present E) eqn:?
  | |- context [send ?E ?w ?rq] =>
      is_var w;
      let rs := fresh "rs" in
      destruct (send E w rq) as [rs ?] eqn:?;
      destruct rs as [? ? [?|?]|?]
  | |- context [confirm_answer ?E ?w] =>
      is_var w;
      destruct (confirm_answer E w) as [[[|]|] ?] eqn:?
  | |- context [(?st =? 200)%Z] => destruct (st =? 200)%Z eqn:?
  | |- context [not_renderable ?r] => destruct (not_renderable r) eqn:?
  | |- context [truthy ?j] => is_var j; destruct j as [| | | | | |?]
  | |- context [truthy ?j] => destruct (truthy j) eqn:?
  | |- context [if ?b then _ else _] => destruct b eqn:?
  end.

Ltac run_cases :=
  repeat (run_step;
          cbn -[contains lower exn_text str_eqb lstrip_slash py_str py not_renderable]).

Ltac run_finish :=
  repeat match goal with
         | H : ?x <> ?x |- _ => now destruct H
         | H : False |- _ => destruct H
         | H : _ \/ _ |- _ => destruct H
         | H : In _ _ |- _ => cbn in H
         | H : inl _ = inr _ |- _ => discriminate H
         | H : inr _ = inl _ |- _ => discriminate H
         | H : inl _ = inl _ |- _ => first [discriminate H | injection H as H]
         | H : EEcho _ = EEcho _ |- _ => first [discriminate H | clear H]
         | H : ?a = ?b |- _ =>
             match type of a with event => discriminate H end
         | H : true = false |- _ => discriminate H
         | H : false = true |- _ => discriminate H
         | H : Some _ = None |- _ => discriminate H
         | H : None = Some _ |- _ => discriminate H
         | |- exists _, _ = _ /\ _ => eexists; split; [reflexivity|]
         | |- _ /\ _ => split
         | |- _ <-> _ => split
         | |- _ -> _ => intro
         end;
  cbn;
  repeat match goal with
         | H : (?st =? 200)%Z = true |- context [(?st =? 200)%Z] => rewrite H; cbn
         | H : negb ?b = false |- context [?b] =>
             apply negb_false_iff in H; rewrite H; cbn
         end;
  first [reflexivity | discriminate | congruence
        | left; reflexivity | right; reflexivity
        | solve [repeat (first [left; reflexivity | right])]
        | solve [eexists; reflexivity]
        | solve [eexists; split; [repeat (first [left; reflexivity | right])|];
                 cbn; auto]
        | idtac].

Section SingleEntryFacts.

Context {World : Type}.
Variable E : env World.

(** X15. [remove_entry] (lines 409-464) sends at most one DELETE, for
    the key without its leading '/', and only after its one lookup was
    answered with a remote entry; with the confirmation on, only after the
    user answered yes; with it off, nothing is asked.  It never sends a
    POST. *)
Theorem X15_remove_entry_deletes_what_it_found (k : str) (dc : bool) (w : World) :
  let t := trace (remove_entry E k dc w) in
  (deletes t = [] \/ deletes t = [lstrip_slash k])
  /\ (deletes t <> [] ->
      (exists rs, key_responses t = [rs] /\ remote_entry rs <> None)
      /\ key_requests t = [lstrip_slash k]
      /\ (dc = true -> confirmations t = [Some true]))
  /\ (dc = false -> confirmations t = [])
  /\ posts t = [].
Proof.
  cbv zeta.
  unfold remove_entry, delete_and_report, delete_entry_by_key, get_entry_by_key,
    NboxRequestClient, entry_client, entry_get, table_add_row, confirm,
    try_except, bind, echo, emit, http, json_or_raise, ret, raise.
  destruct dc; run_cases;
    unfold trace, deletes, key_responses, key_requests, confirmations, posts,
      remote_entry;
    cbn -[lstrip_slash]; run_finish.
Qed.

(** X16. [remove_entry] reports "Entry removed successfully" exactly in
    the runs that return, and those are runs whose DELETE for the key was
    answered with status 200 and a body that decodes; its exit code is 0
    exactly when it returned or the user answered no. *)
Theorem X16_remove_entry_reports_after_the_delete (k : str) (dc : bool) (w : World) :
  let x := remove_entry E k dc w in
  (result x = inr tt <-> In (EEcho (MsgEntryRemoved k)) (trace x))
  /\ (result x = inr tt ->
      exists rs, In (EHttp (DELETE (py "key") (lstrip_slash k)) rs) (trace x)
                 /\ answered_ok rs = true)
  /\ (exit_code (result x) = 0%Z <->
      result x = inr tt \/ confirmations (trace x) = [Some false]).
Proof.
  cbv zeta.
  unfold remove_entry, delete_and_report, delete_entry_by_key, get_entry_by_key,
    NboxRequestClient, entry_client, entry_get, table_add_row, confirm,
    try_except, bind, echo, emit, http, json_or_raise, ret, raise.
  destruct dc; run_cases;
    unfold trace, result, confirmations, exit_code;
    cbn -[lstrip_slash]; run_finish.
Qed.

(** X17. [create_entry] (lines 187-237) sends at most one POST, the one
    entry with its key without leading '/', and only after the user
    answered yes; it never deletes.  It reports "Entry created
    successfully" exactly in the runs that return, and those are runs whose
    POST was answered with status 200 and a body that decodes; its exit
    code is 0 exactly when it returned or the user answered no. *)
Theorem X17_create_entry_reports_after_the_post (k v : str) (s : bool) (w : World) :
  let x := create_entry E k v s w in
  let body := [Draft (lstrip_slash k) (JStr v) (JBool s)] in
  (posts (trace x) = [] \/ posts (trace x) = [body])
  /\ (posts (trace x) <> [] -> confirmations (trace x) = [Some true])
  /\ deletes (trace x) = []
  /\ (result x = inr tt <-> In (EEcho (MsgEntryCreated k)) (trace x))
  /\ (result x = inr tt ->
      exists rs, In (EHttp (POST body) rs) (trace x) /\ answered_ok rs = true)
  /\ (exit_code (result x) = 0%Z <->
      result x = inr tt \/ confirmations (trace x) = [Some false]).
Proof.
  cbv zeta.
  unfold create_entry, _get_client, validate_token, client_create_entry,
    get_entry_by_key, NboxRequestClient, entry_client, entry_get, table_add_row,
    confirm, try_except, bind, echo, emit, http, json_or_raise, ret, raise.
  run_cases;
    unfold trace, result, confirmations, posts, deletes, exit_code;
    cbn -[lstrip_slash]; run_finish.
Qed.


End SingleEntryFacts.



(* ================================================================= *)
(** ** Further properties: create-entries as a whole *)

Section BulkFacts.

Context {World : Type}.
Variable E : env World.

Lemma _get_client_events : emits load_event (_get_client E).
Proof.
  unfold _get_client, NboxRequestClient, validate_token. emits_auto.
Qed.

Lemma nbox_items_events items : emits load_event (@nbox_items World items).
Proof.
  induction items as [|entry rest IH]; simpl.
  - emits_auto.
  - apply emits_bind; [unfold nbox_item; emits_auto|intros d].
    apply emits_bind; [exact IH|intros ds]. emits_auto.
Qed.

Lemma parse_source_events f p ty : emits load_event (parse_source E f p ty).
Proof.
  intros w. unfold parse_source.
  destruct (file_at E w f) as [|msg|msg|content]; [reflexivity..|].
  destruct (str_eqb ty (py "nbox")).
  - unfold _parse_nbox_json.
    destruct (json_loads E content) as [[| | | | |items|]|msg];
      try (as_emits; emits_auto; fail).
    apply nbox_items_events.
  - destruct (str_eqb ty (py "dotenv")); [|reflexivity].
    destruct p as [[|c p]|]; try reflexivity.
    unfold _parse_env_file. as_emits. emits_auto.
Qed.

Lemma load_drafts_events f p ty : emits load_event (load_drafts E f p ty).
Proof.
  unfold load_drafts.
  apply emits_bind; [apply _get_client_events|intros _].
  apply emits_bind; [unfold entry_client; emits_auto|intros _].
  apply parse_source_events.
Qed.

(** Reading and parsing the source fails by [typer.Exit(code=1)] or by an
    exception nothing catches, never by exit code 0. *)
Lemma _get_client_failure w e :
  result (_get_client E w) = inl e -> e = Exit 1.
Proof.
  unfold _get_client, validate_token, NboxRequestClient, try_except, bind, echo,
    emit, http, json_or_raise, ret, raise.
  run_cases; unfold result; cbn; intros H; congruence.
Qed.

Lemma parse_source_failure f p ty w e :
  result (parse_source E f p ty w) = inl e -> e <> Exit 0.
Proof.
  unfold parse_source.
  destruct (file_at E w f) as [|msg|msg|content];
    try (cbn; intros H; congruence).
  destruct (str_eqb ty (py "nbox")).
  - unfold _parse_nbox_json.
    destruct (json_loads E content) as [[| | | | |items|]|msg];
      try (cbn; intros H; congruence).
    destruct (nbox_items_outcomes items w) as [(ds & ->) | [(m & -> & _) | (t & ->)]];
      cbn; intros H; congruence.
  - destruct (str_eqb ty (py "dotenv")); [|cbn; intros H; congruence].
    destruct p as [[|c p]|]; try (cbn; intros H; congruence).
    unfold _parse_env_file. destruct (env_entries content); [cbn; congruence|].
    unfold bind, prompt. destruct (select_answer E w _). cbn. congruence.
Qed.

Lemma load_drafts_failure f p ty w e :
  result (load_drafts E f p ty w) = inl e -> e <> Exit 0.
Proof.
  unfold load_drafts, bind.
  destruct (_get_client E w) as [[[e1|[]] w1] t1] eqn:E1.
  - pose proof (@_get_client_failure w e1) as H. rewrite E1 in H.
    specialize (H eq_refl). subst e1. cbn. intros H. congruence.
  - unfold entry_client. destruct (token_present E); cbn -[parse_source].
    + pose proof (@parse_source_failure f p ty w1 e) as H.
      destruct (parse_source E f p ty w1) as [[r w2] t2].
      unfold result in *. cbn in *. exact H.
    + intros H. congruence.
Qed.

Lemma row_result_row entry rs r :
  row_result E entry rs = inr r -> exists old, r = row_of E entry old.
Proof.
  unfold row_result. destruct rs as [st tx [j|msg]|msg]; try discriminate.
  - destruct (st =? 200)%Z; [|discriminate]. destruct (truthy j).
    + destruct j; try discriminate. intros H. injection H as <-. eauto.
    + intros H. injection H as <-. eauto.
  - destruct (st =? 200)%Z; discriminate.
Qed.

Lemma row_result_failure entry rs e c :
  row_result E entry rs = inl e -> e <> Exit c.
Proof.
  unfold row_result. destruct rs as [st tx [j|msg]|msg].
  - destruct (st =? 200)%Z; [|unfold request_failed; congruence].
    destruct (truthy j); [|discriminate]. destruct j; congruence.
  - destruct (st =? 200)%Z; [|unfold request_failed]; congruence.
  - congruence.
Qed.

Lemma row_added_row entry rs r :
  row_added E entry rs = inr r -> exists old, r = row_of E entry old.
Proof.
  unfold row_added. destruct (row_result E entry rs) as [e|r'] eqn:Er; [discriminate|].
  destruct (not_renderable r'); [discriminate|].
  intros H. injection H as <-. now apply row_result_row in Er.
Qed.

Lemma row_added_failure entry rs e c :
  row_added E entry rs = inl e -> e <> Exit c.
Proof.
  unfold row_added. destruct (row_result E entry rs) as [e'|r'] eqn:Er.
  - intros H. injection H as <-. now apply (row_result_failure _ _ Er).
  - destruct (not_renderable r'); congruence.
Qed.

(** The changeset loop causes lookups only, fails by no [typer.Exit], and
    returns the table it was given with one row per draft added, in
    order. *)
Lemma changeset_rows_table data :
  forall t0 w,
    let x := changeset_rows E t0 data w in
    forallb is_lookup (trace x) = true
    /\ (forall e c, result x = inl e -> e <> Exit c)
    /\ (forall tb, result x = inr tb ->
        columns tb = columns t0
        /\ exists olds,
            List.length olds = List.length data
            /\ rows tb = rows t0 ++ map (fun p => row_of E (fst p) (snd p))
                                        (combine data olds)).
Proof.
  induction data as [|entry rest IH]; intros t0 w.
  - simpl. unfold result, trace. cbn.
    split; [reflexivity|]. split; [intros e c H; discriminate|].
    intros tb H. injection H as <-. split; [reflexivity|].
    exists []. now rewrite app_nil_r.
  - cbv zeta. rewrite changeset_rows_cons.
    destruct (send E w (GET (py "key") (lstrip_slash (lookup_key (key entry)))))
      as [rs w'].
    cbn [fst snd].
    destruct (row_added E entry rs) as [e|r] eqn:Er.
    + unfold result, trace. cbn [fst snd].
      split; [reflexivity|]. split; [|intros tb H; discriminate].
      intros e' c H. injection H as <-. now apply (row_added_failure _ _ Er).
    + destruct (row_added_row _ _ Er) as [old ->].
      specialize (IH (add_row t0 (row_of E entry old)) w').
      destruct (changeset_rows E (add_row t0 (row_of E entry old)) rest w')
        as [[res w2] t2].
      destruct IH as (Hev & Hfail & Hok). unfold result, trace in *.
      cbn [fst snd] in *.
      split; [exact Hev|]. split; [exact Hfail|].
      intros tb H. destruct (Hok tb H) as (Hc & olds & Hlen & Hrows).
      split; [exact Hc|].
      exists (old :: olds). split; [cbn; now rewrite Hlen|].
      rewrite Hrows. cbn. now rewrite <- app_assoc.
Qed.

Lemma plain_rows_table data : forall t0,
  let tb := fold_left (fun t entry => add_row t (plain_row E entry)) data t0 in
  columns tb = columns t0 /\ rows tb = rows t0 ++ map (plain_row E) data.
Proof.
  induction data as [|entry rest IH]; intros t0; simpl.
  - split; [reflexivity|now rewrite app_nil_r].
  - destruct (IH (add_row t0 (plain_row E entry))) as [Hc Hr]. cbv zeta in *.
    rewrite Hc, Hr. cbn. split; [reflexivity|now rewrite <- app_assoc].
Qed.

(** What [build_table] returns: the columns of the mode, and one row per
    draft in order, as many cells wide as there are columns, headed by the
    lowercased draft key. *)
Lemma build_table_rows nc data w tb :
  result (build_table E nc data w) = inr tb ->
  columns tb = columns (entries_table nc)
  /\ map first_cell (rows tb) = map (fun d => Text (lower (key d))) data
  /\ Forall (fun r => List.length r = List.length (columns tb)) (rows tb).
Proof.
  unfold build_table. destruct nc; cbn [negb].
  - unfold result. cbn. intros H. injection H as <-.
    destruct (plain_rows_table data (entries_table true)) as [Hc Hr]. cbv zeta in *.
    rewrite Hc, Hr. cbn. repeat split.
    + now rewrite map_map.
    + apply Forall_forall. intros r Hin. apply in_map_iff in Hin as (d & <- & _).
      reflexivity.
  - intros H.
    destruct (changeset_rows_table data (entries_table false) w) as (_ & _ & Hok).
    destruct (Hok tb H) as (Hc & olds & Hlen & Hr). rewrite Hc, Hr. cbn.
    repeat split.
    + rewrite map_map. cbn. clear -Hlen. revert olds Hlen.
      induction data as [|d data IH]; intros [|o olds] Hlen; try discriminate;
        [reflexivity|]. cbn. f_equal. apply IH. now injection Hlen.
    + apply Forall_forall. intros r Hin. apply in_map_iff in Hin as (d & <- & _).
      reflexivity.
Qed.

Lemma load_event_no_print t : forallb load_event t = true -> printed t = [].
Proof. apply pick_none. intros [| | | | |]; try reflexivity; discriminate. Qed.

Lemma lookup_no_print t : forallb is_lookup t = true -> printed t = [].
Proof. apply pick_none. intros [| | | | |]; try reflexivity; discriminate. Qed.

Lemma load_event_no_confirm t : forallb load_event t = true -> confirmations t = [].
Proof. apply pick_none. intros [| | | | |]; try reflexivity; discriminate. Qed.

Lemma lookup_no_confirm t : forallb is_lookup t = true -> confirmations t = [].
Proof. apply pick_none. intros [| | | | |]; try reflexivity; discriminate. Qed.

Lemma build_table_lookups nc data w :
  forallb is_lookup (trace (build_table E nc data w)) = true.
Proof.
  unfold build_table. destruct nc; cbn [negb]; [reflexivity|].
  now destruct (changeset_rows_table data (entries_table false) w) as (H & _).
Qed.

Lemma build_table_failure nc data w e c :
  result (build_table E nc data w) = inl e -> e <> Exit c.
Proof.
  unfold build_table. destruct nc; cbn [negb]; [discriminate|].
  destruct (changeset_rows_table data (entries_table false) w) as (_ & H & _).
  apply H.
Qed.

(** The apply step returns exactly when its one POST is answered with
    status 200 and a body that decodes; else it raises
    [typer.Exit(code=1)]. *)
Lemma apply_entries_outcome data w :
  let rs := fst (send E w (POST data)) in
  let x := apply_entries E data w in
  printed (trace x) = [] /\ confirmations (trace x) = []
  /\ (forall body rs', In (EHttp (POST body) rs') (trace x) -> body = data /\ rs' = rs)
  /\ In (EHttp (POST data) rs) (trace x)
  /\ ((answered_ok rs = true /\ result x = inr tt)
      \/ (answered_ok rs = false /\ result x = inl (Exit 1))).
Proof.
  cbv zeta.
  unfold apply_entries, client_create_entries, try_except, bind, echo, emit, http,
    json_or_raise, ret, raise.
  destruct (send E w (POST data)) as [rs w1]. cbn [fst].
  destruct rs as [st tx [j|msg]|msg]; try destruct (st =? 200)%Z eqn:Est;
    unfold trace, result, printed, confirmations, answered_ok; cbn;
    try rewrite Est;
    repeat split; auto;
    repeat match goal with
           | H : _ \/ _ |- _ => destruct H
           | H : False |- _ => destruct H
           | H : _ = EHttp _ _ |- _ => first [discriminate H | inversion H; clear H]
           end;
    auto.
Qed.

Lemma load_event_no_post t body rs :
  forallb load_event t = true -> ~ In (EHttp (POST body) rs) t.
Proof. intros H. eapply forallb_not_in; [exact H|reflexivity]. Qed.

Lemma lookup_no_post t body rs :
  forallb is_lookup t = true -> ~ In (EHttp (POST body) rs) t.
Proof. intros H. eapply forallb_not_in; [exact H|reflexivity]. Qed.

Lemma exit_code_zero A (e : exn) : exit_code (inl e : exn + A) = 0%Z -> e = Exit 0.
Proof. destruct e; cbn; intros H; try discriminate. now subst. Qed.

(** X19. The table [create_entries] prints (lines 335-394): it prints at
    most one, and that one has the columns of the mode, three without the
    changeset and four with it, and one row per parsed draft in input
    order, each as many cells wide as there are columns and headed by the
    lowercased draft key (not by the lookup key). *)
Theorem X19_one_row_per_draft f p ty nc w data tb :
  result (load_drafts E f p ty w) = inr data ->
  In tb (printed (trace (create_entries E f p ty nc w))) ->
  printed (trace (create_entries E f p ty nc w)) = [tb]
  /\ columns tb = (if nc then [py "KEY"; py "VALUE"; py "SECURE"]
                  else [py "KEY"; py "OLD VALUE"; py "NEW VALUE"; py "SECURE"])
  /\ map first_cell (rows tb) = map (fun d => Text (lower (key d))) data
  /\ Forall (fun r => List.length r = List.length (columns tb)) (rows tb).
Proof.
  intros Hd Hin.
  pose proof (create_entries_run E f p ty nc w) as Hrun. cbv zeta in Hrun.
  pose proof (load_drafts_events f p ty w) as Hq.
  destruct (load_drafts E f p ty w) as [[[e|data'] w1] t1]; [discriminate|].
  unfold result, trace in Hd, Hq. cbn [fst snd] in Hd, Hq. injection Hd as ->.
  pose proof (build_table_lookups nc data w1) as Hl.
  pose proof (@build_table_rows nc data w1) as Hrows.
  destruct (build_table E nc data w1) as [[[e|tb'] w2] t2].
  { rewrite Hrun in Hin. unfold trace, printed in Hin. cbn [snd] in Hin.
    rewrite pick_app in Hin. fold (printed t1) (printed t2) in Hin.
    unfold trace in Hl. cbn [snd] in Hl.
    rewrite (load_event_no_print _ Hq), (lookup_no_print _ Hl) in Hin.
    destruct Hin. }
  unfold trace, result in Hl, Hrows. cbn [fst snd] in Hl, Hrows.
  specialize (Hrows tb' eq_refl).
  assert (Hp : printed (trace (create_entries E f p ty nc w)) = [tb']).
  { destruct (confirm_answer E w2) as [[[|]|] w3]; rewrite Hrun;
      unfold trace, printed; cbn [snd]; rewrite !pick_app;
      fold (printed t1) (printed t2);
      rewrite (load_event_no_print _ Hq), (lookup_no_print _ Hl); try reflexivity.
    destruct (apply_entries_outcome data w3) as (Hpr & _).
    cbv zeta in Hpr. unfold trace, printed in Hpr. cbn [pick app]. now rewrite Hpr. }
  rewrite Hp in Hin. destruct Hin as [<-|[]].
  split; [exact Hp|]. destruct Hrows as (Hc & Hk & Hw).
  split; [rewrite Hc; now destruct nc|]. split; assumption.
Qed.

Lemma _get_client_token w w1 t1 :
  _get_client E w = (inr tt, w1, t1) -> token_present E = true.
Proof.
  intros H. destruct (token_present E) eqn:Ht; [reflexivity|].
  rewrite (_get_client_no_token E w Ht) in H. discriminate.
Qed.

Lemma str_eqb_eq a b : str_eqb a b = true -> a = b.
Proof.
  revert b. induction a as [|c a IH]; intros [|d b]; simpl; try discriminate;
    [reflexivity|].
  intros H. apply andb_prop in H as [H1 H2]. apply Ascii.eqb_eq in H1.
  now rewrite H1, (IH _ H2).
Qed.

(** X20. Trouble with the source of [create_entries] (lines 344-364)
    comes after the token check and before anything is parsed, asked,
    looked up or written.  A file that does not exist: one line naming its
    absolute path, then [typer.Exit(code=1)].  A file that cannot be opened
    or is not text: the exception of [open] or [read] leaves the command,
    nothing is written.  A dotenv import without a base path: one line,
    then [typer.Exit(code=1)]. *)
Theorem X20_usage_errors f p ty nc w w1 t1 :
  _get_client E w = (inr tt, w1, t1) ->
  (file_at E w1 f = NoFile ->
   create_entries E f p ty nc w
   = (inl (Exit 1), w1, t1 ++ [EEcho (MsgFileMissing (absolute E w1 f))]))
  /\ (forall msg,
        (file_at E w1 f = CannotOpen msg ->
         create_entries E f p ty nc w = (inl (OSError msg), w1, t1))
        /\ (file_at E w1 f = NotText msg ->
            create_entries E f p ty nc w = (inl (UnicodeDecodeError msg), w1, t1)))
  /\ (forall content,
        file_at E w1 f = Content content ->
        ty = py "dotenv" -> p = None \/ p = Some [] ->
        create_entries E f p ty nc w = (inl (Exit 1), w1, t1 ++ [EEcho MsgNoPath])).
Proof.
  intros Hc. pose proof (_get_client_token _ Hc) as Ht.
  unfold create_entries, bind, entry_client. rewrite Hc, Ht. cbn [ret].
  unfold parse_source. split; [|split].
  - intros ->. reflexivity.
  - intros msg. split; intros ->; cbn; now rewrite app_nil_r.
  - intros content -> -> Hp. cbn [str_eqb py list_ascii_of_string Ascii.eqb Bool.eqb andb].
    destruct Hp as [-> | ->]; reflexivity.
Qed.

(** X21. The exit code of [create_entries] is 0 in exactly two kinds of
    run: the user answered no at the confirmation, or the batch POST was
    sent and answered with status 200 and a body that decodes.  Every
    other run ends with a non-zero code. *)
Theorem X21_exit_code_zero f p ty nc w :
  let x := create_entries E f p ty nc w in
  exit_code (result x) = 0%Z
  <-> confirmations (trace x) = [Some false]
      \/ exists body rs, In (EHttp (POST body) rs) (trace x) /\ answered_ok rs = true.
Proof.
  cbv zeta.
  pose proof (create_entries_run E f p ty nc w) as Hrun. cbv zeta in Hrun.
  pose proof (load_drafts_events f p ty w) as Hq.
  pose proof (@load_drafts_failure f p ty w) as Hf.
  destruct (load_drafts E f p ty w) as [[[e|data] w1] t1];
    unfold result, trace in Hq, Hf; cbn [fst snd] in Hq, Hf.
  { rewrite Hrun. unfold result, trace. cbn [fst snd].
    rewrite (load_event_no_confirm _ Hq). split.
    - intros H. apply exit_code_zero in H. now destruct (Hf e eq_refl).
    - intros [H | (body & rs & Hin & _)]; [discriminate|].
      now apply (@load_event_no_post _ _ _ Hq) in Hin. }
  clear Hf.
  pose proof (build_table_lookups nc data w1) as Hl.
  pose proof (@build_table_failure nc data w1) as Hf.
  destruct (build_table E nc data w1) as [[[e|tb] w2] t2];
    unfold result, trace in Hl, Hf; cbn [fst snd] in Hl, Hf.
  { rewrite Hrun. unfold result, trace, confirmations. cbn [fst snd].
    rewrite pick_app. fold (confirmations t1) (confirmations t2).
    rewrite (load_event_no_confirm _ Hq), (lookup_no_confirm _ Hl). split.
    - intros H. apply exit_code_zero in H. now destruct (Hf e 0%Z eq_refl).
    - intros [H | (body & rs & Hin & _)]; [discriminate|].
      apply in_app_or in Hin as [Hin|Hin];
        [now apply (@load_event_no_post _ _ _ Hq) in Hin
        |now apply (@lookup_no_post _ _ _ Hl) in Hin]. }
  clear Hf.
  assert (Hpre : forall t3,
             confirmations (t1 ++ t2 ++ t3) = confirmations t3
             /\ (forall body rs, In (EHttp (POST body) rs) (t1 ++ t2 ++ t3) ->
                                 In (EHttp (POST body) rs) t3)).
  { intros t3. split.
    - unfold confirmations. rewrite !pick_app.
      fold (confirmations t1) (confirmations t2).
      now rewrite (load_event_no_confirm _ Hq), (lookup_no_confirm _ Hl).
    - intros body rs Hin.
      apply in_app_or in Hin as [Hin|Hin];
        [now apply (@load_event_no_post _ _ _ Hq) in Hin|].
      apply in_app_or in Hin as [Hin|Hin];
        [now apply (@lookup_no_post _ _ _ Hl) in Hin|exact Hin]. }
  destruct (confirm_answer E w2) as [[[|]|] w3]; rewrite Hrun;
    unfold result, trace; cbn [fst snd];
    match goal with
    | |- context [t1 ++ t2 ++ ?t3] => destruct (Hpre t3) as [Hc Hp]; rewrite Hc
    end.
  - destruct (apply_entries_outcome data w3) as (_ & Hcf & Hpost & Hin & Hcase).
    cbv zeta in Hcf, Hpost, Hin, Hcase. unfold trace, result in *.
    unfold confirmations in *. cbn [pick app]. rewrite Hcf.
    destruct Hcase as [[Hok Hr] | [Hok Hr]]; rewrite Hr; cbn [exit_code].
    + split; [intros _|reflexivity]. right.
      exists data, (fst (send E w3 (POST data))). split; [|exact Hok].
      apply in_or_app. right. apply in_or_app. right.
      right. right. exact Hin.
    + split; [discriminate|].
      intros [H | (body & rs & Hin' & Hok')]; [discriminate|].
      apply Hp in Hin'. destruct Hin' as [H|[H|Hin']]; try discriminate.
      destruct (Hpost _ _ Hin') as [_ ->]. congruence.
  - cbn. split; [now left|reflexivity].
  - cbn. split; [discriminate|].
    intros [H | (body & rs & Hin' & _)]; [discriminate|].
    apply Hp in Hin'. destruct Hin' as [H|[H|[]]]; discriminate.
Qed.

End BulkFacts.

Lemma X19_witness :
  let x := create_entries (demo_env sc0) (py "app.env") (Some (py "app/"))
                          (py "dotenv") false w0 in
  let tb := hd (Table [] []) (printed (trace x)) in
  printed (trace x) = [tb]
  /\ columns tb = (if false then [py "KEY"; py "VALUE"; py "SECURE"]
                  else [py "KEY"; py "OLD VALUE"; py "NEW VALUE"; py "SECURE"])
  /\ map first_cell (rows tb) = map (fun d => Text (lower (key d))) [d_host; d_api]
  /\ Forall (fun r => List.length r = List.length (columns tb)) (rows tb).
Proof.
  apply (@X19_one_row_per_draft world (demo_env sc0) (py "app.env") (Some (py "app/"))
           (py "dotenv") false w0 [d_host; d_api]).
  - vm_compute. reflexivity.
  - vm_compute. left. reflexivity.
Defined.

Lemma X20_witness :
  let E := demo_env sc0 in
  let t1 := trace (_get_client E w0) in
  let found st := Env (send E) (confirm_answer E) (select_answer E) (fun _ _ => st)
                      (absolute E) (config_token E) (json_loads E) (py_str E) in
  let is_dir := py "[Errno 21] Is a directory: 'src'" in
  let not_utf8 := py "'utf-8' codec can't decode byte 0xff in position 0" in
  create_entries E (py "missing.env") None (py "dotenv") false w0
  = (inl (Exit 1), w0, t1 ++ [EEcho (MsgFileMissing (py "/home/dev/missing.env"))])
  /\ create_entries (found (CannotOpen is_dir)) (py "src") None (py "nbox") false w0
     = (inl (OSError is_dir), w0, t1)
  /\ create_entries (found (NotText not_utf8)) (py "logo.png") None (py "nbox") false w0
     = (inl (UnicodeDecodeError not_utf8), w0, t1)
  /\ create_entries E (py "app.env") None (py "dotenv") false w0
     = (inl (Exit 1), w0, t1 ++ [EEcho MsgNoPath]).
Proof.
  intros E t1 found is_dir not_utf8.
  split; [|split; [|split]].
  - apply (proj1 (@X20_usage_errors world E (py "missing.env") None
                    (py "dotenv") false w0 w0 t1 eq_refl)).
    reflexivity.
  - apply (proj1 (proj1 (proj2 (@X20_usage_errors world (found (CannotOpen is_dir))
                                  (py "src") None (py "nbox") false w0 w0 t1 eq_refl))
                        is_dir)).
    reflexivity.
  - apply (proj2 (proj1 (proj2 (@X20_usage_errors world (found (NotText not_utf8))
                                  (py "logo.png") None (py "nbox") false w0 w0 t1
                                  eq_refl))
                        not_utf8)).
    reflexivity.
  - apply (proj2 (proj2 (@X20_usage_errors world E (py "app.env") None
                           (py "dotenv") false w0 w0 t1 eq_refl)) env_text);
      [reflexivity|reflexivity|left; reflexivity].
Defined.

(* ================================================================= *)
(** ** Further properties: get-entry *)

Section ReadFacts.

Context {World : Type}.
Variable E : env World.

Ltac read_unfold :=
  unfold get_entry, _get_key, _get_secret, get_secret_by_key, lift, rbind, rtry,
    remit, rret, rraise, _get_client, validate_token, get_entry_by_key,
    NboxRequestClient, entry_client, entry_get, table_add_row, try_except, bind,
    echo, emit, http, json_or_raise, ret, raise.

(** X22. [get_entry] only reads: it asks the user nothing, every request
    it sends is a GET, and there are at most two, the token check and
    then one lookup: of [key] with the key without its leading '/', or,
    with [--decrypt], of [secret-value] with the key exactly as typed.
    With an output type that is neither table nor json it sends nothing. *)
Theorem X22_get_entry_only_reads (k : str) (decrypt : bool) (ot : str) (w : World) :
  let t := snd (get_entry E k decrypt ot w) in
  let check := GET (py "prefix") (py "login") in
  let lookup := if decrypt then GET (py "secret-value") k
                else GET (py "key") (lstrip_slash k) in
  forallb no_question t = true
  /\ forallb is_get (read_sent t) = true
  /\ (read_sent t = [] \/ read_sent t = [check] \/ read_sent t = [check; lookup])
  /\ (str_eqb ot (py "table") || str_eqb ot (py "json") = false -> read_sent t = []).
Proof.
  cbv zeta. unfold get_entry.
  destruct (str_eqb ot (py "table") || str_eqb ot (py "json")) eqn:Hot; cbn [negb].
  - read_unfold.
    destruct decrypt; run_cases; cbn -[lstrip_slash py_str];
      (split; [reflexivity|]); (split; [reflexivity|]);
      (split; [|intro Hf; discriminate Hf]);
      first [ left; reflexivity
            | right; left; reflexivity
            | right; right; reflexivity ].
  - cbn. repeat split; auto.
Qed.

(** X23. [get_entry] lets no exception through: every run returns or
    ends by [typer.Exit(code=1)].  A run that returns has handed exactly
    one thing to the console, a table or a JSON value, as its last step; a
    run that fails has written a line as its last step, so no failure is
    silent. *)
Theorem X23_get_entry_outcomes (k : str) (decrypt : bool) (ot : str) (w : World) :
  let x := get_entry E k decrypt ot w in
  (fst (fst x) = inr tt \/ fst (fst x) = inl (Exit 1))
  /\ (fst (fst x) = inr tt -> exists before shown,
        snd x = before ++ [shown] /\ read_shown (snd x) = [shown])
  /\ (fst (fst x) = inl (Exit 1) -> exists before line,
        snd x = before ++ [line] /\ is_line line = true).
Proof.
  cbv zeta. read_unfold.
  destruct (str_eqb ot (py "table")) eqn:Htable;
    destruct (str_eqb ot (py "json")) eqn:Hjson; cbn [orb negb];
    destruct decrypt; run_cases; cbn -[lstrip_slash py_str];
    repeat match goal with
           | |- _ /\ _ => split
           | |- _ -> _ => intro
           | H : inl _ = inr _ |- _ => discriminate H
           | H : inr _ = inl _ |- _ => discriminate H
           end;
    try (left; reflexivity); try (right; reflexivity);
    match goal with
    | |- exists before final, ?l = _ /\ _ =>
        exists (removelast l), (last l (RJson JNull)); split; reflexivity
    end.
Qed.

(** X24. An entry that is not there is reported twice: when the lookup is
    answered with status 200 and an empty body, [_get_key] (or
    [_get_secret]) writes its "No entry found" line and raises
    [typer.Exit(code=1)], which the handler of [get_entry] catches like
    any exception; it writes a second error line, whose text is empty, and
    raises [typer.Exit(code=1)] again. *)
Theorem X24_not_found_is_reported_twice
  (k : str) (decrypt : bool) (ot : str) (w w1 w2 : World) t1 tx (j : json) :
  str_eqb ot (py "table") || str_eqb ot (py "json") = true ->
  _get_client E w = (inr tt, w1, t1) ->
  send E w1 (if decrypt then GET (py "secret-value") k
             else GET (py "key") (lstrip_slash k))
  = (Response 200 tx (Decoded j), w2) ->
  truthy j = false ->
  fst (fst (get_entry E k decrypt ot w)) = inl (Exit 1)
  /\ read_lines (snd (get_entry E k decrypt ot w))
     = [if decrypt then LineNoSecret k else LineNoEntry k; LineError []].
Proof.
  intros Hot Hc Hs Hj.
  pose proof (_get_client_token _ _ Hc) as Ht.
  assert (Hl : forall t : list event, read_lines (map RBase t) = []).
  { induction t as [|ev t IH]; [reflexivity|exact IH]. }
  assert (Happ : forall a b, read_lines (a ++ b) = read_lines a ++ read_lines b).
  { induction a as [|[ev|l|c|x] a IH]; intros b; cbn; rewrite ?IH; reflexivity. }
  unfold get_entry, _get_secret, _get_key, get_secret_by_key, get_entry_by_key,
    entry_client, rbind, rtry, lift, remit, rraise, bind, emit, http, ret, raise.
  cbv beta. rewrite Hot. cbn [negb]. rewrite Hc, Ht.
  destruct decrypt; rewrite Hs; cbn [json_or_raise Z.eqb Pos.eqb ret];
    rewrite Hj; cbn -[read_lines app]; rewrite ?Happ, Hl;
    split; reflexivity.
Qed.

End ReadFacts.

Lemma X24_witness :
  let E := demo_env sc0 in
  fst (fst (get_entry E (py "/app/none") false (py "json") w0)) = inl (Exit 1)
  /\ read_lines (snd (get_entry E (py "/app/none") false (py "json") w0))
     = [if false then LineNoSecret (py "/app/none") else LineNoEntry (py "/app/none");
        LineError []].
Proof.
  apply (@X24_not_found_is_reported_twice world (demo_env sc0) (py "/app/none") false
           (py "json") w0 w0 w0
           (trace (_get_client (demo_env sc0) w0)) (py "null") JNull);
    reflexivity.
Defined.
